(** * DNS manager: validator, credential vault, rate limiter and sync engine

  A shallow embedding of the TypeScript sources
    - [src/lib/dns-validation.ts]  (record validator),
    - [src/lib/crypto.ts]          (credential vault),
    - [src/lib/rate-limit.ts]      (in-memory rate limiter),
    - [src/server/*.ts]            (provider, domain and record actions,
                                    registration and sign-in handlers),
  followed by the properties of the specification that concern them and
  by further properties of the code.

  Conventions.  A JavaScript string is a [string] whose characters are
  read as code units below 256.  Integer-valued JavaScript numbers
  (counters, millisecond timestamps) are [Z].  A function that can throw
  returns a [Res]; code that reads or writes the process state is written
  in explicit state-passing style. *)

From Stdlib Require Import ZArith String Ascii List Bool Lia.
From Stdlib.Strings Require Import Byte.
From Stdlib Require QArith.
From Stdlib Require Import DecimalString.
From stdpp Require Import base option list strings gmap fin_maps.

Local Open Scope Z_scope.
Local Open Scope string_scope.

(* ===================================================================== *)
(** * Part I: the program                                                 *)
(* ===================================================================== *)

(** ** JavaScript exceptions *)

(** A thrown value is an [Error] carrying a message, or anything else.
  Every [catch] of the sources inspects it with
  [error instanceof Error ? error.message : fallback]. *)
Inductive exn : Type :=
| JsError (message : string)
| JsOther.

Inductive Res (A : Type) : Type :=
| Ok (a : A)
| Err (e : exn).
Arguments Ok {A} a.
Arguments Err {A} e.

Definition messageOr (fallback : string) (e : exn) : string :=
  match e with
  | JsError m => m
  | JsOther => fallback
  end.

(** ** JavaScript strings and numbers *)

Module Js.

Definition code (c : ascii) : N := N_of_ascii c.

Definition inRange (lo hi c : ascii) : bool :=
  ((code lo <=? code c) && (code c <=? code hi))%N.

(** [\s], and the characters removed by [String.prototype.trim]: the
    white space and line terminator code units below 256. *)
Definition isWhiteSpace (c : ascii) : bool :=
  existsb (N.eqb (code c)) [9; 10; 11; 12; 13; 32; 160]%N.

Definition isDigit (c : ascii) : bool := inRange "0" "9" c.
Definition isLower (c : ascii) : bool := inRange "a" "z" c.
Definition isUpper (c : ascii) : bool := inRange "A" "Z" c.
Definition isAlnum (c : ascii) : bool := isLower c || isUpper c || isDigit c.
Definition isHexDigit (c : ascii) : bool :=
  isDigit c || inRange "a" "f" c || inRange "A" "F" c.

Definition isEmpty (s : string) : bool :=
  match s with
  | EmptyString => true
  | String _ _ => false
  end.

Fixpoint trimStart (s : string) : string :=
  match s with
  | EmptyString => EmptyString
  | String c rest => if isWhiteSpace c then trimStart rest else s
  end.

Fixpoint trimEnd (s : string) : string :=
  match s with
  | EmptyString => EmptyString
  | String c rest =>
      let t := trimEnd rest in
      if isWhiteSpace c && isEmpty t then EmptyString else String c t
  end.

(** [s.trim()] *)
Definition trim (s : string) : string := trimEnd (trimStart s).

(** [c.toUpperCase()] for one code unit.  The sharp s becomes two
    letters.  The micro sign and the y with diaeresis have their upper
    case above 255 and are left as they are: like their images, they are
    different from every letter of a [case] label. *)
Definition upperChar (c : ascii) : string :=
  if isLower c then String (ascii_of_N (code c - 32)) EmptyString
  else if (code c =? 223)%N then "SS"
  else if ((224 <=? code c) && (code c <=? 254) && negb (code c =? 247))%N
       then String (ascii_of_N (code c - 32)) EmptyString
  else String c EmptyString.

(** [s.toUpperCase()] *)
Fixpoint toUpperCase (s : string) : string :=
  match s with
  | EmptyString => EmptyString
  | String c rest => upperChar c ++ toUpperCase rest
  end.

(** The longest prefix of characters satisfying [p], and what follows. *)
Fixpoint span (p : ascii -> bool) (s : string) : string * string :=
  match s with
  | EmptyString => (EmptyString, EmptyString)
  | String c rest =>
      if p c then let '(a, b) := span p rest in (String c a, b)
      else (EmptyString, s)
  end.

(** [s.split(/\s+/)]: the pieces between maximal runs of white space,
    empty first and last pieces included.  The head of the result is the
    piece being read; [inRun] tells that the previous character was part
    of a separator. *)
Fixpoint splitRuns (inRun : bool) (s : string) : list string :=
  match s with
  | EmptyString => [EmptyString]
  | String c rest =>
      if isWhiteSpace c then
        if inRun then splitRuns true rest
        else EmptyString :: splitRuns true rest
      else
        match splitRuns false rest with
        | piece :: pieces => String c piece :: pieces
        | [] => [String c EmptyString]
        end
  end.

Definition splitWhiteSpace (s : string) : list string := splitRuns false s.

(** Global replacement of single characters by the empty string: every
    character satisfying [p] is removed. *)
Fixpoint removeAll (p : ascii -> bool) (s : string) : string :=
  match s with
  | EmptyString => EmptyString
  | String c rest => if p c then removeAll p rest else String c (removeAll p rest)
  end.

(** A JavaScript number.  A finite number is kept as the exact rational
    it denotes: where JavaScript rounds a decimal literal to binary64 the
    model keeps the literal's value, which is the same number for every
    integer literal below 2^53. *)
Inductive number : Type :=
| NaN
| Infinity (negative : bool)
| Finite (q : QArith_base.Q).

Definition ofZ (z : Z) : number := Finite (QArith_base.inject_Z z).

Definition isNaN (n : number) : bool :=
  match n with
  | NaN => true
  | _ => false
  end.

(** [a < b]; false as soon as one side is [NaN]. *)
Definition lt (a b : number) : bool :=
  match a, b with
  | NaN, _ | _, NaN => false
  | Infinity true, Infinity true => false
  | Infinity true, _ => true
  | _, Infinity true => false
  | Infinity false, _ => false
  | Finite _, Infinity false => true
  | Finite x, Finite y => negb (QArith_base.Qle_bool y x)
  end.

(** [a > b] *)
Definition gt (a b : number) : bool := lt b a.

Definition digitValue (c : ascii) : Z :=
  if isDigit c then Z.of_N (code c - 48)
  else if inRange "a" "f" c then Z.of_N (code c - 87)
  else Z.of_N (code c - 55).

(** The value of a string of digits in the given radix. *)
Definition digitsValue (radix : Z) (s : string) : Z :=
  fold_left (fun acc c => acc * radix + digitValue c) (list_ascii_of_string s) 0.

Definition pow10 (e : Z) : QArith_base.Q :=
  QArith_base.Qpower (QArith_base.inject_Z 10) e.

(** [ExponentPart], optional, up to the end of the string. *)
Definition parseExponent (s : string) : option Z :=
  match s with
  | EmptyString => Some 0
  | String e rest =>
      if ((code e =? 101) || (code e =? 69))%N then
        let '(negative, digits) :=
          match rest with
          | String "+" r => (false, r)
          | String "-" r => (true, r)
          | _ => (false, rest)
          end in
        if negb (isEmpty digits) && isEmpty (snd (span isDigit digits)) then
          Some (if negative then - digitsValue 10 digits
                else digitsValue 10 digits)
        else None
      else None
  end.

(** [StrUnsignedDecimalLiteral], [Infinity] apart. *)
Definition parseUnsignedDecimal (s : string) : option QArith_base.Q :=
  let '(intPart, afterInt) := span isDigit s in
  let '(dot, fracPart, afterFrac) :=
    match afterInt with
    | String "." r => let '(f, r') := span isDigit r in (true, f, r')
    | _ => (false, EmptyString, afterInt)
    end in
  if isEmpty intPart && isEmpty fracPart then None
  else
    match parseExponent afterFrac with
    | None => None
    | Some e =>
        Some (QArith_base.Qmult
                (QArith_base.inject_Z (digitsValue 10 (intPart ++ fracPart)))
                (pow10 (e - Z.of_nat (String.length fracPart))))
    end.

Definition parseRadix (radix : Z) (p : ascii -> bool) (digits : string)
    : number :=
  if negb (isEmpty digits) && isEmpty (snd (span p digits))
  then ofZ (digitsValue radix digits)
  else NaN.

(** [Number(s)] for a string [s] (the abstract operation StringToNumber). *)
Definition Number (s : string) : number :=
  let t := trim s in
  match t with
  | EmptyString => ofZ 0
  | String "0" (String "x" d) | String "0" (String "X" d) =>
      parseRadix 16 isHexDigit d
  | String "0" (String "o" d) | String "0" (String "O" d) =>
      parseRadix 8 (inRange "0" "7") d
  | String "0" (String "b" d) | String "0" (String "B" d) =>
      parseRadix 2 (inRange "0" "1") d
  | _ =>
      let '(negative, body) :=
        match t with
        | String "+" r => (false, r)
        | String "-" r => (true, r)
        | _ => (false, t)
        end in
      if String.eqb body "Infinity" then Infinity negative
      else
        match parseUnsignedDecimal body with
        | None => NaN
        | Some q => Finite (if negative then QArith_base.Qopp q else q)
        end
  end.

(** *** Regular expressions

    The fragment of the regular expression language the validator uses.
    [test] decides whether the whole string matches, which is what
    [RegExp.prototype.test] computes for a pattern written between [^]
    and [$]. *)
Inductive regex : Type :=
| Eps
| Class (p : ascii -> bool)
| Seq (a b : regex)
| Alt (a b : regex)
| Rep (lo hi : nat) (a : regex)
| Star (a : regex)
| NotAhead (p : ascii -> bool)
| NotBehind (p : ascii -> bool).

(** A continuation receives the character just consumed, if any, and the
    rest of the input. *)
Definition Cont : Type := option ascii -> string -> bool.

Fixpoint repeatK (body : Cont -> Cont) (lo hi : nat) (k : Cont) : Cont :=
  fun prev s =>
    match hi with
    | O => match lo with
           | O => k prev s
           | S _ => false
           end
    | S hi' =>
        match lo with
        | O => body (repeatK body 0 hi' k) prev s || k prev s
        | S lo' => body (repeatK body lo' hi' k) prev s
        end
    end.

Fixpoint matchK (r : regex) (k : Cont) : Cont :=
  match r with
  | Eps => k
  | Class p =>
      fun _ s =>
        match s with
        | String c rest => p c && k (Some c) rest
        | EmptyString => false
        end
  | Seq a b => matchK a (matchK b k)
  | Alt a b => fun prev s => matchK a k prev s || matchK b k prev s
  | Rep lo hi a => repeatK (matchK a) lo hi k
  | Star a => fun prev s => repeatK (matchK a) 0 (String.length s) k prev s
  | NotAhead p =>
      fun prev s =>
        match s with
        | String c _ => negb (p c) && k prev s
        | EmptyString => k prev s
        end
  | NotBehind p =>
      fun prev s =>
        match prev with
        | Some c => negb (p c) && k prev s
        | None => k prev s
        end
  end.

Definition test (r : regex) (s : string) : bool :=
  matchK r (fun _ rest => isEmpty rest) None s.

Definition Chr (c : ascii) : regex := Class (Ascii.eqb c).
Definition Opt (a : regex) : regex := Alt a Eps.
Definition Plus (a : regex) : regex := Seq a (Star a).

(** A literal word; with the [i] flag, letters match in either case. *)
Definition foldCase (c : ascii) : N :=
  if isUpper c then (code c + 32)%N else code c.
Definition sameLetter (c d : ascii) : bool := (foldCase c =? foldCase d)%N.
Fixpoint Lit (ignoreCase : bool) (w : string) : regex :=
  match w with
  | EmptyString => Eps
  | String c rest =>
      Seq (Class (fun d => Ascii.eqb c d || (ignoreCase && sameLetter c d)))
          (Lit ignoreCase rest)
  end.

End Js.

(** ** src/lib/dns-validation.ts *)

Module Validation.
Import Js.

Definition digit : regex := Class isDigit.
Definition hexDigit : regex := Class isHexDigit.

(** [25[0-5]|2[0-4][0-9]|[01]?[0-9][0-9]?] *)
Definition octet : regex :=
  Alt (Seq (Lit false "25") (Class (inRange "0" "5")))
 (Alt (Seq (Chr "2") (Seq (Class (inRange "0" "4")) digit))
      (Seq (Opt (Class (inRange "0" "1"))) (Seq digit (Opt digit)))).

(** [/^(?:(?:octet)\.){3}(?:octet)$/] *)
Definition IPV4_REGEX : regex :=
  Seq (Rep 3 3 (Seq octet (Chr "."))) octet.

(** [[0-9a-fA-F]{1,4}] and [[0-9a-fA-F]{1,4}:] *)
Definition hextet : regex := Rep 1 4 hexDigit.
Definition hextetColon : regex := Seq hextet (Chr ":").

(** The four alternatives of [IPV6_REGEX], each between [^] and [$]. *)
Definition IPV6_REGEX : regex :=
  Alt (Seq (Rep 7 7 hextetColon) hextet)
 (Alt (Seq (Lit false "::") (Seq (Rep 0 6 hextetColon) hextet))
 (Alt (Seq (Rep 1 7 hextetColon) (Chr ":"))
      (Seq (Rep 0 6 hextetColon)
           (Seq (Lit false "::") (Seq (Rep 0 5 hextetColon) hextet))))).

Definition isHyphen (c : ascii) : bool := Ascii.eqb c "-".

(** [(?!-)[A-Za-z0-9-]{1,63}(?<!-)] *)
Definition hostLabel : regex :=
  Seq (NotAhead isHyphen)
      (Seq (Rep 1 63 (Class (fun c => isAlnum c || isHyphen c)))
           (NotBehind isHyphen)).

(** [/^label(?:\.label)*\.?$/] *)
Definition HOSTNAME_REGEX : regex :=
  Seq hostLabel (Seq (Star (Seq (Chr ".") hostLabel)) (Opt (Chr "."))).

(** [[a-zA-Z0-9](?:[a-zA-Z0-9-]*[a-zA-Z0-9])?] *)
Definition nameLabel : regex :=
  Seq (Class isAlnum)
      (Opt (Seq (Star (Class (fun c => isAlnum c || isHyphen c)))
                (Class isAlnum))).

(** [/^(?:@|\*|(?:\*\.)?(?:label\.)*label)$/] *)
Definition DNS_NAME_REGEX : regex :=
  Alt (Chr "@")
 (Alt (Chr "*")
      (Seq (Opt (Lit false "*."))
           (Seq (Star (Seq nameLabel (Chr "."))) nameLabel))).

(** The double quote, removed from TXT content before the check. *)
Definition isQuote (c : ascii) : bool := (code c =? 34)%N.

(** [/^[\x20-\x7E]+$/] *)
Definition TXT_CONTENT_REGEX : regex :=
  Plus (Class (inRange " " "~")).

(** [.] : any character but a line terminator. *)
Definition anyChar : regex :=
  Class (fun c => negb ((code c =? 10) || (code c =? 13))%N).

(** [/^(\d+)\s+(issue|issuewild|iodef)\s+(.+)$/i] *)
Definition CAA_REGEX : regex :=
  Seq (Plus digit)
 (Seq (Plus (Class isWhiteSpace))
 (Seq (Alt (Lit true "issue") (Alt (Lit true "issuewild") (Lit true "iodef")))
 (Seq (Plus (Class isWhiteSpace))
      (Plus anyChar)))).

(** [interface ValidationResult { valid: boolean; error?: string }] *)
Inductive ValidationResult : Type :=
| Valid
| Invalid (error : string).

Definition valid (r : ValidationResult) : bool :=
  match r with
  | Valid => true
  | Invalid _ => false
  end.

Definition validateRecordName (name : string) : ValidationResult :=
  if isEmpty name || isEmpty (trim name) then
    Invalid "Record name is required"
  else
    let trimmedName := trim name in
    if (253 <? String.length trimmedName)%nat then
      Invalid "Record name is too long (max 253 characters)"
    else if negb (test DNS_NAME_REGEX trimmedName)
            && negb (String.eqb trimmedName "@") then
      Invalid "Invalid record name format"
    else Valid.

(** The [case "SRV":] branch of [validateRecordContent]. *)
Definition validateSrvContent (trimmedContent : string) : ValidationResult :=
  let srvParts := splitWhiteSpace trimmedContent in
  if (List.length srvParts <? 3)%nat then
    Invalid "SRV record format: weight port target"
  else
    let weight := nth 0 srvParts EmptyString in
    let port := nth 1 srvParts EmptyString in
    let target := nth 2 srvParts EmptyString in
    if isNaN (Number weight) || lt (Number weight) (ofZ 0)
       || gt (Number weight) (ofZ 65535) then
      Invalid "Invalid SRV weight (0-65535)"
    else if isNaN (Number port) || lt (Number port) (ofZ 0)
            || gt (Number port) (ofZ 65535) then
      Invalid "Invalid SRV port (0-65535)"
    else if negb (test HOSTNAME_REGEX target)
            && negb (String.eqb target ".") then
      Invalid "Invalid SRV target hostname"
    else Valid.

Definition validateRecordContent (type content : string) : ValidationResult :=
  if isEmpty content || isEmpty (trim content) then
    Invalid "Record content is required"
  else
    let trimmedContent := trim content in
    let upper := toUpperCase type in
    if String.eqb upper "A" then
      if negb (test IPV4_REGEX trimmedContent)
      then Invalid "Invalid IPv4 address format" else Valid
    else if String.eqb upper "AAAA" then
      if negb (test IPV6_REGEX trimmedContent)
      then Invalid "Invalid IPv6 address format" else Valid
    else if String.eqb upper "CNAME" || String.eqb upper "NS" then
      if negb (test HOSTNAME_REGEX trimmedContent)
      then Invalid ("Invalid hostname for " ++ type ++ " record") else Valid
    else if String.eqb upper "MX" then
      if negb (test HOSTNAME_REGEX trimmedContent)
      then Invalid "Invalid mail server hostname" else Valid
    else if String.eqb upper "TXT" then
      if (4096 <? String.length trimmedContent)%nat then
        Invalid "TXT record content is too long (max 4096 characters)"
      else if negb (test TXT_CONTENT_REGEX
                      (removeAll isQuote trimmedContent)) then
        Invalid "TXT record contains invalid characters"
      else Valid
    else if String.eqb upper "SRV" then
      validateSrvContent trimmedContent
    else if String.eqb upper "CAA" then
      if negb (test CAA_REGEX trimmedContent)
      then Invalid "Invalid CAA record format: flag tag value" else Valid
    else
      if (4096 <? String.length trimmedContent)%nat
      then Invalid "Record content is too long" else Valid.

Definition validateTTL (ttl : number) : ValidationResult :=
  if isNaN ttl then Invalid "TTL must be a number"
  else if lt ttl (ofZ 60) then Invalid "TTL must be at least 60 seconds"
  else if gt ttl (ofZ (86400 * 7)) then
    Invalid "TTL cannot exceed 7 days (604800 seconds)"
  else Valid.

Definition validatePriority (priority : number) : ValidationResult :=
  if isNaN priority then Invalid "Priority must be a number"
  else if lt priority (ofZ 0) || gt priority (ofZ 65535) then
    Invalid "Priority must be between 0 and 65535"
  else Valid.

(** The argument of [validateDNSRecord]. *)
Record DNSRecordInput : Type := mkDNSRecordInput {
  type : string;
  name : string;
  content : string;
  ttl : option number;
  priority : option number
}.

Definition validateDNSRecord (input : DNSRecordInput) : ValidationResult :=
  match validateRecordName (name input) with
  | Invalid e => Invalid e
  | Valid =>
  match validateRecordContent (type input) (content input) with
  | Invalid e => Invalid e
  | Valid =>
  match (match ttl input with
         | Some t => validateTTL t
         | None => Valid
         end) with
  | Invalid e => Invalid e
  | Valid =>
      let upper := toUpperCase (type input) in
      if String.eqb upper "MX" || String.eqb upper "SRV" then
        match priority input with
        | None => Invalid ("Priority is required for " ++ type input ++ " records")
        | Some p => validatePriority p
        end
      else Valid
  end end end.

End Validation.

(** ** src/lib/crypto.ts *)

Module Crypto.

Abbreviation bytes := (list byte).

(** [Record<string, string>] *)
Abbreviation Credentials := (gmap string string).

Definition ALGORITHM : string := "aes-256-gcm".
Definition IV_LENGTH : nat := 16.
Definition AUTH_TAG_LENGTH : nat := 16.
Definition SALT_LENGTH : nat := 32.
Definition KEY_LENGTH : nat := 32.
Definition ITERATIONS : Z := 100000.

(** The Node.js builtins the vault calls.  They are not code of the
    repository; the vault is written over this interface.

    - [randomBytes] reads the generator state and returns the next one;
    - [aesGcmEncrypt key iv plaintext] stands for [createCipheriv],
      [update], [final] and [getAuthTag] and returns the ciphertext and
      the tag;
    - [aesGcmDecrypt key iv authTag ciphertext] stands for
      [createDecipheriv], [setAuthTag], [update] and [final];
    - [JSValue] is the type of what [JSON.parse] returns, of which the
      string records are a part. *)
Record NodeApi : Type := mkNodeApi {
  Rng : Type;
  JSValue : Type;
  ofRecord : Credentials -> JSValue;
  env_CREDENTIALS_ENCRYPTION_KEY : option string;
  randomBytes : nat -> Rng -> bytes * Rng;
  pbkdf2Sync : string -> bytes -> Z -> nat -> string -> bytes;
  aesGcmEncrypt : bytes -> bytes -> bytes -> Res (bytes * bytes);
  aesGcmDecrypt : bytes -> bytes -> bytes -> bytes -> Res bytes;
  base64Encode : bytes -> string;
  base64Decode : string -> bytes;
  utf8Encode : string -> bytes;
  utf8Decode : bytes -> string;
  JSON_stringify : JSValue -> string;
  JSON_parse : string -> Res JSValue
}.

(** What the vault relies on: the documented behaviour of the builtins. *)
Record NodeLaws (api : NodeApi) : Prop := mkNodeLaws {
  ofRecord_inj : forall m1 m2 : Credentials,
    ofRecord api m1 = ofRecord api m2 -> m1 = m2;
  randomBytes_length : forall n g,
    length (fst (randomBytes api n g)) = n;
  pbkdf2Sync_length : forall password salt iterations keylen digest,
    length (pbkdf2Sync api password salt iterations keylen digest) = keylen;
  aesGcmEncrypt_ok : forall key iv plaintext,
    length key = 32%nat -> length iv = 16%nat ->
    exists ciphertext authTag,
      aesGcmEncrypt api key iv plaintext = Ok (ciphertext, authTag) /\
      length authTag = 16%nat;
  aesGcmDecrypt_encrypt : forall key iv plaintext ciphertext authTag,
    aesGcmEncrypt api key iv plaintext = Ok (ciphertext, authTag) ->
    aesGcmDecrypt api key iv authTag ciphertext = Ok plaintext;
  aesGcmDecrypt_wrong_tag : forall key iv plaintext ciphertext authTag authTag',
    aesGcmEncrypt api key iv plaintext = Ok (ciphertext, authTag) ->
    length authTag' = 16%nat -> authTag' <> authTag ->
    exists e, aesGcmDecrypt api key iv authTag' ciphertext = Err e;
  base64Decode_encode : forall b,
    base64Decode api (base64Encode api b) = b;
  JSON_utf8_roundtrip : forall m : Credentials,
    JSON_parse api
      (utf8Decode api (utf8Encode api (JSON_stringify api (ofRecord api m))))
    = Ok (ofRecord api m)
}.

Section Vault.
Variable api : NodeApi.

(** [buf.subarray(start, end)] for [start <= end]; both ends are clamped
    to the length of the buffer. *)
Definition subarray (start stop : nat) (buf : bytes) : bytes :=
  take (stop - start) (drop start buf).

Definition getEncryptionKey : Res string :=
  match env_CREDENTIALS_ENCRYPTION_KEY api with
  | None | Some EmptyString =>
      Err (JsError
        ("CREDENTIALS_ENCRYPTION_KEY environment variable is not set. " ++
         "Please generate a secure key using: openssl rand -base64 32"))
  | Some key => Ok key
  end.

Definition deriveKey (salt : bytes) : Res bytes :=
  match getEncryptionKey with
  | Err e => Err e
  | Ok masterKey =>
      Ok (pbkdf2Sync api masterKey salt ITERATIONS KEY_LENGTH "sha256")
  end.

Definition encryptCredentials (data : Credentials) (g : Rng api)
    : Res string * Rng api :=
  let plaintext := JSON_stringify api (ofRecord api data) in
  let '(salt, g1) := randomBytes api SALT_LENGTH g in
  let '(iv, g2) := randomBytes api IV_LENGTH g1 in
  match deriveKey salt with
  | Err e => (Err e, g2)
  | Ok key =>
      match aesGcmEncrypt api key iv (utf8Encode api plaintext) with
      | Err e => (Err e, g2)
      | Ok (encrypted, authTag) =>
          let combined := (salt ++ iv ++ authTag ++ encrypted)%list in
          (Ok (base64Encode api combined), g2)
      end
  end.

(** The [try] block of [decryptCredentials]. *)
Definition decryptAead (encryptedData : string) : Res (JSValue api) :=
  let combined := base64Decode api encryptedData in
  let salt := subarray 0 SALT_LENGTH combined in
  let iv := subarray SALT_LENGTH (SALT_LENGTH + IV_LENGTH) combined in
  let authTag :=
    subarray (SALT_LENGTH + IV_LENGTH)
             (SALT_LENGTH + IV_LENGTH + AUTH_TAG_LENGTH) combined in
  let encrypted := drop (SALT_LENGTH + IV_LENGTH + AUTH_TAG_LENGTH) combined in
  match deriveKey salt with
  | Err e => Err e
  | Ok key =>
      match aesGcmDecrypt api key iv authTag encrypted with
      | Err e => Err e
      | Ok decrypted => JSON_parse api (utf8Decode api decrypted)
      end
  end.

(** The [catch] block of [decryptCredentials]: the data is read as the
    base64 encoding of a JSON text.  (The warning printed on that path is
    not part of the model.) *)
Definition decryptLegacy (encryptedData : string) : Res (JSValue api) :=
  match JSON_parse api (utf8Decode api (base64Decode api encryptedData)) with
  | Ok legacyDecoded => Ok legacyDecoded
  | Err _ =>
      Err (JsError "Failed to decrypt credentials: Invalid or corrupted data")
  end.

Definition decryptCredentials (encryptedData : string) : Res (JSValue api) :=
  match decryptAead encryptedData with
  | Ok data => Ok data
  | Err _ => decryptLegacy encryptedData
  end.

(** What a blob returned by [encryptCredentials] is made of. *)
Definition blobOf (data : Credentials) (masterKey : string)
    (salt iv authTag encrypted : bytes) : Prop :=
  length salt = 32%nat /\ length iv = 16%nat /\ length authTag = 16%nat /\
  aesGcmEncrypt api
    (pbkdf2Sync api masterKey salt ITERATIONS KEY_LENGTH "sha256") iv
    (utf8Encode api (JSON_stringify api (ofRecord api data)))
  = Ok (encrypted, authTag).

(** [isNewEncryptionFormat] *)
Definition isNewEncryptionFormat (encryptedData : string) : bool :=
  (SALT_LENGTH + IV_LENGTH + AUTH_TAG_LENGTH <=?
     length (base64Decode api encryptedData))%nat.




End Vault.

End Crypto.

(** ** An executable model of the builtins

    A small instance of [Crypto.NodeApi], used to run the vault and the
    server actions on concrete data.  Base64 is the real encoding; JSON is
    the real syntax of objects whose members are strings; AES-256-GCM and
    PBKDF2 are replaced by a xor stream cipher with a 16-byte tag and a
    xor key derivation; the random generator reads a tape. *)

Module ModelNode.
Import Crypto.

(** *** Bytes *)

#[global] Instance byte_eq_decision : EqDecision byte := Byte.byte_eq_dec.

Definition zipBits (f : bool -> bool -> bool) (a b : byte) : byte :=
  let '(a0, (a1, (a2, (a3, (a4, (a5, (a6, a7))))))) := Byte.to_bits a in
  let '(b0, (b1, (b2, (b3, (b4, (b5, (b6, b7))))))) := Byte.to_bits b in
  Byte.of_bits (f a0 b0, (f a1 b1, (f a2 b2, (f a3 b3, (f a4 b4, (f a5 b5,
               (f a6 b6, f a7 b7))))))).

Definition xorByte : byte -> byte -> byte := zipBits xorb.

Definition bytesOfString (s : string) : bytes :=
  map byte_of_ascii (list_ascii_of_string s).

Definition stringOfBytes (b : bytes) : string :=
  string_of_list_ascii (map ascii_of_byte b).

(** *** Base64 (RFC 4648) *)

(** Six bits, most significant first. *)
Definition sextet : Type := bool * bool * bool * bool * bool * bool.

Definition sextetIndex (s : sextet) : N :=
  let '(x5, x4, x3, x2, x1, x0) := s in
  (32 * N.b2n x5 + 16 * N.b2n x4 + 8 * N.b2n x3 + 4 * N.b2n x2
   + 2 * N.b2n x1 + N.b2n x0)%N.

Definition indexSextet (n : N) : sextet :=
  (N.testbit n 5, N.testbit n 4, N.testbit n 3, N.testbit n 2,
   N.testbit n 1, N.testbit n 0).

Definition base64Char (s : sextet) : ascii :=
  let n := sextetIndex s in
  if (n <? 26)%N then ascii_of_N (n + 65)
  else if (n <? 52)%N then ascii_of_N (n + 71)
  else if (n <? 62)%N then ascii_of_N (n - 4)
  else if (n =? 62)%N then "+"%char
  else "/"%char.

(** The value of a character of the alphabet; the decoder of Node.js
    also takes the two characters of the URL-safe alphabet. *)
Definition base64Value (c : ascii) : option sextet :=
  let n := Js.code c in
  if Js.isUpper c then Some (indexSextet (n - 65))
  else if Js.isLower c then Some (indexSextet (n - 71))
  else if Js.isDigit c then Some (indexSextet (n + 4))
  else if (n =? 43)%N || (n =? 45)%N then Some (indexSextet 62)
  else if (n =? 47)%N || (n =? 95)%N then Some (indexSextet 63)
  else None.

Definition padChar : ascii := "="%char.

Fixpoint encodeGroups (b : bytes) : string :=
  match b with
  | [] => EmptyString
  | [x] =>
      let '(x0, (x1, (x2, (x3, (x4, (x5, (x6, x7))))))) := Byte.to_bits x in
      String (base64Char (x7, x6, x5, x4, x3, x2))
     (String (base64Char (x1, x0, false, false, false, false))
     (String padChar (String padChar EmptyString)))
  | [x; y] =>
      let '(x0, (x1, (x2, (x3, (x4, (x5, (x6, x7))))))) := Byte.to_bits x in
      let '(y0, (y1, (y2, (y3, (y4, (y5, (y6, y7))))))) := Byte.to_bits y in
      String (base64Char (x7, x6, x5, x4, x3, x2))
     (String (base64Char (x1, x0, y7, y6, y5, y4))
     (String (base64Char (y3, y2, y1, y0, false, false))
     (String padChar EmptyString)))
  | x :: y :: z :: rest =>
      let '(x0, (x1, (x2, (x3, (x4, (x5, (x6, x7))))))) := Byte.to_bits x in
      let '(y0, (y1, (y2, (y3, (y4, (y5, (y6, y7))))))) := Byte.to_bits y in
      let '(z0, (z1, (z2, (z3, (z4, (z5, (z6, z7))))))) := Byte.to_bits z in
      String (base64Char (x7, x6, x5, x4, x3, x2))
     (String (base64Char (x1, x0, y7, y6, y5, y4))
     (String (base64Char (y3, y2, y1, y0, z7, z6))
     (String (base64Char (z5, z4, z3, z2, z1, z0))
             (encodeGroups rest))))
  end.

(** The sextets of a text up to its first padding character; characters
    outside the alphabet are skipped. *)
Fixpoint sextetsOf (s : string) : list sextet :=
  match s with
  | EmptyString => []
  | String c rest =>
      if Ascii.eqb c padChar then []
      else match base64Value c with
           | Some v => v :: sextetsOf rest
           | None => sextetsOf rest
           end
  end.

Definition byteOfBits (b7 b6 b5 b4 b3 b2 b1 b0 : bool) : byte :=
  Byte.of_bits (b0, (b1, (b2, (b3, (b4, (b5, (b6, b7))))))).

Fixpoint decodeGroups (l : list sextet) : bytes :=
  match l with
  | (a5, a4, a3, a2, a1, a0) :: (b5, b4, b3, b2, b1, b0)
      :: (c5, c4, c3, c2, c1, c0) :: (d5, d4, d3, d2, d1, d0) :: rest =>
      byteOfBits a5 a4 a3 a2 a1 a0 b5 b4
      :: byteOfBits b3 b2 b1 b0 c5 c4 c3 c2
      :: byteOfBits c1 c0 d5 d4 d3 d2 d1 d0
      :: decodeGroups rest
  | [(a5, a4, a3, a2, a1, a0); (b5, b4, b3, b2, b1, b0);
     (c5, c4, c3, c2, c1, c0)] =>
      [byteOfBits a5 a4 a3 a2 a1 a0 b5 b4;
       byteOfBits b3 b2 b1 b0 c5 c4 c3 c2]
  | [(a5, a4, a3, a2, a1, a0); (b5, b4, b3, b2, b1, b0)] =>
      [byteOfBits a5 a4 a3 a2 a1 a0 b5 b4]
  | _ => []
  end.

Definition base64Encode (b : bytes) : string := encodeGroups b.
Definition base64Decode (s : string) : bytes := decodeGroups (sextetsOf s).

(** *** JSON texts of string records *)

Definition quote : ascii := ascii_of_N 34.
Definition backslash : ascii := ascii_of_N 92.

Definition hexChar (n : N) : ascii :=
  if (n <? 10)%N then ascii_of_N (n + 48) else ascii_of_N (n + 87).

(** One character of a string, as [JSON.stringify] writes it. *)
Definition escapeChar (c : ascii) : string :=
  let n := Js.code c in
  let esc (x : ascii) := String backslash (String x EmptyString) in
  if (n =? 34)%N then esc quote
  else if (n =? 92)%N then esc backslash
  else if (n =? 8)%N then esc "b"%char
  else if (n =? 12)%N then esc "f"%char
  else if (n =? 10)%N then esc "n"%char
  else if (n =? 13)%N then esc "r"%char
  else if (n =? 9)%N then esc "t"%char
  else if (n <? 32)%N then
    String backslash (String "u" (String "0" (String "0"
      (String (hexChar (n / 16)) (String (hexChar (n mod 16)) EmptyString)))))
  else String c EmptyString.

Fixpoint escape (s : string) : string :=
  match s with
  | EmptyString => EmptyString
  | String c rest => escapeChar c ++ escape rest
  end.

Definition quoted (s : string) : string :=
  String quote (escape s ++ String quote EmptyString).

Definition member (kv : string * string) : string :=
  quoted (fst kv) ++ ":" ++ quoted (snd kv).

Fixpoint members (l : list (string * string)) : string :=
  match l with
  | [] => EmptyString
  | [kv] => member kv
  | kv :: rest => member kv ++ "," ++ members rest
  end.

Definition JSON_stringify (m : Credentials) : string :=
  "{" ++ members (map_to_list m) ++ "}".

(** The reader is an automaton over the characters of the text. *)
Inductive escState : Type :=
| Plain
| AfterBackslash
| Unicode (digits : nat) (value : N).

Inductive charStep : Type :=
| Closed
| Next (e : escState) (emit : option ascii)
| Bad.

(** One character inside a string literal.  An escape [\uXXXX] above
    255 denotes a character the strings of the model do not have and is
    refused. *)
Definition stringStep (e : escState) (c : ascii) : charStep :=
  let n := Js.code c in
  match e with
  | Plain =>
      if (n =? 34)%N then Closed
      else if (n =? 92)%N then Next AfterBackslash None
      else if (n <? 32)%N then Bad
      else Next Plain (Some c)
  | AfterBackslash =>
      if (n =? 34)%N || (n =? 92)%N || (n =? 47)%N then Next Plain (Some c)
      else if Ascii.eqb c "b" then Next Plain (Some (ascii_of_N 8))
      else if Ascii.eqb c "f" then Next Plain (Some (ascii_of_N 12))
      else if Ascii.eqb c "n" then Next Plain (Some (ascii_of_N 10))
      else if Ascii.eqb c "r" then Next Plain (Some (ascii_of_N 13))
      else if Ascii.eqb c "t" then Next Plain (Some (ascii_of_N 9))
      else if Ascii.eqb c "u" then Next (Unicode 0 0) None
      else Bad
  | Unicode digits value =>
      if Js.isHexDigit c then
        let value' := (value * 16 + Z.to_N (Js.digitValue c))%N in
        if Nat.eqb digits 3 then
          if (value' <? 256)%N then Next Plain (Some (ascii_of_N value'))
          else Bad
        else Next (Unicode (S digits) value') None
      else Bad
  end.

(** Members read so far are kept latest first; the characters of the
    literal being read likewise. *)
Inductive state : Type :=
| Start
| ObjectOpen
| AfterComma (done : list (string * string))
| InKey (done : list (string * string)) (acc : list ascii) (e : escState)
| AfterKey (done : list (string * string)) (key : string)
| AfterColon (done : list (string * string)) (key : string)
| InValue (done : list (string * string)) (key : string)
          (acc : list ascii) (e : escState)
| AfterValue (done : list (string * string))
| Finished (done : list (string * string)).

Definition isJsonSpace (c : ascii) : bool :=
  existsb (N.eqb (Js.code c)) [32; 9; 10; 13]%N.

Definition literal (acc : list ascii) : string :=
  string_of_list_ascii (rev acc).

Definition step (st : state) (c : ascii) : option state :=
  match st with
  | Start =>
      if isJsonSpace c then Some Start
      else if Ascii.eqb c "{" then Some ObjectOpen
      else None
  | ObjectOpen =>
      if isJsonSpace c then Some ObjectOpen
      else if Ascii.eqb c quote then Some (InKey [] [] Plain)
      else if Ascii.eqb c "}" then Some (Finished [])
      else None
  | AfterComma done =>
      if isJsonSpace c then Some (AfterComma done)
      else if Ascii.eqb c quote then Some (InKey done [] Plain)
      else None
  | InKey done acc e =>
      match stringStep e c with
      | Closed => Some (AfterKey done (literal acc))
      | Next e' None => Some (InKey done acc e')
      | Next e' (Some x) => Some (InKey done (x :: acc) e')
      | Bad => None
      end
  | AfterKey done key =>
      if isJsonSpace c then Some (AfterKey done key)
      else if Ascii.eqb c ":" then Some (AfterColon done key)
      else None
  | AfterColon done key =>
      if isJsonSpace c then Some (AfterColon done key)
      else if Ascii.eqb c quote then Some (InValue done key [] Plain)
      else None
  | InValue done key acc e =>
      match stringStep e c with
      | Closed => Some (AfterValue ((key, literal acc) :: done))
      | Next e' None => Some (InValue done key acc e')
      | Next e' (Some x) => Some (InValue done key (x :: acc) e')
      | Bad => None
      end
  | AfterValue done =>
      if isJsonSpace c then Some (AfterValue done)
      else if Ascii.eqb c "," then Some (AfterComma done)
      else if Ascii.eqb c "}" then Some (Finished done)
      else None
  | Finished done =>
      if isJsonSpace c then Some (Finished done) else None
  end.

Fixpoint run (st : state) (s : string) : option state :=
  match s with
  | EmptyString => Some st
  | String c rest =>
      match step st c with
      | Some st' => run st' rest
      | None => None
      end
  end.

(** A member read later replaces an earlier one of the same name. *)
Definition JSON_parse (s : string) : Res Credentials :=
  match run Start s with
  | Some (Finished done) => Ok (list_to_map done)
  | _ => Err (JsError "Unexpected token in JSON")
  end.

(** *** Cipher, key derivation and random tape *)

Definition nthByte (i : nat) (b : bytes) : byte := nth i b x00.

Definition keystream (key iv : bytes) (i : nat) : byte :=
  xorByte (nthByte (i mod 32) key) (nthByte (i mod length iv) iv).

Definition xorStream (key iv : bytes) (data : bytes) : bytes :=
  imap (fun i b => xorByte b (keystream key iv i)) data.

Definition tagOf (key iv ciphertext : bytes) : bytes :=
  map (fun j => xorByte (keystream key iv j)
                        (xorByte (nthByte (j + 16) key)
                                 (foldr xorByte x00 ciphertext)))
      (seq 0 16).

Definition validParameters (key iv : bytes) : bool :=
  Nat.eqb (length key) 32 && negb (Nat.eqb (length iv) 0).

Definition aesGcmEncrypt (key iv plaintext : bytes) : Res (bytes * bytes) :=
  if validParameters key iv then
    let ciphertext := xorStream key iv plaintext in
    Ok (ciphertext, tagOf key iv ciphertext)
  else Err (JsError "Invalid key length").

Definition aesGcmDecrypt (key iv authTag ciphertext : bytes) : Res bytes :=
  if validParameters key iv then
    if bool_decide (authTag = tagOf key iv ciphertext)
    then Ok (xorStream key iv ciphertext)
    else Err (JsError "Unsupported state or unable to authenticate data")
  else Err (JsError "Invalid key length").

Definition pbkdf2Sync (password : string) (salt : bytes) (iterations : Z)
    (keylen : nat) (digest : string) : bytes :=
  let pw := bytesOfString password in
  map (fun i => xorByte (nthByte (i mod length pw) pw)
                        (nthByte (i mod length salt) salt))
      (seq 0 keylen).

(** The tape is read from its head; past its end every byte is zero. *)
Definition randomBytes (n : nat) (tape : bytes) : bytes * bytes :=
  (take n (tape ++ replicate n x00), drop n tape).

Definition api (masterKey : option string) : NodeApi :=
  {| Rng := bytes;
     JSValue := Credentials;
     ofRecord := fun m => m;
     env_CREDENTIALS_ENCRYPTION_KEY := masterKey;
     Crypto.randomBytes := randomBytes;
     Crypto.pbkdf2Sync := pbkdf2Sync;
     Crypto.aesGcmEncrypt := aesGcmEncrypt;
     Crypto.aesGcmDecrypt := aesGcmDecrypt;
     Crypto.base64Encode := base64Encode;
     Crypto.base64Decode := base64Decode;
     utf8Encode := bytesOfString;
     utf8Decode := stringOfBytes;
     Crypto.JSON_stringify := JSON_stringify;
     Crypto.JSON_parse := JSON_parse |}.

End ModelNode.

(** ** src/server: provider, domain and record actions

    The server actions of the three files gathered in [src/server/auth.ts].
    The local store is the SQLite database behind drizzle: a query is a
    function of the tables, an insertion checks the primary and foreign
    keys.  [revalidatePath], which only invalidates rendered pages, is
    left out. *)

Module Engine.
Import Js Validation.

(** *** Rows of the local store (the schema of [src/lib/db/schema.ts]) *)

Record ProviderRow : Type := mkProviderRow {
  p_id : string;
  p_userId : string;
  p_name : string;
  p_label : string;
  p_credentials : string;
  p_status : string;
  p_lastSyncAt : option Z;
  p_createdAt : option Z;
  p_updatedAt : option Z
}.

Record DomainRow : Type := mkDomainRow {
  d_id : string;
  d_providerId : string;
  d_name : string;
  d_remoteId : string;
  d_status : string;
  d_syncedAt : option Z;
  d_createdAt : option Z;
  d_updatedAt : option Z
}.

Record RecordRow : Type := mkRecordRow {
  r_id : string;
  r_domainId : string;
  r_remoteId : string;
  r_type : string;
  r_name : string;
  r_content : string;
  r_ttl : number;
  r_priority : option number;
  r_proxied : option bool;
  r_extra : option string;
  r_syncedAt : option Z;
  r_createdAt : option Z;
  r_updatedAt : option Z
}.

(** Tables keep their rows in insertion order. *)
Record DB : Type := mkDB {
  providers : list ProviderRow;
  domains : list DomainRow;
  records : list RecordRow
}.

(** *** The provider contract

    The adapter types, the adapters and [createProvider] live in
    [src/lib/providers], which is not among the sources.  The actions
    below only call the methods of an adapter; each method is a call to
    the remote service, which reads and may change the remote state, and
    either returns or throws. *)

(** Modelled from the spec: the element type of [listDomains], missing
    with [src/lib/providers/types]; section 4.3 gives [{id, name, status}]. *)
Record RemoteDomain : Type := mkRemoteDomain {
  rd_id : string;
  rd_name : string;
  rd_status : string
}.

(** Modelled from the spec: the type [CreateRecordInput], missing with
    [src/lib/providers/types]; the fields are those [createRecord] reads
    and section 4.1 names, with the optional proxy flag of a record. *)
Record CreateRecordInput : Type := mkCreateRecordInput {
  ci_type : string;
  ci_name : string;
  ci_content : string;
  ci_ttl : option number;
  ci_priority : option number;
  ci_proxied : option bool
}.

(** Modelled from the spec: the type [UpdateRecordInput], missing with
    [src/lib/providers/types]; [updateRecord] tests [type], [name] and
    [content] for presence, so every field is optional. *)
Record UpdateRecordInput : Type := mkUpdateRecordInput {
  ui_type : option string;
  ui_name : option string;
  ui_content : option string;
  ui_ttl : option number;
  ui_priority : option number;
  ui_proxied : option bool
}.

Section Contract.
Variable api : Crypto.NodeApi.
Variable Remote : Type.

(** Modelled from the spec: the remote record of section 4.3,
    [{id, type, name, content, ttl, priority?, proxied?, extra?}]. *)
Record RemoteRecord : Type := mkRemoteRecord {
  rr_id : string;
  rr_type : string;
  rr_name : string;
  rr_content : string;
  rr_ttl : number;
  rr_priority : option number;
  rr_proxied : option bool;
  rr_extra : option (Crypto.JSValue api)
}.

(** Modelled from the spec: the adapter interface of section 4.3; a
    method takes the state of the remote service and returns its answer
    with the state that results. *)
Record Adapter : Type := mkAdapter {
  validateCredentials : Remote -> Res bool * Remote;
  listDomains : Remote -> Res (list RemoteDomain) * Remote;
  getDomain : string -> Remote -> Res RemoteDomain * Remote;
  listRecords : string -> Remote -> Res (list RemoteRecord) * Remote;
  adapterCreateRecord :
    string -> CreateRecordInput -> Remote -> Res RemoteRecord * Remote;
  adapterUpdateRecord :
    string -> string -> UpdateRecordInput -> Remote -> Res RemoteRecord * Remote;
  adapterDeleteRecord : string -> string -> Remote -> Res unit * Remote
}.

(** A call made to the remote service, with what it answered. *)
Inductive AdapterCall : Type :=
| CallListDomains (result : Res (list RemoteDomain))
| CallListRecords (remoteDomainId : string) (result : Res (list RemoteRecord))
| CallCreateRecord (remoteDomainId : string) (input : CreateRecordInput)
                   (result : Res RemoteRecord)
| CallUpdateRecord (remoteDomainId remoteRecordId : string)
                   (input : UpdateRecordInput) (result : Res RemoteRecord)
| CallDeleteRecord (remoteDomainId remoteRecordId : string) (result : Res unit).

End Contract.

Arguments rr_id {api}.
Arguments rr_type {api}.
Arguments rr_name {api}.
Arguments rr_content {api}.
Arguments rr_ttl {api}.
Arguments rr_priority {api}.
Arguments rr_proxied {api}.
Arguments rr_extra {api}.
Arguments listDomains {api Remote}.
Arguments listRecords {api Remote}.
Arguments adapterCreateRecord {api Remote}.
Arguments adapterUpdateRecord {api Remote}.
Arguments adapterDeleteRecord {api Remote}.
Arguments CallListDomains {api}.
Arguments CallListRecords {api}.
Arguments CallCreateRecord {api}.
Arguments CallUpdateRecord {api}.
Arguments CallDeleteRecord {api}.

(** [{ success: true, ... }] or [{ success: false, error }]. *)
Inductive ActionResult (A : Type) : Type :=
| Success (payload : A)
| Failure (error : string).
Arguments Success {A} payload.
Arguments Failure {A} error.

(** What the actions run against: the builtins, the remote service with
    [createProvider] (a parameter: its code is missing with
    [src/lib/providers]), and the values that successive evaluations of
    [new Date()] and [nanoid()] yield. *)
Class System : Type := mkSystem {
  node : Crypto.NodeApi;
  Remote : Type;
  createProvider :
    string -> Crypto.JSValue node -> Res (Adapter node Remote);
  dateAt : nat -> Z;
  nanoidAt : nat -> string
}.

Section Actions.
Context {sys : System}.

(** The state the actions read and write: the local store, the remote
    service, the calls made to it so far, and how many dates and
    identifiers have been drawn. *)
Record World : Type := mkWorld {
  db : DB;
  remote : Remote;
  calls : list (AdapterCall node);
  dateCount : nat;
  idCount : nat
}.

(** *** State and exceptions *)

Definition M (A : Type) : Type := World -> Res A * World.

Definition ret {A} (a : A) : M A := fun w => (Ok a, w).

Definition throw {A} (e : exn) : M A := fun w => (Err e, w).

Definition bind {A B} (c : M A) (k : A -> M B) : M B :=
  fun w =>
    match c w with
    | (Ok a, w') => k a w'
    | (Err e, w') => (Err e, w')
    end.

(** [try { c } catch (error) { handler }]: what [c] did before throwing
    stays done. *)
Definition tryCatch {A} (c : M A) (handler : exn -> M A) : M A :=
  fun w =>
    match c w with
    | (Ok a, w') => (Ok a, w')
    | (Err e, w') => handler e w'
    end.

Definition liftRes {A} (r : Res A) : M A := fun w => (r, w).

Definition getDb : M DB := fun w => (Ok (db w), w).

Definition setDb (d : DB) : M unit :=
  fun w => (Ok tt, mkWorld d (remote w) (calls w) (dateCount w) (idCount w)).

(** [new Date()] *)
Definition newDate : M Z :=
  fun w => (Ok (dateAt (dateCount w)),
            mkWorld (db w) (remote w) (calls w) (S (dateCount w)) (idCount w)).

(** [nanoid()] *)
Definition nanoid : M string :=
  fun w => (Ok (nanoidAt (idCount w)),
            mkWorld (db w) (remote w) (calls w) (dateCount w) (S (idCount w))).

(** A method of the adapter is run on the remote service and the call is
    recorded with its answer. *)
Definition callRemote {A} (method : Remote -> Res A * Remote)
    (entry : Res A -> AdapterCall node) : M A :=
  fun w =>
    let '(r, remote') := method (remote w) in
    (r, mkWorld (db w) remote' (calls w ++ [entry r])
                (dateCount w) (idCount w)).

Notation "x <- c1 ;; c2" := (bind c1 (fun x => c2))
  (at level 100, c1 at next level, right associativity).
Notation "c1 ;;; c2" := (bind c1 (fun _ => c2))
  (at level 100, right associativity).

Fixpoint forEach {A} (l : list A) (body : A -> M unit) : M unit :=
  match l with
  | [] => ret tt
  | x :: rest => body x ;;; forEach rest body
  end.

(** *** Queries *)

(** [select().from(providers).where(and(eq(id, ..), eq(userId, ..)))] *)
Definition selectProviders (providerId userId : string) (d : DB)
    : list ProviderRow :=
  List.filter (fun p => String.eqb (p_id p) providerId
                        && String.eqb (p_userId p) userId) (providers d).

(** [select().from(domains).where(and(eq(providerId, ..), eq(remoteId, ..)))] *)
Definition selectDomains (providerId remoteId : string) (d : DB)
    : list DomainRow :=
  List.filter (fun r => String.eqb (d_providerId r) providerId
                        && String.eqb (d_remoteId r) remoteId) (domains d).

(** [from(domains).innerJoin(providers, eq(domains.providerId, providers.id))
     .where(and(eq(domains.id, ..), eq(providers.userId, ..)))] *)
Definition selectDomainWithProvider (domainId userId : string) (d : DB)
    : list (DomainRow * ProviderRow) :=
  flat_map
    (fun r => map (pair r)
                (List.filter (fun p => String.eqb (d_providerId r) (p_id p)
                                       && String.eqb (p_userId p) userId)
                             (providers d)))
    (List.filter (fun r => String.eqb (d_id r) domainId) (domains d)).

(** [select().from(records).where(and(eq(id, ..), eq(domainId, ..)))] *)
Definition selectRecords (recordId domainId : string) (d : DB)
    : list RecordRow :=
  List.filter (fun r => String.eqb (r_id r) recordId
                        && String.eqb (r_domainId r) domainId) (records d).

(** An insertion is refused when the primary key is taken or the row
    refers to a parent that does not exist. *)
Definition insertDomain (row : DomainRow) (d : DB) : Res DB :=
  if existsb (fun r => String.eqb (d_id r) (d_id row)) (domains d) then
    Err (JsError "UNIQUE constraint failed: domains.id")
  else if negb (existsb (fun p => String.eqb (p_id p) (d_providerId row))
                        (providers d)) then
    Err (JsError "FOREIGN KEY constraint failed")
  else Ok (mkDB (providers d) (domains d ++ [row]) (records d)).

Definition insertRecord (row : RecordRow) (d : DB) : Res DB :=
  if existsb (fun r => String.eqb (r_id r) (r_id row)) (records d) then
    Err (JsError "UNIQUE constraint failed: records.id")
  else if negb (existsb (fun r => String.eqb (d_id r) (r_domainId row))
                        (domains d)) then
    Err (JsError "FOREIGN KEY constraint failed")
  else Ok (mkDB (providers d) (domains d) (records d ++ [row])).

Definition updateProvidersWhereId (providerId : string)
    (set : ProviderRow -> ProviderRow) (d : DB) : DB :=
  mkDB (map (fun p => if String.eqb (p_id p) providerId then set p else p)
            (providers d))
       (domains d) (records d).

Definition updateDomainsWhereId (domainId : string)
    (set : DomainRow -> DomainRow) (d : DB) : DB :=
  mkDB (providers d)
       (map (fun r => if String.eqb (d_id r) domainId then set r else r)
            (domains d))
       (records d).

Definition updateRecordsWhereId (recordId : string)
    (set : RecordRow -> RecordRow) (d : DB) : DB :=
  mkDB (providers d) (domains d)
       (map (fun r => if String.eqb (r_id r) recordId then set r else r)
            (records d)).

Definition deleteRecordsWhereDomainId (domainId : string) (d : DB) : DB :=
  mkDB (providers d) (domains d)
       (List.filter (fun r => negb (String.eqb (r_domainId r) domainId))
                    (records d)).

Definition deleteRecordsWhereId (recordId : string) (d : DB) : DB :=
  mkDB (providers d) (domains d)
       (List.filter (fun r => negb (String.eqb (r_id r) recordId))
                    (records d)).

Definition modifyDb (f : DB -> DB) : M unit :=
  d <- getDb ;; setDb (f d).

Definition insertInto (insert : DB -> Res DB) : M unit :=
  d <- getDb ;; d' <- liftRes (insert d) ;; setDb d'.

(** *** Results of the actions *)

(** [const session = await auth(); if (!session?.user?.id) throw ...];
    [session] is the identifier of the signed-in user, if any. *)
Definition requireUser (session : option string) : M string :=
  match session with
  | Some userId => if isEmpty userId then throw (JsError "Unauthorized")
                   else ret userId
  | None => throw (JsError "Unauthorized")
  end.

(** *** syncProvider *)

Definition setDomainSynced (remoteDomain : RemoteDomain) (syncedAt updatedAt : Z)
    (r : DomainRow) : DomainRow :=
  mkDomainRow (d_id r) (d_providerId r) (rd_name remoteDomain) (d_remoteId r)
              (rd_status remoteDomain) (Some syncedAt) (d_createdAt r)
              (Some updatedAt).

(** The body of the loop over the remote domains. *)
Definition syncOneDomain (providerId : string) (remoteDomain : RemoteDomain)
    : M unit :=
  d <- getDb ;;
  match selectDomains providerId (rd_id remoteDomain) d with
  | existingDomain :: _ =>
      syncedAt <- newDate ;;
      updatedAt <- newDate ;;
      modifyDb (updateDomainsWhereId (d_id existingDomain)
                  (setDomainSynced remoteDomain syncedAt updatedAt))
  | [] =>
      domainId <- nanoid ;;
      syncedAt <- newDate ;;
      createdAt <- newDate ;;
      updatedAt <- newDate ;;
      insertInto (insertDomain
        (mkDomainRow domainId providerId (rd_name remoteDomain)
                     (rd_id remoteDomain) (rd_status remoteDomain)
                     (Some syncedAt) (Some createdAt) (Some updatedAt)))
  end.

Definition setProviderActive (lastSyncAt updatedAt : Z) (p : ProviderRow)
    : ProviderRow :=
  mkProviderRow (p_id p) (p_userId p) (p_name p) (p_label p) (p_credentials p)
                "active" (Some lastSyncAt) (p_createdAt p) (Some updatedAt).

Definition setProviderError (updatedAt : Z) (p : ProviderRow) : ProviderRow :=
  mkProviderRow (p_id p) (p_userId p) (p_name p) (p_label p) (p_credentials p)
                "error" (p_lastSyncAt p) (p_createdAt p) (Some updatedAt).

Definition syncProvider (session : option string) (providerId : string)
    : M (ActionResult nat) :=
  userId <- requireUser session ;;
  d <- getDb ;;
  match selectProviders providerId userId d with
  | [] => ret (Failure "Provider not found")
  | providerData :: _ =>
      tryCatch
        (credentials <-
           liftRes (Crypto.decryptCredentials node (p_credentials providerData)) ;;
         provider <- liftRes (createProvider (p_name providerData) credentials) ;;
         remoteDomains <- callRemote (listDomains provider) CallListDomains ;;
         forEach remoteDomains (syncOneDomain providerId) ;;;
         lastSyncAt <- newDate ;;
         updatedAt <- newDate ;;
         modifyDb (updateProvidersWhereId providerId
                     (setProviderActive lastSyncAt updatedAt)) ;;;
         ret (Success (length remoteDomains)))
        (fun error =>
           updatedAt <- newDate ;;
           modifyDb (updateProvidersWhereId providerId
                       (setProviderError updatedAt)) ;;;
           ret (Failure (messageOr "Sync failed" error)))
  end.

(** *** syncDomainRecords *)

(** [x ?? false] *)
Definition orFalse (x : option bool) : bool :=
  match x with
  | Some b => b
  | None => false
  end.

(** The row inserted for a remote record during a sync. *)
Definition syncedRecordRow (id domainId : string) (record : RemoteRecord node)
    (syncedAt createdAt updatedAt : Z) : RecordRow :=
  mkRecordRow id domainId (rr_id record) (rr_type record) (rr_name record)
              (rr_content record) (rr_ttl record) (rr_priority record)
              (Some (orFalse (rr_proxied record)))
              (match rr_extra record with
               | Some extra => Some (Crypto.JSON_stringify node extra)
               | None => None
               end)
              (Some syncedAt) (Some createdAt) (Some updatedAt).

Definition insertSyncedRecord (domainId : string) (record : RemoteRecord node)
    : M unit :=
  id <- nanoid ;;
  syncedAt <- newDate ;;
  createdAt <- newDate ;;
  updatedAt <- newDate ;;
  insertInto (insertRecord
    (syncedRecordRow id domainId record syncedAt createdAt updatedAt)).

Definition setDomainTimes (syncedAt updatedAt : Z) (r : DomainRow) : DomainRow :=
  mkDomainRow (d_id r) (d_providerId r) (d_name r) (d_remoteId r) (d_status r)
              (Some syncedAt) (d_createdAt r) (Some updatedAt).

Definition syncDomainRecords (session : option string) (domainId : string)
    : M (ActionResult nat) :=
  userId <- requireUser session ;;
  d <- getDb ;;
  match selectDomainWithProvider domainId userId d with
  | [] => ret (Failure "Domain not found")
  | (domain, providerData) :: _ =>
      tryCatch
        (credentials <-
           liftRes (Crypto.decryptCredentials node (p_credentials providerData)) ;;
         provider <- liftRes (createProvider (p_name providerData) credentials) ;;
         remoteRecords <-
           callRemote (listRecords provider (d_remoteId domain))
                      (CallListRecords (d_remoteId domain)) ;;
         modifyDb (deleteRecordsWhereDomainId domainId) ;;;
         forEach remoteRecords (insertSyncedRecord domainId) ;;;
         syncedAt <- newDate ;;
         updatedAt <- newDate ;;
         modifyDb (updateDomainsWhereId domainId
                     (setDomainTimes syncedAt updatedAt)) ;;;
         ret (Success (length remoteRecords)))
        (fun error => ret (Failure (messageOr "Sync failed" error)))
  end.

(** *** createRecord, updateRecord, deleteRecord *)

Definition getProviderForDomain (domainId userId : string)
    : M (DomainRow * Adapter node Remote) :=
  d <- getDb ;;
  match selectDomainWithProvider domainId userId d with
  | [] => throw (JsError "Domain not found")
  | (domain, providerData) :: _ =>
      credentials <-
        liftRes (Crypto.decryptCredentials node (p_credentials providerData)) ;;
      provider <- liftRes (createProvider (p_name providerData) credentials) ;;
      ret (domain, provider)
  end.

(** The row written for the record a provider returned; [extra] is not
    set by these actions. *)
Definition createdRecordRow (id domainId : string) (record : RemoteRecord node)
    (syncedAt createdAt updatedAt : Z) : RecordRow :=
  mkRecordRow id domainId (rr_id record) (rr_type record) (rr_name record)
              (rr_content record) (rr_ttl record) (rr_priority record)
              (Some (orFalse (rr_proxied record))) None
              (Some syncedAt) (Some createdAt) (Some updatedAt).

Definition createRecord (session : option string) (domainId : string)
    (input : CreateRecordInput) : M (ActionResult (RemoteRecord node)) :=
  userId <- requireUser session ;;
  match validateDNSRecord
          (mkDNSRecordInput (ci_type input) (ci_name input) (ci_content input)
                            (ci_ttl input) (ci_priority input)) with
  | Invalid error => ret (Failure error)
  | Valid =>
      tryCatch
        (found <- getProviderForDomain domainId userId ;;
         let '(domain, provider) := found in
         remoteRecord <-
           callRemote (adapterCreateRecord provider (d_remoteId domain) input)
                      (CallCreateRecord (d_remoteId domain) input) ;;
         id <- nanoid ;;
         syncedAt <- newDate ;;
         createdAt <- newDate ;;
         updatedAt <- newDate ;;
         insertInto (insertRecord
           (createdRecordRow id domainId remoteRecord
                             syncedAt createdAt updatedAt)) ;;;
         ret (Success remoteRecord))
        (fun error => ret (Failure (messageOr "Failed to create record" error)))
  end.

(** [if (x)] for an optional string: defined and not empty. *)
Definition truthy (x : option string) : bool :=
  match x with
  | Some s => negb (isEmpty s)
  | None => false
  end.

Definition orEmpty (x : option string) : string :=
  match x with
  | Some s => s
  | None => EmptyString
  end.

(** The check at the head of [updateRecord]: made only when [type],
    [name] and [content] are all supplied. *)
Definition validateUpdate (input : UpdateRecordInput) : ValidationResult :=
  if truthy (ui_type input) && truthy (ui_name input)
     && truthy (ui_content input) then
    validateDNSRecord
      (mkDNSRecordInput (orEmpty (ui_type input)) (orEmpty (ui_name input))
                        (orEmpty (ui_content input))
                        (ui_ttl input) (ui_priority input))
  else Valid.

Definition setRecordFromRemote (record : RemoteRecord node)
    (syncedAt updatedAt : Z) (r : RecordRow) : RecordRow :=
  mkRecordRow (r_id r) (r_domainId r) (r_remoteId r) (rr_type record)
              (rr_name record) (rr_content record) (rr_ttl record)
              (rr_priority record) (Some (orFalse (rr_proxied record)))
              (r_extra r) (Some syncedAt) (r_createdAt r) (Some updatedAt).

Definition updateRecord (session : option string) (domainId recordId : string)
    (input : UpdateRecordInput) : M (ActionResult (RemoteRecord node)) :=
  userId <- requireUser session ;;
  match validateUpdate input with
  | Invalid error => ret (Failure error)
  | Valid =>
      tryCatch
        (found <- getProviderForDomain domainId userId ;;
         let '(domain, provider) := found in
         d <- getDb ;;
         match selectRecords recordId domainId d with
         | [] => ret (Failure "Record not found")
         | localRecord :: _ =>
             remoteRecord <-
               callRemote
                 (adapterUpdateRecord provider (d_remoteId domain)
                                      (r_remoteId localRecord) input)
                 (CallUpdateRecord (d_remoteId domain)
                                   (r_remoteId localRecord) input) ;;
             syncedAt <- newDate ;;
             updatedAt <- newDate ;;
             modifyDb (updateRecordsWhereId recordId
                         (setRecordFromRemote remoteRecord syncedAt updatedAt)) ;;;
             ret (Success remoteRecord)
         end)
        (fun error => ret (Failure (messageOr "Failed to update record" error)))
  end.

Definition deleteRecord (session : option string) (domainId recordId : string)
    : M (ActionResult unit) :=
  userId <- requireUser session ;;
  tryCatch
    (found <- getProviderForDomain domainId userId ;;
     let '(domain, provider) := found in
     d <- getDb ;;
     match selectRecords recordId domainId d with
     | [] => ret (Failure "Record not found")
     | localRecord :: _ =>
         callRemote
           (adapterDeleteRecord provider (d_remoteId domain)
                                (r_remoteId localRecord))
           (CallDeleteRecord (d_remoteId domain) (r_remoteId localRecord)) ;;;
         modifyDb (deleteRecordsWhereId recordId) ;;;
         ret (Success tt)
     end)
    (fun error => ret (Failure (messageOr "Failed to delete record" error))).

(** *** What the properties speak of *)

(** The fields of a local record that mirror the remote record. *)
Definition mirrored (r : RecordRow)
    : string * string * string * string * number * option number * option bool :=
  (r_remoteId r, r_type r, r_name r, r_content r, r_ttl r, r_priority r,
   r_proxied r).

(** The same fields as a sync writes them for a remote record: an absent
    [proxied] is stored as [false]. *)
Definition mirrorOf (record : RemoteRecord node)
    : string * string * string * string * number * option number * option bool :=
  (rr_id record, rr_type record, rr_name record, rr_content record,
   rr_ttl record, rr_priority record, Some (orFalse (rr_proxied record))).

(** The local records of one domain. *)
Definition recordsOf (domainId : string) (d : DB) : list RecordRow :=
  List.filter (fun r => String.eqb (r_domainId r) domainId) (records d).

(** A domain row without the two timestamps a sync refreshes. *)
Definition untimed (r : DomainRow) : DomainRow :=
  mkDomainRow (d_id r) (d_providerId r) (d_name r) (d_remoteId r) (d_status r)
              None (d_createdAt r) None.


(** The part of the world the loop of [syncProvider] leaves alone. *)
Definition sameButDomains (w w' : World) : Prop :=
  calls w' = calls w /\ remote w' = remote w /\
  providers (db w') = providers (db w) /\ records (db w') = records (db w).

(** What the insertion loop of [syncDomainRecords] does when it ends
    normally: rows are appended, one for each remote record. *)
Definition appendsRows (domainId : string) (rows : list RecordRow)
    (w w' : World) : Prop :=
  records (db w') = (records (db w) ++ rows)%list /\
  Forall (fun r => r_domainId r = domainId) rows /\
  calls w' = calls w.

(** The identifier of the row [syncProvider] finds for a remote domain:
    that of the first row with the provider and the remote identifier. *)
Definition target (providerId remoteId : string) (l : list DomainRow)
    : option string :=
  match List.filter (fun r => String.eqb (d_providerId r) providerId
                              && String.eqb (d_remoteId r) remoteId) l with
  | existing :: _ => Some (d_id existing)
  | [] => None
  end.








(** The validator's view of the input of [createRecord] and of
    [updateRecord]. *)
Definition fieldsOfCreate (input : CreateRecordInput) : DNSRecordInput :=
  mkDNSRecordInput (ci_type input) (ci_name input) (ci_content input)
                   (ci_ttl input) (ci_priority input).

Definition fieldsOfUpdate (input : UpdateRecordInput) : DNSRecordInput :=
  mkDNSRecordInput (orEmpty (ui_type input)) (orEmpty (ui_name input))
                   (orEmpty (ui_content input))
                   (ui_ttl input) (ui_priority input).

End Actions.

End Engine.

(** ** src/lib/rate-limit.ts *)

Module RateLimit.

Record RateLimitEntry : Type := mkEntry {
  count : Z;
  resetTime : Z
}.

Record RateLimitConfig : Type := mkConfig {
  maxRequests : Z;
  windowMs : Z
}.

Record RateLimitResult : Type := mkResult {
  success : bool;
  remaining : Z;
  resultResetTime : Z;
  retryAfterMs : option Z
}.

(** [const rateLimitStore = new Map<string, RateLimitEntry>()] *)
Abbreviation Store := (gmap string RateLimitEntry).

(** [`${action}:${identifier}`] *)
Definition storeKey (action identifier : string) : string :=
  action ++ ":" ++ identifier.

Definition RATE_LIMIT_CONFIGS_login : RateLimitConfig :=
  mkConfig 5 (15 * 60 * 1000).
Definition RATE_LIMIT_CONFIGS_register : RateLimitConfig :=
  mkConfig 3 (60 * 60 * 1000).
Definition RATE_LIMIT_CONFIGS_passwordReset : RateLimitConfig :=
  mkConfig 3 (60 * 60 * 1000).
Definition RATE_LIMIT_CONFIGS_api : RateLimitConfig :=
  mkConfig 100 (60 * 1000).

(** [checkRateLimit]; [now] is the value of [Date.now()].  The entry
    object held by the map is mutated in place by [entry.count++], which
    is an update of the binding of [key]. *)
Definition checkRateLimit (action identifier : string)
    (config : RateLimitConfig) (now : Z) (store : Store)
    : RateLimitResult * Store :=
  let key := storeKey action identifier in
  let fresh :=
    (mkResult true (maxRequests config - 1) (now + windowMs config) None,
     <[key := mkEntry 1 (now + windowMs config)]> store) in
  match store !! key with
  | None => fresh
  | Some entry =>
      if now >? resetTime entry then fresh
      else if count entry >=? maxRequests config then
        (mkResult false 0 (resetTime entry) (Some (resetTime entry - now)),
         store)
      else
        let count' := count entry + 1 in
        (mkResult true (maxRequests config - count') (resetTime entry) None,
         <[key := mkEntry count' (resetTime entry)]> store)
  end.

(** [resetRateLimit] *)
Definition resetRateLimit (action identifier : string) (store : Store)
    : Store :=
  delete (storeKey action identifier) store.

(** The body of the [setInterval] callback: expired entries are dropped. *)
Definition cleanup (now : Z) (store : Store) : Store :=
  filter (fun kv => negb (now >? resetTime (snd kv)) = true) store.

(** Successive calls for one key, at the given values of [Date.now()]. *)
Fixpoint checkMany (action identifier : string) (config : RateLimitConfig)
    (times : list Z) (store : Store) : list RateLimitResult * Store :=
  match times with
  | [] => ([], store)
  | now :: rest =>
      let '(r, store1) := checkRateLimit action identifier config now store in
      let '(rs, store2) := checkMany action identifier config rest store1 in
      (r :: rs, store2)
  end.

End RateLimit.

(** ** Sample data

    A concrete system over the executable model of the builtins: one
    provider type, served by an adapter over a remote service that holds
    lists of domains and records and can be unreachable. *)

Module Sample.
Import Js Crypto Engine.

Definition masterKey : string := "K".

Definition sampleApi : NodeApi := ModelNode.api (Some masterKey).

Definition quote : string := String ModelNode.quote EmptyString.

(** The bytes the random generator yields for the blob below: a salt and
    a nonce. *)
Definition salt : string :=
  "{" ++ quote ++ "k" ++ quote ++ ":" ++ quote ++ "xxxxxxxxxx0000000000000000".
Definition nonce : string := "0h hqh3333333333".
Definition tape : bytes := ModelNode.bytesOfString (salt ++ nonce).

Definition credentials : Credentials := {[ "a" := "b" ]}.

Definition blob : string :=
  Eval vm_compute in
    match fst (encryptCredentials sampleApi credentials tape) with
    | Ok b => b
    | Err _ => EmptyString
    end.


Record SampleRemote : Type := mkSampleRemote {
  reachable : bool;
  zones : list RemoteDomain;
  zoneRecords : list (RemoteRecord sampleApi)
}.

Definition unreachable {A} : Res A := Err (JsError "Provider API error").

Definition recordOfInput (id : string) (input : CreateRecordInput)
    : RemoteRecord sampleApi :=
  mkRemoteRecord sampleApi id (ci_type input) (ci_name input) (ci_content input)
    (match ci_ttl input with Some t => t | None => ofZ 300 end)
    (ci_priority input) (ci_proxied input) None.

Definition recordOfUpdate (id : string) (input : UpdateRecordInput)
    : RemoteRecord sampleApi :=
  mkRemoteRecord sampleApi id (orEmpty (ui_type input)) (orEmpty (ui_name input))
    (orEmpty (ui_content input))
    (match ui_ttl input with Some t => t | None => ofZ 300 end)
    (ui_priority input) (ui_proxied input) None.

Definition sampleAdapter : Adapter sampleApi SampleRemote :=
  mkAdapter sampleApi SampleRemote
    (fun r => (if reachable r then Ok true else unreachable, r))
    (fun r => (if reachable r then Ok (zones r) else unreachable, r))
    (fun id r =>
       (match List.filter (fun z => String.eqb (rd_id z) id) (zones r) with
        | z :: _ => if reachable r then Ok z else unreachable
        | [] => unreachable
        end, r))
    (fun _ r => (if reachable r then Ok (zoneRecords r) else unreachable, r))
    (fun _ input r =>
       if reachable r then
         let created := recordOfInput "rec-new" input in
         (Ok created,
          mkSampleRemote true (zones r) (zoneRecords r ++ [created]))
       else (unreachable, r))
    (fun _ id input r =>
       if reachable r then (Ok (recordOfUpdate id input), r)
       else (unreachable, r))
    (fun _ id r =>
       if reachable r then
         (Ok tt,
          mkSampleRemote true (zones r)
            (List.filter (fun x => negb (String.eqb (rr_id x) id))
                         (zoneRecords r)))
       else (unreachable, r)).

Fixpoint tally (n : nat) : string :=
  match n with
  | O => EmptyString
  | S k => String "i" (tally k)
  end.

#[global] Instance sampleSystem : System :=
  mkSystem sampleApi SampleRemote
    (fun name _ =>
       if String.eqb name "cloudflare" then Ok sampleAdapter
       else Err (JsError "Unknown provider"))
    (fun n => 1700000000000 + Z.of_nat n)
    (fun n => "id-" ++ tally n).

Definition sampleProvider : ProviderRow :=
  mkProviderRow "p1" "u1" "cloudflare" "Cloudflare" blob "active"
                None (Some 0) (Some 0).

Definition sampleDomain : DomainRow :=
  mkDomainRow "d1" "p1" "example.com" "zone1" "active" None (Some 0) (Some 0).

Definition sampleRecord : RecordRow :=
  mkRecordRow "r1" "d1" "rec1" "A" "www" "1.2.3.4" (ofZ 300) None (Some false)
              None None (Some 0) (Some 0).

Definition sampleDb : DB := mkDB [sampleProvider] [sampleDomain] [sampleRecord].

Definition remoteRecord1 : RemoteRecord sampleApi :=
  mkRemoteRecord sampleApi "rec1" "A" "www" "1.2.3.4" (ofZ 300) None None None.
Definition remoteRecord2 : RemoteRecord sampleApi :=
  mkRemoteRecord sampleApi "rec2" "MX" "@" "mail.example.com" (ofZ 3600)
                 (Some (ofZ 10)) None None.

Definition sampleZones : list RemoteDomain :=
  [mkRemoteDomain "zone1" "example.com" "active";
   mkRemoteDomain "zone2" "example.org" "pending"].

Definition remoteUp : SampleRemote :=
  mkSampleRemote true sampleZones [remoteRecord1; remoteRecord2].
Definition remoteDown : SampleRemote :=
  mkSampleRemote false sampleZones [remoteRecord1; remoteRecord2].

Definition worldUp : World := mkWorld sampleDb remoteUp [] 0 0.
Definition worldDown : World := mkWorld sampleDb remoteDown [] 0 0.

Definition session : option string := Some "u1".

(** An update whose [name] is the empty string. *)
Definition updateWithoutName : UpdateRecordInput :=
  mkUpdateRecordInput (Some "A") (Some EmptyString) (Some "1.2.3.4")
                      None None None.

Definition validCreate : CreateRecordInput :=
  mkCreateRecordInput "A" "www" "1.2.3.4" None None None.

Definition invalidCreate : CreateRecordInput :=
  mkCreateRecordInput "A" "www" "999.1.1.1" None None None.

Definition validUpdate : UpdateRecordInput :=
  mkUpdateRecordInput (Some "A") (Some "www") (Some "5.6.7.8") None None None.

Definition invalidUpdate : UpdateRecordInput :=
  mkUpdateRecordInput (Some "A") (Some "www") (Some "999.1.1.1")
                      None None None.

End Sample.

(** ** src/lib/rate-limit.ts, [getClientIdentifier], and src/server/auth.ts *)

Module Auth.
Import Js RateLimit.

(** What [headers.get(name)] and [formData.get(name)] return: the value,
    or [null]. *)
Abbreviation Headers := (string -> option string).
Abbreviation FormData := (string -> option string).

(** [s.split(sep)[0]] for a separator of one character: what precedes
    its first occurrence. *)
Fixpoint firstPiece (sep : ascii) (s : string) : string :=
  match s with
  | EmptyString => EmptyString
  | String c rest =>
      if Ascii.eqb c sep then EmptyString else String c (firstPiece sep rest)
  end.

(** [getClientIdentifier] *)
Definition getClientIdentifier (headers : Headers) : string :=
  let forwardedFor := headers "x-forwarded-for" in
  if Engine.truthy forwardedFor then
    trim (firstPiece "," (Engine.orEmpty forwardedFor))
  else
    let realIp := headers "x-real-ip" in
    if Engine.truthy realIp then Engine.orEmpty realIp
    else "unknown-client".

(** [s.includes(word)] *)
Fixpoint includes (word s : string) : bool :=
  String.prefix word s
  || match s with
     | EmptyString => false
     | String _ rest => includes word rest
     end.

(** [error instanceof Error && error.message.includes("NEXT_REDIRECT")] *)
Definition isRedirect (error : exn) : bool :=
  match error with
  | JsError message => includes "NEXT_REDIRECT" message
  | JsOther => false
  end.

(** [Math.ceil((rateLimit.retryAfterMs || 0) / 60000)] *)
Definition retryMinutes (rateLimit : RateLimitResult) : Z :=
  let ms := match retryAfterMs rateLimit with
            | Some ms => ms
            | None => 0
            end in
  - ((- ms) / 60000).

(** An integer as a template literal prints it: in decimal (for a value
    below 10^21). *)
Definition decimal (z : Z) : string := NilZero.string_of_int (Z.to_int z).

(** [/^[^\s@]+@[^\s@]+\.[^\s@]+$/] *)
Definition isAt (c : ascii) : bool := Ascii.eqb c "@".
Definition emailChar (c : ascii) : bool := negb (isWhiteSpace c || isAt c).
Definition emailRegex : regex :=
  Seq (Plus (Class emailChar))
 (Seq (Chr "@")
 (Seq (Plus (Class emailChar))
 (Seq (Chr ".") (Plus (Class emailChar))))).

(** [(?=r)] at the start of the input: some prefix matches [r]. *)
Definition lookahead (r : regex) (s : string) : bool :=
  matchK r (fun _ _ => true) None s.

(** The characters of [[A-Za-z\d@$!%*?&_\-#^()]]. *)
Definition passwordChar (c : ascii) : bool :=
  isAlnum c
  || existsb (Ascii.eqb c)
       ["@"; "$"; "!"; "%"; "*"; "?"; "&"; "_"; "-"; "#"; "^"; "("; ")"]%char.

(** [/^(?=.*[a-z])(?=.*[A-Z])(?=.*\d)[A-Za-z\d@$!%*?&_\-#^()]{8,}$/]:
    the three assertions are made at the start of the input, before the
    body is matched. *)
Definition passwordRegexTest (password : string) : bool :=
  lookahead (Seq (Star Validation.anyChar) (Class isLower)) password
  && lookahead (Seq (Star Validation.anyChar) (Class isUpper)) password
  && lookahead (Seq (Star Validation.anyChar) (Class isDigit)) password
  && test (Seq (Rep 8 8 (Class passwordChar)) (Star (Class passwordChar)))
          password.

(** [/^[a-zA-Z0-9_-]+$/] *)
Definition usernameChar (c : ascii) : bool :=
  isAlnum c || Ascii.eqb c "_" || Ascii.eqb c "-".
Definition usernameRegex : regex := Plus (Class usernameChar).

(** A row of the table [users]: the columns of the schema, and the two
    columns [handleRegister] reads and writes, [username] and
    [password]. *)
Record UserRow : Type := mkUserRow {
  u_id : string;
  u_name : option string;
  u_email : option string;
  u_emailVerified : option Z;
  u_image : option string;
  u_createdAt : option Z;
  u_updatedAt : option Z;
  u_username : option string;
  u_password : option string
}.

(** What the handlers call outside the sources: [signIn] of NextAuth and
    [bcrypt.hash], each of which returns or throws, [crypto.randomUUID()]
    and [new Date()].  Each takes the number of calls made so far: its
    answer may change from one call to the next. *)
Record Services : Type := mkServices {
  signIn : nat -> string -> string -> Res unit;
  bcryptHash : nat -> string -> Z -> Res string;
  randomUUID : nat -> string;
  newDate : nat -> Z
}.

(** The state the handlers read and write: the map of the rate limiter,
    the calls made to [signIn], the table of users, and the number of
    calls made to the services. *)
Record AuthWorld : Type := mkAuthWorld {
  rateLimitStore : Store;
  signInCalls : list (string * string);
  users : list UserRow;
  ticks : nat
}.

Definition setStore (store : Store) (w : AuthWorld) : AuthWorld :=
  mkAuthWorld store (signInCalls w) (users w) (ticks w).

Definition tick (w : AuthWorld) : AuthWorld :=
  mkAuthWorld (rateLimitStore w) (signInCalls w) (users w) (S (ticks w)).

(** [column = value] in a [where]; a [NULL] is equal to nothing. *)
Definition columnIs (column : UserRow -> option string) (value : string)
    (u : UserRow) : bool :=
  match column u with
  | Some x => String.eqb x value
  | None => false
  end.

(** [db.query.users.findFirst({ where: eq(column, value) })] *)
Definition findFirst (column : UserRow -> option string) (value : string)
    (w : AuthWorld) : option UserRow :=
  List.find (columnIs column value) (users w).

Section Handlers.
Variable services : Services.

(** [db.insert(users).values({ email, username, password, name })]: the
    identifier and the two dates are the defaults of the schema; the
    insertion is refused when the identifier or the email is taken. *)
Definition insertUser (email : string) (username : option string)
    (password name : string) (w : AuthWorld) : Res unit * AuthWorld :=
  let id := randomUUID services (ticks w) in
  let createdAt := newDate services (S (ticks w)) in
  let updatedAt := newDate services (S (S (ticks w))) in
  let w3 := tick (tick (tick w)) in
  if existsb (fun u => String.eqb (u_id u) id) (users w) then
    (Err (JsError "UNIQUE constraint failed: users.id"), w3)
  else if existsb (columnIs u_email email) (users w) then
    (Err (JsError "UNIQUE constraint failed: users.email"), w3)
  else
    (Ok tt,
     mkAuthWorld (rateLimitStore w3) (signInCalls w3)
       (users w3 ++ [mkUserRow id (Some name) (Some email) None None
                               (Some createdAt) (Some updatedAt)
                               username (Some password)])
       (ticks w3)).

(** The [try] block of [handleRegister]. *)
Definition register (email : string) (username : option string)
    (password : string) (w : AuthWorld)
    : Res (Engine.ActionResult unit) * AuthWorld :=
  match findFirst u_email email w with
  | Some _ => (Ok (Engine.Failure "Email already registered"), w)
  | None =>
      match (if Engine.truthy username
             then findFirst u_username (Engine.orEmpty username) w
             else None) with
      | Some _ => (Ok (Engine.Failure "Username already taken"), w)
      | None =>
          match bcryptHash services (ticks w) password 12 with
          | Err e => (Err e, tick w)
          | Ok hashedPassword =>
              match insertUser email
                      (if Engine.truthy username then username else None)
                      hashedPassword
                      (if Engine.truthy username then Engine.orEmpty username
                       else firstPiece "@" email)
                      (tick w) with
              | (Ok _, w') => (Ok (Engine.Success tt), w')
              | (Err e, w') => (Err e, w')
              end
          end
      end
  end.

(** [handleRegister]; [now] is the value of [Date.now()] read by the rate
    limiter.  The [catch] block draws an identifier for the log. *)
Definition handleRegister (formData : FormData) (headers : Headers) (now : Z)
    (w : AuthWorld) : Engine.ActionResult unit * AuthWorld :=
  let clientIp := getClientIdentifier headers in
  let '(rateLimit, store) :=
    checkRateLimit "register" clientIp RATE_LIMIT_CONFIGS_register now
                   (rateLimitStore w) in
  let w1 := setStore store w in
  if negb (success rateLimit) then
    (Engine.Failure
       ("Too many registration attempts. Please try again in "
        ++ decimal (retryMinutes rateLimit) ++ " minutes."), w1)
  else
    let email := formData "email" in
    let username := formData "username" in
    let password := formData "password" in
    let confirmPassword := formData "confirmPassword" in
    if negb (Engine.truthy email) || negb (Engine.truthy password) then
      (Engine.Failure "Email and password are required", w1)
    else if negb (test emailRegex (Engine.orEmpty email)) then
      (Engine.Failure "Invalid email format", w1)
    else if negb (passwordRegexTest (Engine.orEmpty password)) then
      (Engine.Failure
         "Password must be at least 8 characters with uppercase, lowercase, and number",
       w1)
    else if negb (bool_decide (password = confirmPassword)) then
      (Engine.Failure "Passwords do not match", w1)
    else if Engine.truthy username
            && (String.length (Engine.orEmpty username) <? 3)%nat then
      (Engine.Failure "Username must be at least 3 characters", w1)
    else if Engine.truthy username
            && negb (test usernameRegex (Engine.orEmpty username)) then
      (Engine.Failure
         "Username can only contain letters, numbers, underscores, and hyphens",
       w1)
    else
      match register (Engine.orEmpty email) username (Engine.orEmpty password)
                     w1 with
      | (Ok result, w2) => (result, w2)
      | (Err _, w2) =>
          (Engine.Failure "An error occurred during registration", tick w2)
      end.

(** [handleCredentialsSignIn] *)
Definition handleCredentialsSignIn (formData : FormData) (headers : Headers)
    (now : Z) (w : AuthWorld) : Res (Engine.ActionResult unit) * AuthWorld :=
  let identifier := formData "identifier" in
  let password := formData "password" in
  if negb (Engine.truthy identifier) || negb (Engine.truthy password) then
    (Ok (Engine.Failure "Email/username and password are required"), w)
  else
    let clientIp := getClientIdentifier headers in
    let rateLimitKey := clientIp ++ ":" ++ Engine.orEmpty identifier in
    let '(rateLimit, store) :=
      checkRateLimit "login" rateLimitKey RATE_LIMIT_CONFIGS_login now
                     (rateLimitStore w) in
    if negb (success rateLimit) then
      (Ok (Engine.Failure
             ("Too many login attempts. Please try again in "
              ++ decimal (retryMinutes rateLimit) ++ " minutes.")),
       setStore store w)
    else
      let w1 :=
        mkAuthWorld store
          (signInCalls w
           ++ [(Engine.orEmpty identifier, Engine.orEmpty password)])
          (users w) (S (ticks w)) in
      match signIn services (ticks w) (Engine.orEmpty identifier)
                   (Engine.orEmpty password) with
      | Ok _ =>
          (Ok (Engine.Success tt),
           setStore (resetRateLimit "login" rateLimitKey store) w1)
      | Err error =>
          if isRedirect error then
            (Err error, setStore (resetRateLimit "login" rateLimitKey store) w1)
          else (Ok (Engine.Failure "Invalid credentials"), w1)
      end.

(** Successive sign-in attempts with one form, at the given values of
    [Date.now()]. *)
Fixpoint attempts (formData : FormData) (headers : Headers) (times : list Z)
    (w : AuthWorld) : list (Res (Engine.ActionResult unit)) * AuthWorld :=
  match times with
  | [] => ([], w)
  | now :: rest =>
      let '(out, w1) := handleCredentialsSignIn formData headers now w in
      let '(outs, w2) := attempts formData headers rest w1 in
      (out :: outs, w2)
  end.

End Handlers.

(** No colon in a string. *)
Definition noColon (s : string) : bool :=
  forallb (fun c => negb (Ascii.eqb c ":")) (list_ascii_of_string s).

End Auth.

(** ** src/server/providers.ts: [addProvider] and [deleteProvider] *)

Module Providers.
Import Js Engine.

(** The metadata of a provider type, as [addProvider] reads it from
    [getAvailableProviders()]; the declaration is missing with
    [src/lib/providers]. *)
Record CredentialField : Type := mkCredentialField {
  cf_name : string;
  cf_label : string;
  cf_required : bool
}.

Record ProviderMeta : Type := mkProviderMeta {
  pm_name : string;
  pm_displayName : string;
  pm_credentialFields : list CredentialField
}.

(** The loop of [addProvider] over the credential fields: it returns
    with an error at the first required field without a value, and
    collects the values that are present.  (The names of the fields are
    taken to be ordinary property names: an assignment to [__proto__]
    would not add a property.) *)
Fixpoint collectCredentials (fields : list CredentialField)
    (formData : Auth.FormData) (credentials : Crypto.Credentials)
    : string + Crypto.Credentials :=
  match fields with
  | [] => inr credentials
  | field :: rest =>
      let value := formData (cf_name field) in
      if cf_required field && negb (truthy value) then
        inl (cf_label field ++ " is required")
      else
        collectCredentials rest formData
          (if truthy value then <[cf_name field := orEmpty value]> credentials
           else credentials)
  end.

(** [db.delete(providers).where(eq(providers.id, ..))]: the schema makes
    the deletion of a provider cascade to its domains, and that of a
    domain to its records. *)
Definition deleteProvidersWhereId (providerId : string) (d : DB) : DB :=
  if existsb (fun p => String.eqb (p_id p) providerId) (providers d) then
    let gone :=
      List.filter (fun r => String.eqb (d_providerId r) providerId)
                  (domains d) in
    mkDB (List.filter (fun p => negb (String.eqb (p_id p) providerId))
                      (providers d))
         (List.filter (fun r => negb (String.eqb (d_providerId r) providerId))
                      (domains d))
         (List.filter
            (fun r => negb (existsb (fun g => String.eqb (d_id g) (r_domainId r))
                                    gone))
            (records d))
  else d.

Section Actions.
Context {sys : System}.

(** The provider types on offer, and the identifiers of the table
    [users], which these actions do not write. *)
Variable availableProviders : list ProviderMeta.
Variable userIds : list string.

(** An insertion into [providers] is refused when the primary key is
    taken or the user does not exist. *)
Definition insertProvider (row : ProviderRow) (d : DB) : Res DB :=
  if existsb (fun p => String.eqb (p_id p) (p_id row)) (providers d) then
    Err (JsError "UNIQUE constraint failed: providers.id")
  else if negb (existsb (String.eqb (p_userId row)) userIds) then
    Err (JsError "FOREIGN KEY constraint failed")
  else Ok (mkDB (providers d ++ [row]) (domains d) (records d)).

(** The [try] block of [addProvider] with its [catch]: the error to
    return, if any.  (The log of calls has no entry for
    [validateCredentials].) *)
Definition checkCredentials (providerName : string)
    (credentials : Crypto.Credentials) (w : World) : option string * World :=
  match createProvider providerName (Crypto.ofRecord node credentials) with
  | Err error => (Some (messageOr "Validation failed" error), w)
  | Ok provider =>
      let '(isValid, remote') := validateCredentials _ _ provider (remote w) in
      let w' := mkWorld (db w) remote' (calls w) (dateCount w) (idCount w) in
      match isValid with
      | Err error => (Some (messageOr "Validation failed" error), w')
      | Ok false => (Some "Invalid credentials", w')
      | Ok true => (None, w')
      end
  end.

(** [addProvider]; [g] is the state of the random generator read by
    [encryptCredentials].  The two dates are the defaults of the
    schema. *)
Definition addProvider (session : option string) (formData : Auth.FormData)
    (g : Crypto.Rng node) (w : World)
    : Res (ActionResult string) * World * Crypto.Rng node :=
  match requireUser session w with
  | (Err e, w0) => (Err e, w0, g)
  | (Ok userId, w0) =>
      let providerName := formData "provider" in
      let label := formData "label" in
      match
        match providerName with
        | Some name =>
            List.find (fun p => String.eqb (pm_name p) name) availableProviders
        | None => None
        end
      with
      | None => (Ok (Failure "Invalid provider type"), w0, g)
      | Some providerMeta =>
          match collectCredentials (pm_credentialFields providerMeta)
                                   formData ∅ with
          | inl error => (Ok (Failure error), w0, g)
          | inr credentials =>
              match checkCredentials (orEmpty providerName) credentials w0 with
              | (Some error, w1) => (Ok (Failure error), w1, g)
              | (None, w1) =>
                  let id := nanoidAt (idCount w1) in
                  let w2 := mkWorld (db w1) (remote w1) (calls w1)
                                    (dateCount w1) (S (idCount w1)) in
                  match Crypto.encryptCredentials node credentials g with
                  | (Err e, g') => (Err e, w2, g')
                  | (Ok encrypted, g') =>
                      let createdAt := dateAt (dateCount w2) in
                      let updatedAt := dateAt (S (dateCount w2)) in
                      let w3 := mkWorld (db w2) (remote w2) (calls w2)
                                        (S (S (dateCount w2))) (idCount w2) in
                      match insertProvider
                              (mkProviderRow id userId (orEmpty providerName)
                                 (if truthy label then orEmpty label
                                  else pm_displayName providerMeta)
                                 encrypted "active" None
                                 (Some createdAt) (Some updatedAt))
                              (db w3) with
                      | Err e => (Err e, w3, g')
                      | Ok d =>
                          (Ok (Success id),
                           mkWorld d (remote w3) (calls w3) (dateCount w3)
                                   (idCount w3), g')
                      end
                  end
              end
          end
      end
  end.

(** [deleteProvider] *)
Definition deleteProvider (session : option string) (providerId : string)
    (w : World) : Res (ActionResult unit) * World :=
  match requireUser session w with
  | (Err e, w0) => (Err e, w0)
  | (Ok userId, w0) =>
      match selectProviders providerId userId (db w0) with
      | [] => (Ok (Failure "Provider not found"), w0)
      | provider :: _ =>
          (Ok (Success tt),
           mkWorld (deleteProvidersWhereId providerId (db w0)) (remote w0)
                   (calls w0) (dateCount w0) (idCount w0))
      end
  end.

(** *** What the properties speak of *)

(** The user owns a provider row with the identifier. *)
Definition ownsProvider (userId providerId : string) (d : DB) : Prop :=
  exists p, In p (providers d) /\ p_id p = providerId /\ p_userId p = userId.

(** The user owns the provider of a domain row with the identifier. *)
Definition ownsDomain (userId domainId : string) (d : DB) : Prop :=
  exists r p, In r (domains d) /\ In p (providers d) /\
              d_id r = domainId /\ d_providerId r = p_id p /\
              p_userId p = userId.

(** Every domain row has a provider row and every record row a domain
    row: the foreign keys of the schema. *)
Definition referencesHold (d : DB) : Prop :=
  Forall (fun r => exists p, In p (providers d) /\ p_id p = d_providerId r)
         (domains d) /\
  Forall (fun r => exists g, In g (domains d) /\ d_id g = r_domainId r)
         (records d).

(** What identifies a domain row: the fields no sync rewrites. *)
Definition identity (r : DomainRow) : string * string * string * option Z :=
  (d_id r, d_providerId r, d_remoteId r, d_createdAt r).

(** What identifies a provider row, with its credentials: the fields
    [syncProvider] does not rewrite. *)
Definition account (p : ProviderRow)
    : string * string * string * string * string * option Z :=
  (p_id p, p_userId p, p_name p, p_label p, p_credentials p, p_createdAt p).

(** What [updateRecord] does not rewrite in a record row. *)
Definition anchor (r : RecordRow)
    : string * string * string * option string * option Z :=
  (r_id r, r_domainId r, r_remoteId r, r_extra r, r_createdAt r).

(** What the insertion loop of [syncDomainRecords] does, however it
    ends: rows of the domain are appended to the records. *)
Definition addsRecords (domainId : string) (w w' : World) : Prop :=
  calls w' = calls w /\ remote w' = remote w /\
  providers (db w') = providers (db w) /\
  domains (db w') = domains (db w) /\
  exists rows, records (db w') = (records (db w) ++ rows)%list /\
               Forall (fun r => r_domainId r = domainId) rows.

(** What the loop of [syncProvider] does, however it ends: the rows
    keep their identity and rows of the provider are appended. *)
Definition addsDomains (providerId : string) (w w' : World) : Prop :=
  sameButDomains w w' /\
  exists added,
    map identity (domains (db w'))
    = (map identity (domains (db w)) ++ map identity added)%list /\
    Forall (fun r => d_providerId r = providerId) added.

End Actions.

End Providers.

(** ** What the properties of the patterns speak of *)

Module Alphabet.
Import Js Validation.

(** Every character of the string satisfies [p]. *)
Fixpoint every (p : ascii -> bool) (s : string) : bool :=
  match s with
  | EmptyString => true
  | String c rest => p c && every p rest
  end.

(** Some character of the string satisfies [p]. *)
Fixpoint some (p : ascii -> bool) (s : string) : bool :=
  match s with
  | EmptyString => false
  | String c rest => p c || some p rest
  end.

(** Every character class of the pattern lies within [P]. *)
Fixpoint classesWithin (P : ascii -> bool) (r : regex) : Prop :=
  match r with
  | Eps => True
  | Class p => forall c, p c = true -> P c = true
  | Seq a b | Alt a b => classesWithin P a /\ classesWithin P b
  | Rep _ _ a | Star a => classesWithin P a
  | NotAhead _ | NotBehind _ => True
  end.

(** The continuation is reached after a prefix made of characters
    satisfying [P]. *)
Definition consumes (P : ascii -> bool) (k : Cont) (s : string) : Prop :=
  exists s1 s2 prev, s = s1 ++ s2 /\ every P s1 = true /\ k prev s2 = true.

Definition isDot (c : ascii) : bool := Ascii.eqb c ".".
Definition isColon (c : ascii) : bool := Ascii.eqb c ":".

(** The characters of a record name: letters, digits, hyphen, dot,
    asterisk and at sign. *)
Definition nameChar (c : ascii) : bool :=
  isAlnum c || isHyphen c || isDot c || Ascii.eqb c "*" || Ascii.eqb c "@".

(** The characters of a host name. *)
Definition hostChar (c : ascii) : bool := isAlnum c || isHyphen c || isDot c.

(** The characters of an address. *)
Definition ipv4Char (c : ascii) : bool := isDigit c || isDot c.
Definition ipv6Char (c : ascii) : bool := isHexDigit c || isColon c.

(** [a.b.c.d] with each number printed in decimal. *)
Definition dotted (a b c d : Z) : string :=
  Auth.decimal a ++ "." ++ Auth.decimal b ++ "." ++ Auth.decimal c ++ "."
  ++ Auth.decimal d.

(** A number is a rational between two integers. *)
Definition within (lo hi : Z) (n : number) : Prop :=
  exists q, n = Finite q /\
            QArith_base.Qle (QArith_base.inject_Z lo) q /\
            QArith_base.Qle q (QArith_base.inject_Z hi).

(** The strings the pattern of an octet is written for: one or two
    digits, three digits of which the first is 0 or 1, 2 followed by a
    digit up to 4 and a digit, or 25 followed by a digit up to 5. *)
Definition octetShape (s : string) : bool :=
  match s with
  | String d EmptyString => isDigit d
  | String d1 (String d2 EmptyString) => isDigit d1 && isDigit d2
  | String d1 (String d2 (String d3 EmptyString)) =>
      (inRange "0" "1" d1 && isDigit d2 && isDigit d3)
      || (Ascii.eqb d1 "2" && inRange "0" "4" d2 && isDigit d3)
      || (Ascii.eqb d1 "2" && Ascii.eqb d2 "5" && inRange "0" "5" d3)
  | _ => false
  end.

Definition notWhiteSpace (c : ascii) : bool := negb (isWhiteSpace c).
Definition notQuote (c : ascii) : bool := negb (isQuote c).

(** An address [a@b.c] whose three parts are not empty and hold neither
    white space nor an at sign. *)
Definition emailShape (email : string) : Prop :=
  exists a b c,
    email = a ++ "@" ++ b ++ "." ++ c /\
    a <> EmptyString /\ b <> EmptyString /\ c <> EmptyString /\
    every Auth.emailChar a = true /\ every Auth.emailChar b = true /\
    every Auth.emailChar c = true.

(** At least eight characters, all of the alphabet of passwords, with a
    lower-case letter, an upper-case letter and a digit among them. *)
Definition strongPassword (password : string) : bool :=
  (8 <=? String.length password)%nat
  && every Auth.passwordChar password
  && some isLower password && some isUpper password && some isDigit password.

(** No two rows of the table of users have the same email. *)
Definition uniqueEmails (l : list Auth.UserRow) : Prop :=
  forall i j u v email,
    l !! i = Some u -> l !! j = Some v ->
    Auth.u_email u = Some email -> Auth.u_email v = Some email -> i = j.

End Alphabet.

(** ** Sample forms

    Forms, headers and services to run the handlers and [addProvider]
    on concrete data. *)

Module SampleForms.
Import Js Crypto Engine Sample.

(** A form as the pairs it holds. *)
Definition formOf (fields : list (string * string)) : Auth.FormData :=
  fun name =>
    match List.find (fun kv => String.eqb (fst kv) name) fields with
    | Some kv => Some (snd kv)
    | None => None
    end.

Definition noHeaders : Auth.Headers := fun _ => None.

(** Services whose [signIn] refuses every password. *)
Definition strictServices : Auth.Services :=
  Auth.mkServices
    (fun _ _ _ => Err (JsError "CredentialsSignin"))
    (fun _ password _ => Ok ("$2a$12$" ++ password))
    (fun n => "uuid-" ++ tally n)
    (fun n => 1700000000000 + Z.of_nat n).


Definition loginForm : Auth.FormData :=
  formOf [("identifier", "bob"); ("password", "guess")].

Definition registerForm : Auth.FormData :=
  formOf [("email", "bob@example.com"); ("username", "bob");
          ("password", "Passw0rd!"); ("confirmPassword", "Passw0rd!")].

Definition blankForm : Auth.FormData := formOf [].

Definition freshWorld : Auth.AuthWorld := Auth.mkAuthWorld ∅ [] [] 0.

(** A world in which the counter of [bob] at an unknown client is full
    until the time 1000. *)
Definition lockedWorld : Auth.AuthWorld :=
  Auth.mkAuthWorld
    {[ "login:unknown-client:bob" := RateLimit.mkEntry 5 1000 ]} [] [] 0.

Definition cloudflareMeta : Providers.ProviderMeta :=
  Providers.mkProviderMeta "cloudflare" "Cloudflare"
    [Providers.mkCredentialField "apiToken" "API Token" true;
     Providers.mkCredentialField "accountId" "Account ID" false].

Definition providerForm : Auth.FormData :=
  formOf [("provider", "cloudflare"); ("label", "Main account");
          ("apiToken", "secret")].

End SampleForms.

(* ===================================================================== *)
(** * Part II: properties                                                 *)
(* ===================================================================== *)

Section ValidatorProperties.
Import Js Validation.

(** The validator table of the specification. *)
Example validator_table :
  validateRecordContent "A" "1.2.3.4" = Valid /\
  valid (validateRecordContent "A" "999.1.1.1") = false /\
  validateRecordContent "AAAA" "::1" = Valid /\
  valid (validateTTL (ofZ 30)) = false /\
  validateTTL (ofZ 604800) = Valid /\
  valid (validateDNSRecord
           (mkDNSRecordInput "MX" "@" "mail.example.com" None None)) = false /\
  validateRecordContent "SRV" "10 5060 sip.example.com" = Valid /\
  validateRecordContent "CAA" "0 issue letsencrypt.org" = Valid /\
  valid (validateRecordContent "CAA" "garbage") = false.
Proof. repeat split; vm_compute; reflexivity. Qed.

(** C8 does not hold of the code: SRV content with a fourth field is
    accepted, and so is the four-field form that starts with the
    priority, whose port is then read as the target. *)
Theorem srv_content_with_trailing_field_accepted :
  validateRecordContent "SRV" "10 5060 sip.example.com extra" = Valid /\
  validateRecordContent "SRV" "10 20 5060 sip.example.com" = Valid /\
  validateRecordContent "SRV" "10 5060 sip.example.com" = Valid /\
  validateRecordContent "SRV" "10 5060" =
    Invalid "SRV record format: weight port target".
Proof. repeat split; vm_compute; reflexivity. Qed.

End ValidatorProperties.

Section RateLimitProperties.
Import RateLimit.

Variables action identifier : string.

Lemma checkRateLimit_absent config now (store : Store) :
  store !! storeKey action identifier = None ->
  checkRateLimit action identifier config now store =
    (mkResult true (maxRequests config - 1) (now + windowMs config) None,
     <[storeKey action identifier := mkEntry 1 (now + windowMs config)]> store).
Proof. intros H. unfold checkRateLimit. now rewrite H. Qed.

Lemma checkRateLimit_live_below config now (store : Store) e :
  store !! storeKey action identifier = Some e ->
  now <= resetTime e ->
  count e < maxRequests config ->
  checkRateLimit action identifier config now store =
    (mkResult true (maxRequests config - (count e + 1)) (resetTime e) None,
     <[storeKey action identifier := mkEntry (count e + 1) (resetTime e)]> store).
Proof.
  intros H Hnow Hcount. unfold checkRateLimit. rewrite H.
  destruct (Z.gtb_spec now (resetTime e)); [lia|].
  destruct (Z.geb_spec (count e) (maxRequests config)); [lia|].
  reflexivity.
Qed.

Lemma checkRateLimit_live_full config now (store : Store) e :
  store !! storeKey action identifier = Some e ->
  now <= resetTime e ->
  maxRequests config <= count e ->
  checkRateLimit action identifier config now store =
    (mkResult false 0 (resetTime e) (Some (resetTime e - now)), store).
Proof.
  intros H Hnow Hcount. unfold checkRateLimit. rewrite H.
  destruct (Z.gtb_spec now (resetTime e)); [lia|].
  destruct (Z.geb_spec (count e) (maxRequests config)); [|lia].
  reflexivity.
Qed.


(** The periodic sweep keeps every entry whose window is still open. *)
Lemma cleanup_keeps_live now (store : Store) k e :
  store !! k = Some e -> now <= resetTime e ->
  cleanup now store !! k = Some e.
Proof.
  intros H Hnow. unfold cleanup.
  apply map_lookup_filter_Some. split; [exact H|]. simpl.
  destruct (Z.gtb_spec now (resetTime e)); [lia|reflexivity].
Qed.


(** C10.  Whatever the store holds, [resetRateLimit] followed by
    [checkRateLimit] on the same action and identifier opens a new
    window: the call succeeds, [remaining] is [maxRequests - 1] and the
    reset time is [now + windowMs]. *)
Theorem check_after_reset_opens_window config now (store : Store) :
  checkRateLimit action identifier config now
                 (resetRateLimit action identifier store)
  = (mkResult true (maxRequests config - 1) (now + windowMs config) None,
     <[storeKey action identifier := mkEntry 1 (now + windowMs config)]>
       (resetRateLimit action identifier store)).
Proof.
  apply checkRateLimit_absent. unfold resetRateLimit. apply lookup_delete_eq.
Qed.

End RateLimitProperties.


Section VaultProperties.
Import Crypto.
Local Open Scope list_scope.

Variable api : NodeApi.
Hypothesis laws : NodeLaws api.

(** The four parts of a blob are found again at the offsets
    [decryptCredentials] reads them from. *)
Lemma layout_parts (salt iv authTag encrypted : bytes) :
  length salt = 32%nat -> length iv = 16%nat -> length authTag = 16%nat ->
  let combined := salt ++ iv ++ authTag ++ encrypted in
  subarray 0 SALT_LENGTH combined = salt /\
  subarray SALT_LENGTH (SALT_LENGTH + IV_LENGTH) combined = iv /\
  subarray (SALT_LENGTH + IV_LENGTH)
           (SALT_LENGTH + IV_LENGTH + AUTH_TAG_LENGTH) combined = authTag /\
  drop (SALT_LENGTH + IV_LENGTH + AUTH_TAG_LENGTH) combined = encrypted.
Proof.
  intros Hs Hi Ht combined. subst combined.
  unfold subarray, SALT_LENGTH, IV_LENGTH, AUTH_TAG_LENGTH.
  repeat split.
  - rewrite drop_0. now apply take_app_length'.
  - rewrite drop_app_length' by done. now apply take_app_length'.
  - change (32 + 16 + 16 - (32 + 16))%nat with 16%nat.
    rewrite (app_assoc salt iv).
    rewrite drop_app_length' by (rewrite length_app; lia).
    now apply take_app_length'.
  - replace (32 + 16 + 16)%nat with (length (salt ++ iv ++ authTag))
      by (rewrite !length_app; lia).
    replace (salt ++ iv ++ authTag ++ encrypted)
      with ((salt ++ iv ++ authTag) ++ encrypted)
      by now rewrite <- !app_assoc.
    apply drop_app_length.
Qed.

Lemma encryptCredentials_inv data g blob :
  fst (encryptCredentials api data g) = Ok blob ->
  exists masterKey salt iv authTag encrypted,
    getEncryptionKey api = Ok masterKey /\
    blobOf api data masterKey salt iv authTag encrypted /\
    blob = base64Encode api (salt ++ iv ++ authTag ++ encrypted).
Proof.
  unfold encryptCredentials, deriveKey.
  pose proof (randomBytes_length api laws SALT_LENGTH g) as Hs.
  destruct (randomBytes api SALT_LENGTH g) as [salt g1].
  pose proof (randomBytes_length api laws IV_LENGTH g1) as Hi.
  destruct (randomBytes api IV_LENGTH g1) as [iv g2].
  simpl in Hs, Hi.
  destruct (getEncryptionKey api) as [masterKey|e]; [|discriminate].
  set (key := pbkdf2Sync api masterKey salt ITERATIONS KEY_LENGTH "sha256").
  assert (Hk : length key = 32%nat) by apply (pbkdf2Sync_length api laws).
  destruct (aesGcmEncrypt_ok api laws key iv
              (utf8Encode api (JSON_stringify api (ofRecord api data))) Hk Hi)
    as (encrypted & authTag & Henc & Ht).
  rewrite Henc. simpl. intros [= <-].
  exists masterKey, salt, iv, authTag, encrypted.
  repeat split; assumption.
Qed.

Lemma encryptCredentials_returns data g masterKey :
  getEncryptionKey api = Ok masterKey ->
  exists blob, fst (encryptCredentials api data g) = Ok blob.
Proof.
  intros Hkey. unfold encryptCredentials, deriveKey. rewrite Hkey.
  pose proof (randomBytes_length api laws SALT_LENGTH g) as Hs.
  destruct (randomBytes api SALT_LENGTH g) as [salt g1].
  pose proof (randomBytes_length api laws IV_LENGTH g1) as Hi.
  destruct (randomBytes api IV_LENGTH g1) as [iv g2].
  simpl in Hs, Hi.
  set (key := pbkdf2Sync api masterKey salt ITERATIONS KEY_LENGTH "sha256").
  assert (Hk : length key = 32%nat) by apply (pbkdf2Sync_length api laws).
  destruct (aesGcmEncrypt_ok api laws key iv
              (utf8Encode api (JSON_stringify api (ofRecord api data))) Hk Hi)
    as (encrypted & authTag & Henc & Ht).
  rewrite Henc. simpl. eauto.
Qed.

Lemma getEncryptionKey_set key :
  env_CREDENTIALS_ENCRYPTION_KEY api = Some key -> key <> EmptyString ->
  getEncryptionKey api = Ok key.
Proof.
  intros H Hne. unfold getEncryptionKey. rewrite H.
  destruct key; [contradiction|reflexivity].
Qed.

(** C1.  When the master key is configured, [encryptCredentials] returns
    a blob for every credential map [M], and [decryptCredentials] maps
    that blob back to [M]: it returns a record, and the record is [M]. *)
Theorem decrypt_encrypt_roundtrip (masterKey : string) (M : Credentials)
    (g : Rng api) :
  env_CREDENTIALS_ENCRYPTION_KEY api = Some masterKey ->
  masterKey <> EmptyString ->
  exists blob,
    fst (encryptCredentials api M g) = Ok blob /\
    decryptCredentials api blob = Ok (ofRecord api M) /\
    forall M' : Credentials,
      decryptCredentials api blob = Ok (ofRecord api M') -> M' = M.
Proof.
  intros Henv Hne.
  pose proof (getEncryptionKey_set _ Henv Hne) as Hkey.
  destruct (encryptCredentials_returns M g masterKey Hkey) as [blob Hblob].
  exists blob. split; [exact Hblob|].
  destruct (encryptCredentials_inv _ _ _ Hblob)
    as (k & salt & iv & authTag & encrypted & Hk & (Hs & Hi & Ht & Henc) & ->).
  rewrite Hkey in Hk. injection Hk as <-.
  assert (Hdec : decryptCredentials api
            (base64Encode api (salt ++ iv ++ authTag ++ encrypted))
          = Ok (ofRecord api M)).
  { unfold decryptCredentials, decryptAead, deriveKey.
    rewrite (base64Decode_encode api laws).
    destruct (layout_parts salt iv authTag encrypted Hs Hi Ht)
      as (-> & -> & -> & ->).
    rewrite Hkey.
    rewrite (aesGcmDecrypt_encrypt api laws _ _ _ _ _ Henc).
    now rewrite (JSON_utf8_roundtrip api laws). }
  split; [exact Hdec|].
  intros M' HM'. rewrite Hdec in HM'. injection HM' as HM'.
  symmetry. now apply (ofRecord_inj api laws).
Qed.






End VaultProperties.


(** ** The executable model satisfies the laws of the builtins *)

Section ModelNodeLaws.
Import Crypto ModelNode.
Local Open Scope list_scope.

Lemma list_ind3 {A} (P : list A -> Prop) :
  P [] -> (forall x, P [x]) -> (forall x y, P [x; y]) ->
  (forall x y z l, P l -> P (x :: y :: z :: l)) ->
  forall l, P l.
Proof.
  intros H0 H1 H2 H3 l.
  assert (H : forall n (k : list A), (length k <= n)%nat -> P k).
  { induction n as [|n IH]; intros k Hk.
    - destruct k; [exact H0|simpl in Hk; lia].
    - destruct k as [|x [|y [|z k]]]; auto.
      apply H3, IH. simpl in Hk. lia. }
  apply (H (length l)). lia.
Qed.

Lemma base64Value_char (s : sextet) : base64Value (base64Char s) = Some s.
Proof.
  destruct s as [[[[[x5 x4] x3] x2] x1] x0].
  destruct x5, x4, x3, x2, x1, x0; reflexivity.
Qed.

Lemma base64Char_not_pad (s : sextet) : Ascii.eqb (base64Char s) padChar = false.
Proof.
  destruct s as [[[[[x5 x4] x3] x2] x1] x0].
  destruct x5, x4, x3, x2, x1, x0; reflexivity.
Qed.

Lemma sextetsOf_char (s : sextet) (rest : string) :
  sextetsOf (String (base64Char s) rest) = s :: sextetsOf rest.
Proof.
  cbn [sextetsOf]. now rewrite base64Char_not_pad, base64Value_char.
Qed.

Lemma sextetsOf_pad (rest : string) : sextetsOf (String padChar rest) = [].
Proof. reflexivity. Qed.

Lemma base64_decode_encode (b : bytes) : base64Decode (base64Encode b) = b.
Proof.
  unfold base64Decode, base64Encode.
  induction b as [|x|x y|x y z rest IH] using list_ind3.
  - reflexivity.
  - cbn [encodeGroups].
    destruct (Byte.to_bits x) as (x0 & x1 & x2 & x3 & x4 & x5 & x6 & x7) eqn:Ex.
    rewrite !sextetsOf_char, sextetsOf_pad. cbn [decodeGroups]. unfold byteOfBits.
    now rewrite <- Ex, Byte.of_bits_to_bits.
  - cbn [encodeGroups].
    destruct (Byte.to_bits x) as (x0 & x1 & x2 & x3 & x4 & x5 & x6 & x7) eqn:Ex.
    destruct (Byte.to_bits y) as (y0 & y1 & y2 & y3 & y4 & y5 & y6 & y7) eqn:Ey.
    rewrite !sextetsOf_char, sextetsOf_pad. cbn [decodeGroups]. unfold byteOfBits.
    now rewrite <- Ex, <- Ey, !Byte.of_bits_to_bits.
  - cbn [encodeGroups].
    destruct (Byte.to_bits x) as (x0 & x1 & x2 & x3 & x4 & x5 & x6 & x7) eqn:Ex.
    destruct (Byte.to_bits y) as (y0 & y1 & y2 & y3 & y4 & y5 & y6 & y7) eqn:Ey.
    destruct (Byte.to_bits z) as (z0 & z1 & z2 & z3 & z4 & z5 & z6 & z7) eqn:Ez.
    rewrite !sextetsOf_char. cbn [decodeGroups]. unfold byteOfBits.
    now rewrite <- Ex, <- Ey, <- Ez, !Byte.of_bits_to_bits, IH.
Qed.

Lemma xorByte_involutive (b k : byte) : xorByte (xorByte b k) k = b.
Proof.
  unfold xorByte, zipBits.
  destruct (Byte.to_bits b) as (b0 & b1 & b2 & b3 & b4 & b5 & b6 & b7) eqn:Eb.
  destruct (Byte.to_bits k) as (k0 & k1 & k2 & k3 & k4 & k5 & k6 & k7) eqn:Ek.
  rewrite Byte.to_bits_of_bits.
  rewrite !xorb_assoc, !xorb_nilpotent, !xorb_false_r.
  now rewrite <- Eb, Byte.of_bits_to_bits.
Qed.

Lemma xorStream_involutive (key iv data : bytes) :
  xorStream key iv (xorStream key iv data) = data.
Proof.
  unfold xorStream. apply list_eq. intros i.
  rewrite !list_lookup_imap.
  destruct (data !! i) as [b|]; [|reflexivity].
  simpl. now rewrite xorByte_involutive.
Qed.

Lemma tagOf_length key iv ciphertext : length (tagOf key iv ciphertext) = 16%nat.
Proof. unfold tagOf. now rewrite length_map, length_seq. Qed.

Lemma string_app_assoc (a b c : string) :
  ((a ++ b) ++ c)%string = (a ++ (b ++ c))%string.
Proof.
  induction a as [|x a IH]; [reflexivity|].
  change (String x ((a ++ b) ++ c)%string = String x (a ++ (b ++ c))%string).
  now rewrite IH.
Qed.

Lemma run_app (st : state) (a b : string) :
  run st (a ++ b)%string
  = match run st a with
    | Some st' => run st' b
    | None => None
    end.
Proof.
  revert st. induction a as [|x a IH]; intros st; [reflexivity|].
  change (run st (String x (a ++ b)%string)
          = match run st (String x a) with
            | Some st' => run st' b
            | None => None
            end).
  cbn [run]. destruct (step st x); [apply IH|reflexivity].
Qed.

Lemma run_escapeChar_key done acc (c : ascii) :
  run (InKey done acc Plain) (escapeChar c) = Some (InKey done (c :: acc) Plain).
Proof.
  destruct c as [b0 b1 b2 b3 b4 b5 b6 b7].
  destruct b0, b1, b2, b3, b4, b5, b6, b7; reflexivity.
Qed.

Lemma run_escapeChar_value done key acc (c : ascii) :
  run (InValue done key acc Plain) (escapeChar c)
  = Some (InValue done key (c :: acc) Plain).
Proof.
  destruct c as [b0 b1 b2 b3 b4 b5 b6 b7].
  destruct b0, b1, b2, b3, b4, b5, b6, b7; reflexivity.
Qed.

Lemma run_escape_key done (s : string) : forall acc,
  run (InKey done acc Plain) (escape s)
  = Some (InKey done (rev (list_ascii_of_string s) ++ acc) Plain).
Proof.
  induction s as [|c s IH]; intros acc; [reflexivity|].
  cbn [escape list_ascii_of_string rev].
  rewrite run_app, run_escapeChar_key, IH. now rewrite <- app_assoc.
Qed.

Lemma run_escape_value done key (s : string) : forall acc,
  run (InValue done key acc Plain) (escape s)
  = Some (InValue done key (rev (list_ascii_of_string s) ++ acc) Plain).
Proof.
  induction s as [|c s IH]; intros acc; [reflexivity|].
  cbn [escape list_ascii_of_string rev].
  rewrite run_app, run_escapeChar_value, IH. now rewrite <- app_assoc.
Qed.

Lemma literal_rev (s : string) :
  literal (rev (list_ascii_of_string s) ++ []) = s.
Proof.
  unfold literal. rewrite app_nil_r, rev_involutive.
  apply string_of_list_ascii_of_string.
Qed.

(** Reading one member, from the state that follows a comma. *)
Lemma run_member done (kv : string * string) :
  run (AfterComma done) (member kv) = Some (AfterValue (kv :: done)).
Proof.
  destruct kv as [k v]. unfold member, quoted. cbn [fst snd].
  change (run (InKey done [] Plain)
            ((escape k ++ String quote EmptyString) ++
             ":" ++ String quote (escape v ++ String quote EmptyString))%string
          = Some (AfterValue ((k, v) :: done))).
  rewrite string_app_assoc, run_app, run_escape_key.
  change (run (InValue done (literal (rev (list_ascii_of_string k) ++ [])) [] Plain)
            (escape v ++ String quote EmptyString)%string
          = Some (AfterValue ((k, v) :: done))).
  rewrite literal_rev, run_app, run_escape_value.
  change (Some (AfterValue ((k, literal (rev (list_ascii_of_string v) ++ [])) :: done))
          = Some (AfterValue ((k, v) :: done))).
  now rewrite literal_rev.
Qed.

Lemma run_members (l : list (string * string)) : forall done,
  l <> [] ->
  run (AfterComma done) (members l ++ "}")%string
  = Some (Finished (rev l ++ done)).
Proof.
  induction l as [|kv l IH]; intros done Hne; [contradiction|].
  destruct l as [|kv' l].
  - cbn [members]. rewrite run_app, run_member. reflexivity.
  - change (members (kv :: kv' :: l))
      with (member kv ++ "," ++ members (kv' :: l))%string.
    rewrite !string_app_assoc, run_app, run_member.
    change (run (AfterComma (kv :: done)) (members (kv' :: l) ++ "}")%string
            = Some (Finished (rev (kv :: kv' :: l) ++ done))).
    rewrite IH by discriminate.
    cbn [rev]. now rewrite <- !app_assoc.
Qed.

Lemma member_starts_with_quote kv :
  exists rest, member kv = String quote rest.
Proof. destruct kv. unfold member, quoted. simpl. eauto. Qed.

Lemma run_object (l : list (string * string)) :
  run Start ("{" ++ members l ++ "}")%string = Some (Finished (rev l)).
Proof.
  destruct l as [|kv l]; [reflexivity|].
  rewrite <- (app_nil_r (rev (kv :: l))), <- (run_members (kv :: l) []) by discriminate.
  change (run ObjectOpen (members (kv :: l) ++ "}")%string
          = run (AfterComma []) (members (kv :: l) ++ "}")%string).
  assert (exists rest, (members (kv :: l) ++ "}")%string = String quote rest)
    as [rest ->].
  { destruct (member_starts_with_quote kv) as [r Hr].
    destruct l; cbn [members]; rewrite Hr; simpl; eauto. }
  reflexivity.
Qed.

Lemma JSON_parse_stringify (m : Credentials) :
  JSON_parse (JSON_stringify m) = Ok m.
Proof.
  unfold JSON_parse, JSON_stringify. rewrite run_object. f_equal.
  rewrite <- (list_to_map_to_list m) at 2.
  assert (Hperm : rev (map_to_list m) ≡ₚ map_to_list m)
    by (symmetry; apply Permutation_rev).
  apply list_to_map_proper; [|exact Hperm].
  rewrite Hperm. apply NoDup_fst_map_to_list.
Qed.

Lemma stringOfBytes_of_string (s : string) : stringOfBytes (bytesOfString s) = s.
Proof.
  unfold stringOfBytes, bytesOfString. rewrite map_map.
  rewrite (map_ext _ (fun x => x)) by apply ascii_of_byte_of_ascii.
  rewrite map_id. apply string_of_list_ascii_of_string.
Qed.

Lemma validParameters_sizes key iv :
  length key = 32%nat -> length iv = 16%nat -> validParameters key iv = true.
Proof. intros Hk Hi. unfold validParameters. now rewrite Hk, Hi. Qed.

Lemma model_laws (masterKey : option string) : NodeLaws (ModelNode.api masterKey).
Proof.
  constructor;
    cbn [ModelNode.api Crypto.Rng Crypto.JSValue Crypto.ofRecord
         Crypto.randomBytes Crypto.pbkdf2Sync Crypto.aesGcmEncrypt
         Crypto.aesGcmDecrypt Crypto.base64Encode Crypto.base64Decode
         Crypto.utf8Encode Crypto.utf8Decode Crypto.JSON_stringify
         Crypto.JSON_parse].
  - auto.
  - intros n g. unfold randomBytes. cbn [fst].
    rewrite length_take, length_app, length_replicate. lia.
  - intros. unfold pbkdf2Sync. now rewrite length_map, length_seq.
  - intros key iv plaintext Hk Hi. unfold aesGcmEncrypt.
    rewrite validParameters_sizes by assumption.
    eexists _, _. split; [reflexivity|apply tagOf_length].
  - intros key iv plaintext ciphertext authTag. unfold aesGcmEncrypt, aesGcmDecrypt.
    destruct (validParameters key iv); [|discriminate].
    intros [= <- <-]. rewrite bool_decide_eq_true_2 by reflexivity.
    now rewrite xorStream_involutive.
  - intros key iv plaintext ciphertext authTag authTag'.
    unfold aesGcmEncrypt, aesGcmDecrypt.
    destruct (validParameters key iv); [|discriminate].
    intros [= <- <-] _ Hne. rewrite bool_decide_eq_false_2 by exact Hne. eauto.
  - apply base64_decode_encode.
  - intros m. rewrite stringOfBytes_of_string. apply JSON_parse_stringify.
Qed.

End ModelNodeLaws.


(** ** The server actions *)

Section EngineProperties.
Import Js Validation Crypto Engine.
Context {sys : System}.
Local Open Scope list_scope.

Lemma pair_with_fst {A B} (p : A * B) (a : A) : fst p = a -> p = (a, snd p).
Proof. intros <-. apply surjective_pairing. Qed.

Lemma list_neq_snoc {A} (l : list A) (x : A) : l <> l ++ [x].
Proof.
  intros H. apply (f_equal (@length A)) in H.
  rewrite length_app in H. simpl in H. lia.
Qed.

Lemma snoc_inj {A} (l : list A) (x y : A) : l ++ [x] = l ++ [y] -> x = y.
Proof. intros H. now apply app_inj_tail in H. Qed.

Lemma requireUser_run session (w : World) :
  (exists userId, session = Some userId /\ userId <> EmptyString /\
                  requireUser session w = (Ok userId, w)) \/
  requireUser session w = (Err (JsError "Unauthorized"), w).
Proof.
  destruct session as [[|c u]|]; simpl; auto.
  left. exists (String c u). repeat split. discriminate.
Qed.

Lemma requireUser_signed_in userId (w : World) :
  userId <> EmptyString -> requireUser (Some userId) w = (Ok userId, w).
Proof. destruct userId; [contradiction|reflexivity]. Qed.

(** [getProviderForDomain] reads the store and changes nothing. *)
Lemma getProviderForDomain_world domainId userId (w : World) :
  snd (getProviderForDomain domainId userId w) = w.
Proof.
  unfold getProviderForDomain, bind, getDb, liftRes, throw, ret.
  destruct (selectDomainWithProvider domainId userId (db w)) as [|[dom p] l];
    [reflexivity|].
  destruct (decryptCredentials node (p_credentials p)); [|reflexivity].
  destruct (createProvider (p_name p) a); reflexivity.
Qed.

(** C6 (as amended).  For a signed-in user, [createRecord] returns the
    validator's error for every input the validator refuses, and so does
    [updateRecord] for every input that supplies [type], [name] and
    [content] and that the validator refuses; in both cases the store,
    the remote service and the list of remote calls are what they were.
    (An update that leaves one of the three out is not validated.) *)
Theorem invalid_input_returns_before_any_call
    (userId domainId recordId : string) (w : World) :
  userId <> EmptyString ->
  (forall input e,
     validateDNSRecord (fieldsOfCreate input) = Invalid e ->
     createRecord (Some userId) domainId input w = (Ok (Failure e), w)) /\
  (forall input e,
     truthy (ui_type input) = true -> truthy (ui_name input) = true ->
     truthy (ui_content input) = true ->
     validateDNSRecord (fieldsOfUpdate input) = Invalid e ->
     updateRecord (Some userId) domainId recordId input w = (Ok (Failure e), w)).
Proof.
  intros Hu. split.
  - intros input e Hv. unfold createRecord, bind.
    rewrite (requireUser_signed_in _ _ Hu).
    unfold fieldsOfCreate in Hv. now rewrite Hv.
  - intros input e Ht Hn Hc Hv. unfold updateRecord, bind.
    rewrite (requireUser_signed_in _ _ Hu).
    unfold validateUpdate. rewrite Ht, Hn, Hc. cbn [andb].
    unfold fieldsOfUpdate in Hv. now rewrite Hv.
Qed.

Ltac unfold_monad :=
  unfold modifyDb, insertInto in *;
  unfold bind, ret, throw, tryCatch, liftRes, getDb, setDb,
         newDate, nanoid, callRemote in *;
  cbn [db calls remote dateCount idCount] in *.

(** Closes a goal whose hypothesis equates a list of calls with the same
    list extended, or two extensions that end differently. *)
Ltac absurd_log :=
  match goal with
  | H : ?l = ?l ++ [_] |- _ => exfalso; exact (list_neq_snoc _ _ H)
  | H : ?l ++ [_] = ?l ++ [_] |- _ =>
      apply snoc_inj in H; try discriminate H
  end.

Ltac finish_unchanged :=
  unfold ret, throw in *;
  match goal with
  | E : (_, _) = (_, _) |- _ => injection E as <- <-
  end;
  cbn [db calls];
  (split; [intros; repeat absurd_log|now left]).

Lemma createRecord_after_remote session domainId input (w w' : World) out :
  createRecord session domainId input w = (out, w') ->
  (forall remoteDomainId e,
     calls w' = calls w ++ [CallCreateRecord remoteDomainId input (Err e)] ->
     db w' = db w /\
     out = Ok (Failure (messageOr "Failed to create record" e))) /\
  (db w' = db w \/
   exists remoteDomainId remoteRecord,
     calls w' = calls w ++ [CallCreateRecord remoteDomainId input (Ok remoteRecord)]).
Proof.
  unfold createRecord. unfold bind at 1.
  destruct (requireUser_run session w) as [(userId & -> & Hu & ->)| ->];
    [|intros E; finish_unchanged].
  destruct (validateDNSRecord _); [|intros E; finish_unchanged].
  unfold tryCatch. unfold bind at 1.
  pose proof (getProviderForDomain_world domainId userId w) as Hw.
  destruct (getProviderForDomain domainId userId w) as [[[dom prov]|e0] w1];
    cbn [snd] in Hw; subst w1;
    [|unfold ret; intros E; finish_unchanged].
  unfold_monad.
  destruct (adapterCreateRecord prov (d_remoteId dom) input (remote w))
    as [[remoteRecord|e1] remote'].
  - cbn [calls db dateCount idCount remote].
    match goal with
    | |- context [insertRecord ?row ?d] => destruct (insertRecord row d)
    end; intros E; injection E as <- <-; cbn [db calls];
      (split; [intros ? ? H; absurd_log|]); [right|left]; eauto.
  - intros E; injection E as <- <-; cbn [db calls]. split; [|now left].
    intros remoteDomainId e H. absurd_log. injection H as _ <-. auto.
Qed.

Lemma updateRecord_after_remote session domainId recordId input
    (w w' : World) out :
  updateRecord session domainId recordId input w = (out, w') ->
  (forall remoteDomainId remoteRecordId e,
     calls w' = calls w ++
       [CallUpdateRecord remoteDomainId remoteRecordId input (Err e)] ->
     db w' = db w /\
     out = Ok (Failure (messageOr "Failed to update record" e))) /\
  (db w' = db w \/
   exists remoteDomainId remoteRecordId remoteRecord,
     calls w' = calls w ++
       [CallUpdateRecord remoteDomainId remoteRecordId input (Ok remoteRecord)]).
Proof.
  unfold updateRecord. unfold bind at 1.
  destruct (requireUser_run session w) as [(userId & -> & Hu & ->)| ->];
    [|intros E; finish_unchanged].
  destruct (validateUpdate _); [|intros E; finish_unchanged].
  unfold tryCatch. unfold bind at 1.
  pose proof (getProviderForDomain_world domainId userId w) as Hw.
  destruct (getProviderForDomain domainId userId w) as [[[dom prov]|e0] w1];
    cbn [snd] in Hw; subst w1;
    [|unfold ret; intros E; finish_unchanged].
  unfold bind at 1. unfold getDb at 1.
  destruct (selectRecords recordId domainId (db w)) as [|localRecord others];
    [unfold ret; intros E; finish_unchanged|].
  unfold_monad.
  destruct (adapterUpdateRecord prov (d_remoteId dom) (r_remoteId localRecord)
              input (remote w)) as [[remoteRecord|e1] remote'];
    intros E; injection E as <- <-; cbn [db calls].
  - split; [intros ? ? ? H; absurd_log|]. right. eauto.
  - split; [|now left].
    intros remoteDomainId remoteRecordId e H. absurd_log.
    injection H as _ _ <-. auto.
Qed.

Lemma deleteRecord_after_remote session domainId recordId (w w' : World) out :
  deleteRecord session domainId recordId w = (out, w') ->
  (forall remoteDomainId remoteRecordId e,
     calls w' = calls w ++
       [CallDeleteRecord remoteDomainId remoteRecordId (Err e)] ->
     db w' = db w /\
     out = Ok (Failure (messageOr "Failed to delete record" e))) /\
  (db w' = db w \/
   exists remoteDomainId remoteRecordId,
     calls w' = calls w ++
       [CallDeleteRecord remoteDomainId remoteRecordId (Ok tt)]).
Proof.
  unfold deleteRecord. unfold bind at 1.
  destruct (requireUser_run session w) as [(userId & -> & Hu & ->)| ->];
    [|intros E; finish_unchanged].
  unfold tryCatch. unfold bind at 1.
  pose proof (getProviderForDomain_world domainId userId w) as Hw.
  destruct (getProviderForDomain domainId userId w) as [[[dom prov]|e0] w1];
    cbn [snd] in Hw; subst w1;
    [|unfold ret; intros E; finish_unchanged].
  unfold bind at 1. unfold getDb at 1.
  destruct (selectRecords recordId domainId (db w)) as [|localRecord others];
    [unfold ret; intros E; finish_unchanged|].
  unfold_monad.
  destruct (adapterDeleteRecord prov (d_remoteId dom) (r_remoteId localRecord)
              (remote w)) as [[[]|e1] remote'];
    intros E; injection E as <- <-; cbn [db calls].
  - split; [intros ? ? ? H; absurd_log|]. right. eauto.
  - split; [|now left].
    intros remoteDomainId remoteRecordId e H. absurd_log.
    injection H as _ _ <-. auto.
Qed.

(** C5.  For [createRecord], [updateRecord] and [deleteRecord] alike: when
    the call the action makes to the adapter fails, the local store is
    what it was and the action returns a failure carrying the error; and
    whenever the local store has changed, the action has made its call to
    the adapter and the call has returned a result. *)
Theorem remote_failure_leaves_store_unchanged
    (session : option string) (domainId recordId : string) (w : World) :
  (forall input out w',
     createRecord session domainId input w = (out, w') ->
     (forall remoteDomainId e,
        calls w' = calls w ++ [CallCreateRecord remoteDomainId input (Err e)] ->
        db w' = db w /\
        out = Ok (Failure (messageOr "Failed to create record" e))) /\
     (db w' = db w \/
      exists remoteDomainId remoteRecord,
        calls w' = calls w ++
          [CallCreateRecord remoteDomainId input (Ok remoteRecord)])) /\
  (forall input out w',
     updateRecord session domainId recordId input w = (out, w') ->
     (forall remoteDomainId remoteRecordId e,
        calls w' = calls w ++
          [CallUpdateRecord remoteDomainId remoteRecordId input (Err e)] ->
        db w' = db w /\
        out = Ok (Failure (messageOr "Failed to update record" e))) /\
     (db w' = db w \/
      exists remoteDomainId remoteRecordId remoteRecord,
        calls w' = calls w ++
          [CallUpdateRecord remoteDomainId remoteRecordId input
                            (Ok remoteRecord)])) /\
  (forall out w',
     deleteRecord session domainId recordId w = (out, w') ->
     (forall remoteDomainId remoteRecordId e,
        calls w' = calls w ++
          [CallDeleteRecord remoteDomainId remoteRecordId (Err e)] ->
        db w' = db w /\
        out = Ok (Failure (messageOr "Failed to delete record" e))) /\
     (db w' = db w \/
      exists remoteDomainId remoteRecordId,
        calls w' = calls w ++
          [CallDeleteRecord remoteDomainId remoteRecordId (Ok tt)])).
Proof.
  split; [intros input out w'; apply createRecord_after_remote|].
  split; [intros input out w'; apply updateRecord_after_remote
         |intros out w'; apply deleteRecord_after_remote].
Qed.

(** *** Loops *)

Lemma forEach_invariant {A} (P : World -> World -> Prop) (body : A -> M unit) :
  (forall w, P w w) ->
  (forall w1 w2 w3, P w1 w2 -> P w2 w3 -> P w1 w3) ->
  (forall x w r w', body x w = (r, w') -> P w w') ->
  forall l w r w', forEach l body w = (r, w') -> P w w'.
Proof.
  intros Hrefl Htrans Hbody. induction l as [|x l IH]; intros w r w' E.
  - injection E as <- <-. apply Hrefl.
  - cbn [forEach] in E. unfold bind in E.
    destruct (body x w) as [[[]|e] w1] eqn:Ex.
    + apply (Htrans _ w1); [eapply Hbody, Ex|eapply IH, E].
    + injection E as <- <-. eapply Hbody, Ex.
Qed.

Lemma syncOneDomain_frame providerId remoteDomain (w w' : World) r :
  syncOneDomain providerId remoteDomain w = (r, w') -> sameButDomains w w'.
Proof.
  unfold syncOneDomain, sameButDomains. unfold bind at 1. unfold getDb at 1.
  destruct (selectDomains providerId (rd_id remoteDomain) (db w)) as [|ex l].
  - unfold_monad. unfold insertDomain.
    repeat match goal with
           | |- context [if ?b then _ else _] => destruct b
           end; intros E; injection E as <- <-; cbn; auto.
  - unfold_monad. intros E; injection E as <- <-; cbn; auto.
Qed.






(** *** syncDomainRecords *)

Lemma insertSyncedRecord_run domainId record (w w' : World) :
  insertSyncedRecord domainId record w = (Ok tt, w') ->
  exists row, mirrored row = mirrorOf record /\
              appendsRows domainId [row] w w'.
Proof.
  unfold insertSyncedRecord. unfold_monad. unfold insertRecord.
  repeat match goal with
         | |- context [if ?b then _ else _] => destruct b
         end; intros E; try discriminate E.
  injection E as <-. eexists. split; [|repeat split; cbn; eauto].
  reflexivity.
Qed.

Lemma insertSyncedRecords_run domainId l : forall (w w' : World),
  forEach l (insertSyncedRecord domainId) w = (Ok tt, w') ->
  exists rows, map mirrored rows = map mirrorOf l /\
               appendsRows domainId rows w w'.
Proof.
  induction l as [|record l IH]; intros w w' E.
  - injection E as <-. exists []. unfold appendsRows.
    rewrite app_nil_r. auto.
  - cbn [forEach] in E. unfold bind in E.
    destruct (insertSyncedRecord domainId record w) as [[[]|e] w1] eqn:E1;
      [|discriminate].
    apply insertSyncedRecord_run in E1 as (row & Hrow & Hr1 & Hd1 & Hc1).
    apply IH in E as (rows & Hrows & Hr & Hd & Hc).
    exists (row :: rows). split; [cbn; now rewrite Hrow, Hrows|].
    unfold appendsRows. rewrite Hr, Hr1, Hc, Hc1, <- app_assoc.
    repeat split; auto. apply Forall_cons; auto.
    now apply Forall_cons_1 in Hd1 as [? _].
Qed.

Lemma selected_domain domainId userId (d : DB) dom p l :
  selectDomainWithProvider domainId userId d = (dom, p) :: l ->
  In dom (domains d) /\ d_id dom = domainId.
Proof.
  intros H.
  assert (Hin : In (dom, p) (selectDomainWithProvider domainId userId d))
    by (rewrite H; now left).
  unfold selectDomainWithProvider in Hin.
  apply in_flat_map in Hin as (r & Hr & Hp).
  apply filter_In in Hr as [Hr Hb]. apply String.eqb_eq in Hb.
  apply in_map_iff in Hp as (q & [= <- <-] & _). auto.
Qed.

Lemma recordsOf_replaced domainId (old rows : list RecordRow) :
  Forall (fun r => r_domainId r = domainId) rows ->
  List.filter (fun r => String.eqb (r_domainId r) domainId)
    (List.filter (fun r => negb (String.eqb (r_domainId r) domainId)) old
     ++ rows)
  = rows.
Proof.
  intros Hrows. rewrite List.filter_app.
  replace (List.filter _ (List.filter _ old)) with (@nil RecordRow).
  - cbn [app]. induction Hrows as [|r rows Hr _ IH]; [reflexivity|].
    cbn [List.filter]. rewrite Hr, String.eqb_refl. now rewrite IH.
  - symmetry. induction old as [|r old IH]; [reflexivity|].
    cbn [List.filter].
    destruct (String.eqb (r_domainId r) domainId) eqn:E; cbn [negb];
      [exact IH|].
    cbn [List.filter]. now rewrite E.
Qed.

(** C3.  After [syncDomainRecords] has returned a success for a domain,
    the local records of that domain are, in order, one row for each
    record the adapter's [listRecords] returned for the domain's remote
    identifier, with the remote identifier, type, name, content, ttl,
    priority and proxied flag of that record (an absent flag being stored
    as [false]), whatever the local records were before. *)
Theorem sync_replaces_domain_records
    (session : option string) (domainId : string) (w w' : World) (n : nat) :
  syncDomainRecords session domainId w = (Ok (Success n), w') ->
  exists domain remoteRecords,
    In domain (domains (db w)) /\ d_id domain = domainId /\
    calls w' = calls w ++
      [CallListRecords (d_remoteId domain) (Ok remoteRecords)] /\
    map mirrored (recordsOf domainId (db w')) = map mirrorOf remoteRecords /\
    length (recordsOf domainId (db w')) = length remoteRecords /\
    n = length remoteRecords.
Proof.
  unfold syncDomainRecords. unfold bind at 1.
  destruct (requireUser_run session w) as [(userId & -> & Hu & ->)| ->];
    [|discriminate].
  unfold bind at 1. unfold getDb at 1.
  destruct (selectDomainWithProvider domainId userId (db w))
    as [|[domain providerData] l] eqn:Hsel; [discriminate|].
  apply selected_domain in Hsel as [Hin Hid].
  unfold tryCatch. unfold bind at 1. unfold liftRes at 1.
  destruct (decryptCredentials node (p_credentials providerData))
    as [credentials|e0]; [|discriminate].
  unfold bind at 1. unfold liftRes at 1.
  destruct (createProvider (p_name providerData) credentials) as [provider|e0];
    [|discriminate].
  unfold bind at 1. unfold callRemote at 1.
  destruct (listRecords provider (d_remoteId domain) (remote w))
    as [[remoteRecords|e1] remote']; [|discriminate].
  unfold bind at 1. unfold modifyDb at 1. unfold bind at 1.
  unfold getDb at 1, setDb at 1. cbn [db remote calls dateCount idCount].
  unfold bind at 1.
  match goal with
  | |- context [forEach ?l ?body ?w0] =>
      destruct (forEach l body w0) as [[[]|e2] w2] eqn:Hloop
  end; [|discriminate].
  apply insertSyncedRecords_run in Hloop as (rows & Hrows & Hr & Hd & Hc).
  cbn [db records calls deleteRecordsWhereDomainId] in Hr, Hc.
  unfold_monad. intros E; injection E as <- <-.
  exists domain, remoteRecords.
  assert (Hrec : recordsOf domainId
                   (updateDomainsWhereId domainId
                      (setDomainTimes (dateAt (dateCount w2))
                                      (dateAt (S (dateCount w2)))) (db w2))
                 = rows).
  { unfold recordsOf, updateDomainsWhereId. cbn [records]. rewrite Hr.
    now apply recordsOf_replaced. }
  cbn [db calls]. rewrite Hrec, Hc.
  repeat split; auto.
  apply (f_equal (@length _)) in Hrows. now rewrite !length_map in Hrows.
Qed.

(** *** Reconciliation of domains *)




























End EngineProperties.

(** ** The properties on the sample system *)

Section SampleRuns.
Import Js Validation Crypto Engine Sample.
Local Open Scope list_scope.


Lemma decrypt_encrypt_roundtrip_witness :
  exists stored,
    fst (encryptCredentials sampleApi credentials tape) = Ok stored /\
    decryptCredentials sampleApi stored = Ok (ofRecord sampleApi credentials) /\
    forall M' : Credentials,
      decryptCredentials sampleApi stored = Ok (ofRecord sampleApi M') ->
      M' = credentials.
Proof.
  apply (decrypt_encrypt_roundtrip sampleApi (model_laws _) masterKey).
  - reflexivity.
  - discriminate.
Defined.



Lemma invalid_input_returns_before_any_call_witness :
  createRecord session "d1" invalidCreate worldUp
  = (Ok (Failure "Invalid IPv4 address format"), worldUp) /\
  updateRecord session "d1" "r1" invalidUpdate worldUp
  = (Ok (Failure "Invalid IPv4 address format"), worldUp).
Proof.
  destruct (invalid_input_returns_before_any_call "u1" "d1" "r1" worldUp)
    as [Hcreate Hupdate]; [discriminate|].
  split.
  - apply Hcreate. vm_compute. reflexivity.
  - apply Hupdate; vm_compute; reflexivity.
Defined.

(** C6 as stated does not hold of [updateRecord]: an update whose [name]
    is the empty string is refused by the validator, yet the action calls
    the provider, rewrites the local row and returns a success. *)
Lemma update_without_name_reaches_provider :
  validateDNSRecord (fieldsOfUpdate updateWithoutName)
  = Invalid "Record name is required" /\
  fst (updateRecord session "d1" "r1" updateWithoutName worldUp)
  = Ok (Success (recordOfUpdate "rec1" updateWithoutName)) /\
  calls (snd (updateRecord session "d1" "r1" updateWithoutName worldUp))
  = [CallUpdateRecord "zone1" "rec1" updateWithoutName
       (Ok (recordOfUpdate "rec1" updateWithoutName))] /\
  map r_name (records (db (snd (updateRecord session "d1" "r1"
                                  updateWithoutName worldUp))))
  = [EmptyString] /\
  map r_name (records (db worldUp)) = ["www"].
Proof. repeat split; vm_compute; reflexivity. Qed.

Lemma remote_failure_leaves_store_unchanged_witness :
  (fst (createRecord session "d1" validCreate worldDown)
   = Ok (Failure "Provider API error") /\
   db (snd (createRecord session "d1" validCreate worldDown)) = db worldDown) /\
  (fst (updateRecord session "d1" "r1" validUpdate worldDown)
   = Ok (Failure "Provider API error") /\
   db (snd (updateRecord session "d1" "r1" validUpdate worldDown)) = db worldDown) /\
  (fst (deleteRecord session "d1" "r1" worldDown)
   = Ok (Failure "Provider API error") /\
   db (snd (deleteRecord session "d1" "r1" worldDown)) = db worldDown).
Proof.
  destruct (remote_failure_leaves_store_unchanged session "d1" "r1" worldDown)
    as (Hcreate & Hupdate & Hdelete).
  split; [|split].
  - destruct (Hcreate validCreate _ _ (surjective_pairing _)) as [H _].
    destruct (H "zone1" (JsError "Provider API error")) as [Hdb Hout];
      [reflexivity|].
    split; [exact Hout|exact Hdb].
  - destruct (Hupdate validUpdate _ _ (surjective_pairing _)) as [H _].
    destruct (H "zone1" "rec1" (JsError "Provider API error")) as [Hdb Hout];
      [reflexivity|].
    split; [exact Hout|exact Hdb].
  - destruct (Hdelete _ _ (surjective_pairing _)) as [H _].
    destruct (H "zone1" "rec1" (JsError "Provider API error")) as [Hdb Hout];
      [reflexivity|].
    split; [exact Hout|exact Hdb].
Defined.


Lemma sync_replaces_domain_records_witness :
  exists domain remoteRecords,
    In domain (domains (db worldUp)) /\ d_id domain = "d1" /\
    calls (snd (syncDomainRecords session "d1" worldUp))
    = calls worldUp ++ [CallListRecords (d_remoteId domain) (Ok remoteRecords)] /\
    map mirrored (recordsOf "d1" (db (snd (syncDomainRecords session "d1" worldUp))))
    = map mirrorOf remoteRecords /\
    length (recordsOf "d1" (db (snd (syncDomainRecords session "d1" worldUp))))
    = length remoteRecords /\
    2%nat = length remoteRecords.
Proof.
  apply (sync_replaces_domain_records session "d1" worldUp).
  apply (pair_with_fst (syncDomainRecords session "d1" worldUp)). reflexivity.
Defined.


End SampleRuns.

(* ===================================================================== *)
(** * Part III: further properties of the code                            *)
(* ===================================================================== *)

Section RateLimitWindows.
Import RateLimit.
Local Open Scope list_scope.

Variables action identifier : string.
Variable config : RateLimitConfig.

(** Calls made while the window of a live entry is open: the entry
    admits calls until its count reaches [maxRequests]. *)
Lemma checkMany_live (R : Z) (ts : list Z) :
  forall (c : Z) (store : Store),
    store !! storeKey action identifier = Some (mkEntry c R) ->
    Forall (fun t => t <= R) ts ->
    let k := Z.to_nat (maxRequests config - c) in
    map success (fst (checkMany action identifier config ts store))
    = replicate (Nat.min (length ts) k) true
      ++ replicate (length ts - k) false /\
    snd (checkMany action identifier config ts store)
      !! storeKey action identifier
    = Some (mkEntry (c + Z.of_nat (Nat.min (length ts) k)) R).
Proof.
  induction ts as [|t ts IH]; intros c store Hentry Hts k.
  - cbn. rewrite Z.add_0_r. auto.
  - apply Forall_cons_1 in Hts as [Ht Hts]. cbn [checkMany].
    destruct (Z_lt_le_dec c (maxRequests config)) as [Hlt|Hge].
    + rewrite (checkRateLimit_live_below _ _ _ _ _ _ Hentry Ht Hlt).
      cbn [count resetTime].
      specialize (IH (c + 1)
                     (<[storeKey action identifier := mkEntry (c + 1) R]> store)
                     (lookup_insert_eq _ _ _) Hts).
      cbn zeta in IH. destruct IH as [IHr IHs].
      destruct (checkMany action identifier config ts _) as [rs store'].
      cbn [fst snd map success length] in *.
      assert (Hk : k = S (Z.to_nat (maxRequests config - (c + 1))))
        by (subst k; lia).
      rewrite Hk. cbn [Nat.min Nat.sub replicate app].
      rewrite IHr, IHs. split; [reflexivity|]. f_equal. f_equal. lia.
    + rewrite (checkRateLimit_live_full _ _ _ _ _ _ Hentry Ht Hge).
      specialize (IH c store Hentry Hts). cbn zeta in IH.
      destruct IH as [IHr IHs].
      destruct (checkMany action identifier config ts store) as [rs store'].
      cbn [fst snd map success length] in *.
      assert (Hk : k = 0%nat) by (subst k; lia).
      rewrite Hk in *.
      replace (Z.to_nat (maxRequests config - c)) with 0%nat in * by lia.
      rewrite Nat.min_0_r in *. rewrite Nat.sub_0_r in *.
      cbn [replicate app] in *. rewrite IHr, IHs. auto.
Qed.

(** X1.  Of the calls made for one key from the opening of a window until its
    reset time, exactly the first [maxRequests] succeed (the first one
    always does) and every later one is refused; the reset time of the
    entry stays that of the first call: a refused call does not extend
    the window. *)
Theorem window_admits_first_calls_only (store : Store) (t1 : Z) (ts : list Z) :
  store !! storeKey action identifier = None ->
  Forall (fun t => t <= t1 + windowMs config) ts ->
  let k := Z.to_nat (Z.max 1 (maxRequests config)) in
  let n := S (length ts) in
  map success (fst (checkMany action identifier config (t1 :: ts) store))
  = replicate (Nat.min n k) true ++ replicate (n - k) false /\
  snd (checkMany action identifier config (t1 :: ts) store)
    !! storeKey action identifier
  = Some (mkEntry (Z.of_nat (Nat.min n k)) (t1 + windowMs config)).
Proof.
  intros Hfresh Hts k n. cbn [checkMany].
  rewrite (checkRateLimit_absent _ _ _ _ _ Hfresh).
  destruct (checkMany_live (t1 + windowMs config) ts 1
              (<[storeKey action identifier := mkEntry 1 (t1 + windowMs config)]>
                 store) (lookup_insert_eq _ _ _) Hts) as [Hr Hs].
  destruct (checkMany action identifier config ts _) as [rs store'].
  cbn [fst snd map success] in *.
  assert (Hk : k = S (Z.to_nat (maxRequests config - 1))) by (subst k; lia).
  subst n. rewrite Hk. cbn [Nat.min Nat.sub replicate app].
  rewrite Hr, Hs. split; [reflexivity|]. f_equal. f_equal. lia.
Qed.

(** X2.  The periodic sweep is invisible to callers: a check made at or after
    the time of a sweep answers as it would have without the sweep. *)
Theorem sweep_keeps_answers (store : Store) (swept now : Z) :
  swept <= now ->
  fst (checkRateLimit action identifier config now (cleanup swept store))
  = fst (checkRateLimit action identifier config now store).
Proof.
  intros Hle. unfold checkRateLimit.
  destruct (store !! storeKey action identifier) as [e|] eqn:He.
  - destruct (Z_le_gt_dec swept (resetTime e)) as [Hlive|Hdead].
    + rewrite (cleanup_keeps_live _ _ _ _ He Hlive).
      destruct (now >? resetTime e); [reflexivity|].
      destruct (count e >=? maxRequests config); reflexivity.
    + assert (Hgone : cleanup swept store !! storeKey action identifier = None).
      { unfold cleanup. apply map_lookup_filter_None. right.
        intros e' He'. rewrite He in He'. injection He' as <-. cbn [snd].
        destruct (Z.gtb_spec swept (resetTime e)); [discriminate|lia]. }
      rewrite Hgone.
      destruct (Z.gtb_spec now (resetTime e)); [reflexivity|lia].
  - assert (Hgone : cleanup swept store !! storeKey action identifier = None).
    { unfold cleanup. apply map_lookup_filter_None. now left. }
    now rewrite Hgone.
Qed.

End RateLimitWindows.

Section RateLimitKeys.
Import RateLimit Auth.

Lemma storeKey_cons c (a i : string) :
  storeKey (String c a) i = String c (storeKey a i).
Proof. reflexivity. Qed.

Lemma storeKey_inj (a : string) :
  forall a' i i',
    noColon a = true -> noColon a' = true ->
    storeKey a i = storeKey a' i' -> a = a' /\ i = i'.
Proof.
  induction a as [|c a IH]; intros [|c' a'] i i' Ha Ha' E.
  - change (String ":" i = String ":" i') in E. injection E as ->. auto.
  - change (String ":" i = String c' (storeKey a' i')) in E.
    injection E as <- _. unfold noColon in Ha'. cbn in Ha'. discriminate.
  - change (String c (storeKey a i) = String ":" i') in E.
    injection E as -> _. unfold noColon in Ha. cbn in Ha. discriminate.
  - rewrite !storeKey_cons in E. injection E as -> E.
    unfold noColon in Ha, Ha'. cbn [list_ascii_of_string forallb] in Ha, Ha'.
    apply andb_true_iff in Ha as [_ Ha]. apply andb_true_iff in Ha' as [_ Ha'].
    destruct (IH a' i i' Ha Ha' E) as [-> ->]. auto.
Qed.

(** X3.  Counters are kept apart: when the names of the actions hold no
    colon, a check or a reset for one action and identifier leaves the
    entry of every other action and identifier as it was. *)
Theorem other_keys_untouched (action identifier action' identifier' : string)
    (config : RateLimitConfig) (now : Z) (store : Store) :
  noColon action = true -> noColon action' = true ->
  (action, identifier) <> (action', identifier') ->
  snd (checkRateLimit action identifier config now store)
    !! storeKey action' identifier'
  = store !! storeKey action' identifier' /\
  resetRateLimit action identifier store !! storeKey action' identifier'
  = store !! storeKey action' identifier'.
Proof.
  intros Ha Ha' Hne.
  assert (Hk : storeKey action identifier <> storeKey action' identifier').
  { intros E. destruct (storeKey_inj _ _ _ _ Ha Ha' E) as [-> ->].
    now apply Hne. }
  split.
  - unfold checkRateLimit.
    destruct (store !! storeKey action identifier) as [e|]; cbn [snd].
    + destruct (now >? resetTime e); cbn [snd];
        [now apply lookup_insert_ne|].
      destruct (count e >=? maxRequests config); cbn [snd];
        [reflexivity|now apply lookup_insert_ne].
    + now apply lookup_insert_ne.
  - unfold resetRateLimit. now apply lookup_delete_ne.
Qed.

End RateLimitKeys.

Section VaultEdges.
Import Crypto.
Local Open Scope list_scope.

Variable api : NodeApi.
Hypothesis laws : NodeLaws api.

(** X4.  Every blob [encryptCredentials] returns is recognised by
    [isNewEncryptionFormat]: its decoded bytes hold at least the salt,
    the nonce and the tag. *)
Theorem encrypted_blob_is_new_format (M : Credentials) (g : Rng api)
    (blob : string) :
  fst (encryptCredentials api M g) = Ok blob ->
  isNewEncryptionFormat api blob = true.
Proof.
  intros Hblob.
  destruct (encryptCredentials_inv api laws M g blob Hblob)
    as (masterKey & salt & iv & authTag & encrypted & _ & Hparts & ->).
  destruct Hparts as (Hs & Hi & Ht & _).
  unfold isNewEncryptionFormat.
  rewrite (base64Decode_encode api laws), !length_app, Hs, Hi, Ht.
  apply Nat.leb_le. unfold SALT_LENGTH, IV_LENGTH, AUTH_TAG_LENGTH. lia.
Qed.

(** X5.  Without a master key (unset or empty) nothing can be encrypted:
    [encryptCredentials] throws the configuration error.  Decryption
    does not report the missing key: [decryptCredentials] is then the
    legacy reader, so a record stored as the base64 of its JSON text is
    still returned, and anything else fails with the one generic
    message. *)
Theorem missing_key_blocks_encryption_only (M : Credentials) (g : Rng api) :
  env_CREDENTIALS_ENCRYPTION_KEY api = None \/
  env_CREDENTIALS_ENCRYPTION_KEY api = Some EmptyString ->
  fst (encryptCredentials api M g)
  = Err (JsError
      ("CREDENTIALS_ENCRYPTION_KEY environment variable is not set. " ++
       "Please generate a secure key using: openssl rand -base64 32")) /\
  (forall encryptedData,
     decryptCredentials api encryptedData = decryptLegacy api encryptedData) /\
  decryptCredentials api
    (base64Encode api (utf8Encode api (JSON_stringify api (ofRecord api M))))
  = Ok (ofRecord api M).
Proof.
  intros Henv.
  assert (Hkey : getEncryptionKey api
                 = Err (JsError
      ("CREDENTIALS_ENCRYPTION_KEY environment variable is not set. " ++
       "Please generate a secure key using: openssl rand -base64 32"))).
  { unfold getEncryptionKey. now destruct Henv as [-> | ->]. }
  assert (Hlegacy : forall encryptedData,
            decryptCredentials api encryptedData
            = decryptLegacy api encryptedData).
  { intros encryptedData. unfold decryptCredentials, decryptAead, deriveKey.
    now rewrite Hkey. }
  split; [|split; [exact Hlegacy|]].
  - unfold encryptCredentials, deriveKey. rewrite Hkey.
    destruct (randomBytes api SALT_LENGTH g) as [salt g1].
    now destruct (randomBytes api IV_LENGTH g1) as [iv g2].
  - rewrite Hlegacy. unfold decryptLegacy.
    rewrite (base64Decode_encode api laws).
    now rewrite (JSON_utf8_roundtrip api laws).
Qed.

End VaultEdges.


Section EngineAccess.
Import Js Validation Crypto Engine Providers.
Local Open Scope list_scope.
Context {sys : System}.

(** X6.  Without a signed-in user (no session, or an empty identifier) every
    action throws ["Unauthorized"] and leaves the store, the remote
    service, the log of calls and the counters as they were. *)
Theorem no_session_no_action (session : option string) (w : World) :
  session = None \/ session = Some EmptyString ->
  (forall providerId,
     syncProvider session providerId w = (Err (JsError "Unauthorized"), w)) /\
  (forall domainId,
     syncDomainRecords session domainId w
     = (Err (JsError "Unauthorized"), w)) /\
  (forall domainId input,
     createRecord session domainId input w
     = (Err (JsError "Unauthorized"), w)) /\
  (forall domainId recordId input,
     updateRecord session domainId recordId input w
     = (Err (JsError "Unauthorized"), w)) /\
  (forall domainId recordId,
     deleteRecord session domainId recordId w
     = (Err (JsError "Unauthorized"), w)) /\
  (forall providerId,
     deleteProvider session providerId w
     = (Err (JsError "Unauthorized"), w)) /\
  (forall availableProviders userIds formData g,
     addProvider availableProviders userIds session formData g w
     = (Err (JsError "Unauthorized"), w, g)).
Proof.
  intros [-> | ->]; repeat split; intros; reflexivity.
Qed.

Lemma selectProviders_not_owned userId providerId (d : DB) :
  ~ ownsProvider userId providerId d ->
  selectProviders providerId userId d = [].
Proof.
  intros Hno. destruct (selectProviders providerId userId d) as [|p l] eqn:E;
    [reflexivity|].
  exfalso. apply Hno.
  assert (Hin : In p (selectProviders providerId userId d))
    by (rewrite E; now left).
  unfold selectProviders in Hin. apply filter_In in Hin as [Hin Hb].
  apply andb_true_iff in Hb as [Hi Hu].
  apply String.eqb_eq in Hi, Hu. exists p. auto.
Qed.

Lemma selectDomainWithProvider_not_owned userId domainId (d : DB) :
  ~ ownsDomain userId domainId d ->
  selectDomainWithProvider domainId userId d = [].
Proof.
  intros Hno.
  destruct (selectDomainWithProvider domainId userId d) as [|[dom p] l] eqn:E;
    [reflexivity|].
  exfalso. apply Hno.
  assert (Hin : In (dom, p) (selectDomainWithProvider domainId userId d))
    by (rewrite E; now left).
  unfold selectDomainWithProvider in Hin.
  apply in_flat_map in Hin as (r & Hr & Hp).
  apply filter_In in Hr as [Hr Hb]. apply String.eqb_eq in Hb.
  apply in_map_iff in Hp as (q & [= <- <-] & Hq).
  apply filter_In in Hq as [Hq Hb']. apply andb_true_iff in Hb' as [Hi Hu].
  apply String.eqb_eq in Hi, Hu. exists r, q. auto.
Qed.

Lemma getProviderForDomain_not_owned userId domainId (w : World) :
  ~ ownsDomain userId domainId (db w) ->
  getProviderForDomain domainId userId w
  = (Err (JsError "Domain not found"), w).
Proof.
  intros Hno. unfold getProviderForDomain, bind, getDb.
  now rewrite (selectDomainWithProvider_not_owned _ _ _ Hno).
Qed.

(** X7.  A signed-in user reaches only their own rows: for a provider of
    another user [syncProvider] and [deleteProvider] answer
    ["Provider not found"], and for a domain whose provider belongs to
    another user [syncDomainRecords], [createRecord], [updateRecord] and
    [deleteRecord] answer a failure (["Domain not found"], or the
    validator's error where validation comes first); in every case no
    call is made to the remote service and nothing is written. *)
Theorem rows_of_other_users_are_not_found (userId : string) (w : World) :
  userId <> EmptyString ->
  (forall providerId,
     ~ ownsProvider userId providerId (db w) ->
     syncProvider (Some userId) providerId w
     = (Ok (Failure "Provider not found"), w) /\
     deleteProvider (Some userId) providerId w
     = (Ok (Failure "Provider not found"), w)) /\
  (forall domainId,
     ~ ownsDomain userId domainId (db w) ->
     syncDomainRecords (Some userId) domainId w
     = (Ok (Failure "Domain not found"), w) /\
     (forall input,
        createRecord (Some userId) domainId input w
        = (Ok (Failure match validateDNSRecord (fieldsOfCreate input) with
                       | Invalid error => error
                       | Valid => "Domain not found"
                       end), w)) /\
     (forall recordId input,
        updateRecord (Some userId) domainId recordId input w
        = (Ok (Failure match validateUpdate input with
                       | Invalid error => error
                       | Valid => "Domain not found"
                       end), w)) /\
     (forall recordId,
        deleteRecord (Some userId) domainId recordId w
        = (Ok (Failure "Domain not found"), w))).
Proof.
  intros Hu. split.
  - intros providerId Hno. split.
    + unfold syncProvider, bind. rewrite (requireUser_signed_in _ _ Hu).
      unfold getDb. now rewrite (selectProviders_not_owned _ _ _ Hno).
    + unfold deleteProvider. rewrite (requireUser_signed_in _ _ Hu).
      now rewrite (selectProviders_not_owned _ _ _ Hno).
  - intros domainId Hno. repeat split.
    + unfold syncDomainRecords, bind. rewrite (requireUser_signed_in _ _ Hu).
      unfold getDb. now rewrite (selectDomainWithProvider_not_owned _ _ _ Hno).
    + intros input. unfold createRecord. unfold bind at 1.
      rewrite (requireUser_signed_in _ _ Hu). unfold fieldsOfCreate.
      destruct (validateDNSRecord _); [|reflexivity].
      unfold tryCatch. unfold bind at 1.
      now rewrite (getProviderForDomain_not_owned _ _ _ Hno).
    + intros recordId input. unfold updateRecord. unfold bind at 1.
      rewrite (requireUser_signed_in _ _ Hu).
      destruct (validateUpdate input); [|reflexivity].
      unfold tryCatch. unfold bind at 1.
      now rewrite (getProviderForDomain_not_owned _ _ _ Hno).
    + intros recordId. unfold deleteRecord. unfold bind at 1.
      rewrite (requireUser_signed_in _ _ Hu).
      unfold tryCatch. unfold bind at 1.
      now rewrite (getProviderForDomain_not_owned _ _ _ Hno).
Qed.


End EngineAccess.

Section EngineSync.
Import Js Validation Crypto Engine Providers.
Local Open Scope list_scope.
Context {sys : System}.

Ltac unfold_monad :=
  unfold modifyDb, insertInto in *;
  unfold bind, ret, throw, tryCatch, liftRes, getDb, setDb,
         newDate, nanoid, callRemote in *;
  cbn [db calls remote dateCount idCount] in *.

Lemma addsRecords_refl domainId (w : World) : addsRecords domainId w w.
Proof.
  unfold addsRecords. repeat split. exists []. now rewrite app_nil_r.
Qed.

Lemma addsRecords_trans domainId (w1 w2 w3 : World) :
  addsRecords domainId w1 w2 -> addsRecords domainId w2 w3 ->
  addsRecords domainId w1 w3.
Proof.
  intros (Hc1 & Hr1 & Hp1 & Hd1 & rows1 & Hrec1 & Hall1)
         (Hc2 & Hr2 & Hp2 & Hd2 & rows2 & Hrec2 & Hall2).
  unfold addsRecords. rewrite Hc2, Hr2, Hp2, Hd2, Hrec2, Hrec1.
  repeat split; auto. exists (rows1 ++ rows2).
  split; [now rewrite app_assoc|]. now apply List.Forall_app.
Qed.

Lemma insertSyncedRecord_adds domainId record (w w' : World) r :
  insertSyncedRecord domainId record w = (r, w') -> addsRecords domainId w w'.
Proof.
  unfold insertSyncedRecord. unfold_monad. unfold insertRecord.
  repeat match goal with
         | |- context [if ?b then _ else _] => destruct b
         end; intros E; injection E as <- <-; unfold addsRecords;
    cbn [db calls remote providers domains records]; repeat split;
    try (exists []; now rewrite app_nil_r).
  eexists. split; [reflexivity|]. repeat constructor.
Qed.

Lemma insertSyncedRecords_adds domainId l (w w' : World) r :
  forEach l (insertSyncedRecord domainId) w = (r, w') ->
  addsRecords domainId w w'.
Proof.
  apply (forEach_invariant (addsRecords domainId)).
  - apply addsRecords_refl.
  - apply addsRecords_trans.
  - intros x w0 r0 w0'. apply insertSyncedRecord_adds.
Qed.

Lemma setDomainTimes_keeps domainId syncedAt updatedAt (r : DomainRow) :
  let f := fun r => if String.eqb (d_id r) domainId
                    then setDomainTimes syncedAt updatedAt r else r in
  untimed (f r) = untimed r /\ (d_id r <> domainId -> f r = r).
Proof.
  cbv beta zeta. destruct (String.eqb_spec (d_id r) domainId) as [E|E].
  - split; [reflexivity|]. intros Hne. contradiction.
  - auto.
Qed.

(** The ways [syncDomainRecords] can end. *)
Lemma syncDomainRecords_cases session domainId (w w' : World) out :
  syncDomainRecords session domainId w = (out, w') ->
  (db w' = db w /\
   (calls w' = calls w \/
    exists remoteDomainId e,
      calls w' = calls w ++ [CallListRecords remoteDomainId (Err e)] /\
      out = Ok (Failure (messageOr "Sync failed" e)))) \/
  (exists remoteDomainId remoteRecords rows f,
     calls w' = calls w ++ [CallListRecords remoteDomainId (Ok remoteRecords)] /\
     providers (db w') = providers (db w) /\
     domains (db w') = map f (domains (db w)) /\
     (forall r, untimed (f r) = untimed r /\ (d_id r <> domainId -> f r = r)) /\
     records (db w')
     = List.filter (fun r => negb (String.eqb (r_domainId r) domainId))
                   (records (db w)) ++ rows /\
     Forall (fun r => r_domainId r = domainId) rows).
Proof.
  unfold syncDomainRecords. unfold bind at 1.
  destruct (requireUser_run session w) as [(userId & -> & Hu & ->)| ->];
    [|intros E; injection E as <- <-; left; auto].
  unfold bind at 1. unfold getDb at 1.
  destruct (selectDomainWithProvider domainId userId (db w))
    as [|[domain providerData] l] eqn:Hsel;
    [unfold ret; intros E; injection E as <- <-; left; auto|].
  unfold tryCatch. unfold bind at 1. unfold liftRes at 1.
  destruct (decryptCredentials node (p_credentials providerData))
    as [credentials|e0];
    [|unfold ret; intros E; injection E as <- <-; left; auto].
  unfold bind at 1. unfold liftRes at 1.
  destruct (createProvider (p_name providerData) credentials) as [provider|e0];
    [|unfold ret; intros E; injection E as <- <-; left; auto].
  unfold bind at 1. unfold callRemote at 1.
  destruct (listRecords provider (d_remoteId domain) (remote w))
    as [[remoteRecords|e1] remote'].
  - unfold bind at 1. unfold modifyDb at 1. unfold bind at 1.
    unfold getDb at 1, setDb at 1. cbn [db remote calls dateCount idCount].
    unfold bind at 1.
    match goal with
    | |- context [forEach ?l ?body ?w0] =>
        destruct (forEach l body w0) as [[[]|e2] w2] eqn:Hloop
    end;
      apply insertSyncedRecords_adds in Hloop
        as (Hc & _ & Hp & Hd & rows & Hrec & Hall);
      cbn [db calls providers domains records deleteRecordsWhereDomainId]
        in Hc, Hp, Hd, Hrec.
    + unfold_monad. intros E; injection E as <- <-. right.
      exists (d_remoteId domain), remoteRecords, rows.
      eexists. cbn [db calls providers domains records updateDomainsWhereId].
      rewrite Hc, Hp, Hd, Hrec.
      repeat split; try reflexivity; try assumption;
        apply setDomainTimes_keeps.
    + unfold ret. intros E; injection E as <- <-. right.
      exists (d_remoteId domain), remoteRecords, rows, (fun r => r).
      rewrite Hc, Hp, Hd, Hrec, map_id. repeat split; auto.
  - unfold ret. intros E; injection E as <- <-. cbn [db calls].
    left. split; [reflexivity|]. right. eauto.
Qed.

(** X9.  When the call to [listRecords] fails, [syncDomainRecords] returns a
    failure carrying the error and the store is what it was: the local
    records of the domain are deleted only after the remote records
    have been fetched.  Whenever the store has changed, the call has
    been made and has returned a list. *)
Theorem failed_listRecords_keeps_store
    (session : option string) (domainId : string) (w w' : World)
    (out : Res (ActionResult nat)) :
  syncDomainRecords session domainId w = (out, w') ->
  (forall remoteDomainId e,
     calls w' = calls w ++ [CallListRecords remoteDomainId (Err e)] ->
     db w' = db w /\ out = Ok (Failure (messageOr "Sync failed" e))) /\
  (db w' = db w \/
   exists remoteDomainId remoteRecords,
     calls w' = calls w ++
       [CallListRecords remoteDomainId (Ok remoteRecords)]).
Proof.
  intros E. apply syncDomainRecords_cases in E
    as [[Hdb [Hc|(rid & e & Hc & Hout)]]
       |(rid & l & rows & f & Hc & _)]; split; auto.
  - intros remoteDomainId e H. rewrite Hc in H.
    exfalso. exact (list_neq_snoc _ _ H).
  - intros remoteDomainId e' H. rewrite Hc in H.
    apply snoc_inj in H. injection H as _ <-. auto.
  - intros remoteDomainId e H. rewrite Hc in H.
    apply snoc_inj in H. discriminate H.
  - right. eauto.
Qed.



End EngineSync.

Section EngineWrites.
Import Js Validation Crypto Engine Providers.
Local Open Scope list_scope.
Context {sys : System}.

Ltac unfold_monad :=
  unfold modifyDb, insertInto in *;
  unfold bind, ret, throw, tryCatch, liftRes, getDb, setDb,
         newDate, nanoid, callRemote in *;
  cbn [db calls remote dateCount idCount] in *.

Lemma addsDomains_refl providerId (w : World) : addsDomains providerId w w.
Proof.
  unfold addsDomains, sameButDomains. repeat split.
  exists []. cbn [map]. now rewrite app_nil_r.
Qed.

Lemma addsDomains_trans providerId (w1 w2 w3 : World) :
  addsDomains providerId w1 w2 -> addsDomains providerId w2 w3 ->
  addsDomains providerId w1 w3.
Proof.
  intros [(Hc1 & Hr1 & Hp1 & Hx1) (a1 & Hd1 & Ha1)]
         [(Hc2 & Hr2 & Hp2 & Hx2) (a2 & Hd2 & Ha2)].
  unfold addsDomains, sameButDomains. rewrite Hc2, Hr2, Hp2, Hx2.
  repeat split; auto. exists (a1 ++ a2).
  rewrite Hd2, Hd1, map_app, app_assoc. split; [reflexivity|].
  now apply List.Forall_app.
Qed.

Lemma map_identity_update (g : DomainRow -> DomainRow) (l : list DomainRow) :
  (forall r, identity (g r) = identity r) ->
  map identity (map g l) = map identity l.
Proof.
  intros Hg. rewrite map_map. apply map_ext. exact Hg.
Qed.

Lemma syncOneDomain_adds providerId remoteDomain (w w' : World) r :
  syncOneDomain providerId remoteDomain w = (r, w') ->
  addsDomains providerId w w'.
Proof.
  intros E. split; [exact (syncOneDomain_frame _ _ _ _ _ E)|].
  revert E. unfold syncOneDomain. unfold bind at 1. unfold getDb at 1.
  destruct (selectDomains providerId (rd_id remoteDomain) (db w)) as [|ex l].
  - unfold_monad. unfold insertDomain.
    repeat match goal with
           | |- context [if ?b then _ else _] => destruct b
           end; intros E; injection E as <- <-; cbn [db domains];
      try (exists []; cbn [map]; now rewrite app_nil_r).
    eexists [_]. rewrite map_app. split; [reflexivity|].
    repeat constructor.
  - unfold_monad. intros E; injection E as <- <-.
    cbn [db domains updateDomainsWhereId]. exists []. cbn [map].
    rewrite app_nil_r. split; [|constructor].
    apply map_identity_update. intros r0.
    now destruct (String.eqb (d_id r0) (d_id ex)).
Qed.

Lemma syncDomains_adds providerId l (w w' : World) r :
  forEach l (syncOneDomain providerId) w = (r, w') ->
  addsDomains providerId w w'.
Proof.
  apply (forEach_invariant (addsDomains providerId)).
  - apply addsDomains_refl.
  - apply addsDomains_trans.
  - intros x w0 r0 w0'. apply syncOneDomain_adds.
Qed.

Lemma provider_update_keeps providerId set (l : list ProviderRow) :
  (forall p, account (set p) = account p) ->
  exists f,
    map (fun p => if String.eqb (p_id p) providerId then set p else p) l
    = map f l /\
    forall p, account (f p) = account p /\ (p_id p <> providerId -> f p = p).
Proof.
  intros Hset. eexists. split; [reflexivity|]. intros p. cbv beta.
  destruct (String.eqb_spec (p_id p) providerId) as [E|E]; auto.
  split; [apply Hset|]. intros Hne. contradiction.
Qed.

Lemma provider_unchanged_keeps providerId (l : list ProviderRow) :
  exists f,
    l = map f l /\
    forall p, account (f p) = account p /\ (p_id p <> providerId -> f p = p).
Proof. exists (fun p => p). rewrite map_id. auto. Qed.

Lemma no_domain_added providerId (l : list DomainRow) :
  exists added,
    map identity l = map identity l ++ map identity added /\
    Forall (fun r => d_providerId r = providerId) added.
Proof. exists []. cbn [map]. rewrite app_nil_r. auto. Qed.

(** X11.  However [syncProvider] ends, it never deletes: the record rows
    are what they were; every domain row keeps its identifier, provider,
    remote identifier and creation date, in place, and the rows that
    are added belong to the provider; a provider row changes only if it
    has the identifier, and then not in its owner, name, label or
    credentials.  A domain that has disappeared at the provider stays in
    the store. *)
Theorem syncProvider_never_deletes
    (session : option string) (providerId : string) (w w' : World)
    (out : Res (ActionResult nat)) :
  syncProvider session providerId w = (out, w') ->
  records (db w') = records (db w) /\
  (exists added,
     map identity (domains (db w'))
     = map identity (domains (db w)) ++ map identity added /\
     Forall (fun r => d_providerId r = providerId) added) /\
  (exists f,
     providers (db w') = map f (providers (db w)) /\
     forall p, account (f p) = account p /\
               (p_id p <> providerId -> f p = p)).
Proof.
  unfold syncProvider. unfold bind at 1.
  destruct (requireUser_run session w) as [(userId & -> & Hu & ->)| ->];
    [|intros E; injection E as <- <-;
      auto using no_domain_added, provider_unchanged_keeps].
  unfold bind at 1. unfold getDb at 1.
  destruct (selectProviders providerId userId (db w)) as [|providerData l];
    [unfold ret; intros E; injection E as <- <-;
     auto using no_domain_added, provider_unchanged_keeps|].
  assert (Herr : forall updatedAt p,
            account (setProviderError updatedAt p) = account p)
    by reflexivity.
  assert (Hact : forall lastSyncAt updatedAt p,
            account (setProviderActive lastSyncAt updatedAt p) = account p)
    by reflexivity.
  unfold tryCatch. unfold bind at 1. unfold liftRes at 1.
  destruct (decryptCredentials node (p_credentials providerData))
    as [credentials|e0].
  2:{ unfold_monad. intros E; injection E as <- <-.
      cbn [db providers domains records updateProvidersWhereId].
      auto using no_domain_added, provider_update_keeps. }
  unfold bind at 1. unfold liftRes at 1.
  destruct (createProvider (p_name providerData) credentials) as [provider|e0].
  2:{ unfold_monad. intros E; injection E as <- <-.
      cbn [db providers domains records updateProvidersWhereId].
      auto using no_domain_added, provider_update_keeps. }
  unfold bind at 1. unfold callRemote at 1.
  destruct (listDomains provider (remote w)) as [[remoteDomains|e1] remote'].
  - unfold bind at 1.
    match goal with
    | |- context [forEach ?l ?body ?w0] =>
        destruct (forEach l body w0) as [[[]|e2] w2] eqn:Hloop
    end;
      apply syncDomains_adds in Hloop
        as [(_ & _ & Hp & Hr) (added & Hd & Ha)];
      cbn [db] in Hp, Hr, Hd;
      unfold_monad; intros E; injection E as <- <-;
      cbn [db providers domains records updateProvidersWhereId];
      rewrite Hp, Hr;
      (split; [reflexivity|]; split;
       [exists added; auto|apply provider_update_keeps; auto]).
  - unfold_monad. intros E; injection E as <- <-.
    cbn [db providers domains records updateProvidersWhereId].
    auto using no_domain_added, provider_update_keeps.
Qed.

(** X12.  When [createRecord] returns a success, the input has passed the
    validator, the adapter has been asked once to create the record in
    the remote zone of the domain, and the store has gained exactly one
    record row, for that domain, whose remote identifier, type, name,
    content, ttl, priority and proxied flag are those of the record the
    adapter returned (not those of the input); nothing else is written. *)
Theorem created_record_mirrors_remote
    (session : option string) (domainId : string) (input : CreateRecordInput)
    (w w' : World) (remoteRecord : RemoteRecord node) :
  createRecord session domainId input w = (Ok (Success remoteRecord), w') ->
  validateDNSRecord (fieldsOfCreate input) = Valid /\
  (exists domain,
     In domain (domains (db w)) /\ d_id domain = domainId /\
     calls w' = calls w ++
       [CallCreateRecord (d_remoteId domain) input (Ok remoteRecord)]) /\
  (exists row,
     records (db w') = records (db w) ++ [row] /\
     r_id row = nanoidAt (idCount w) /\ r_domainId row = domainId /\
     mirrored row = mirrorOf remoteRecord) /\
  providers (db w') = providers (db w) /\
  domains (db w') = domains (db w).
Proof.
  unfold createRecord. unfold bind at 1.
  destruct (requireUser_run session w) as [(userId & -> & Hu & ->)| ->];
    [|discriminate].
  unfold fieldsOfCreate.
  destruct (validateDNSRecord _); [|discriminate].
  unfold tryCatch. unfold bind at 1.
  pose proof (getProviderForDomain_world domainId userId w) as Hw.
  destruct (getProviderForDomain domainId userId w)
    as [[[dom prov]|e0] w1] eqn:Hget;
    cbn [snd] in Hw; subst w1; [|discriminate].
  assert (Hdom : In dom (domains (db w)) /\ d_id dom = domainId).
  { revert Hget. unfold getProviderForDomain, bind, getDb, liftRes, throw, ret.
    destruct (selectDomainWithProvider domainId userId (db w))
      as [|[dom' p] l] eqn:Hsel; [discriminate|].
    apply selected_domain in Hsel.
    destruct (decryptCredentials node (p_credentials p)); [|discriminate].
    destruct (createProvider (p_name p) a); [|discriminate].
    now intros [= <- _]. }
  unfold_monad.
  destruct (adapterCreateRecord prov (d_remoteId dom) input (remote w))
    as [[created|e1] remote']; [|discriminate].
  cbn [calls db dateCount idCount remote]. unfold insertRecord.
  repeat match goal with
         | |- context [if ?b then _ else _] => destruct b
         end; intros E; try discriminate E.
  injection E as <- <-. cbn [db calls records providers domains].
  split; [reflexivity|]. split; [exists dom; tauto|].
  split; [|auto]. eexists. split; [reflexivity|]. auto.
Qed.

(** X13.  When [deleteRecord] returns a success, the adapter has been asked
    once to delete, in the remote zone of the domain, the remote record
    of a local record that has the identifier and belongs to the domain;
    afterwards no record row has the identifier, and every other row is
    kept, in order. *)
Theorem deleted_record_is_removed
    (session : option string) (domainId recordId : string) (w w' : World) :
  deleteRecord session domainId recordId w = (Ok (Success tt), w') ->
  (exists domain localRecord,
     In domain (domains (db w)) /\ d_id domain = domainId /\
     In localRecord (records (db w)) /\ r_id localRecord = recordId /\
     r_domainId localRecord = domainId /\
     calls w' = calls w ++
       [CallDeleteRecord (d_remoteId domain) (r_remoteId localRecord)
                         (Ok tt)]) /\
  records (db w')
  = List.filter (fun r => negb (String.eqb (r_id r) recordId))
                (records (db w)) /\
  (forall r, In r (records (db w')) -> r_id r <> recordId) /\
  providers (db w') = providers (db w) /\
  domains (db w') = domains (db w).
Proof.
  unfold deleteRecord. unfold bind at 1.
  destruct (requireUser_run session w) as [(userId & -> & Hu & ->)| ->];
    [|discriminate].
  unfold tryCatch. unfold bind at 1.
  pose proof (getProviderForDomain_world domainId userId w) as Hw.
  destruct (getProviderForDomain domainId userId w)
    as [[[dom prov]|e0] w1] eqn:Hget;
    cbn [snd] in Hw; subst w1; [|discriminate].
  assert (Hdom : In dom (domains (db w)) /\ d_id dom = domainId).
  { revert Hget. unfold getProviderForDomain, bind, getDb, liftRes, throw, ret.
    destruct (selectDomainWithProvider domainId userId (db w))
      as [|[dom' p] l] eqn:Hsel; [discriminate|].
    apply selected_domain in Hsel.
    destruct (decryptCredentials node (p_credentials p)); [|discriminate].
    destruct (createProvider (p_name p) a); [|discriminate].
    now intros [= <- _]. }
  unfold bind at 1. unfold getDb at 1.
  destruct (selectRecords recordId domainId (db w)) as [|localRecord others]
    eqn:Hsel; [discriminate|].
  assert (Hloc : In localRecord (records (db w)) /\
                 r_id localRecord = recordId /\
                 r_domainId localRecord = domainId).
  { assert (Hin : In localRecord (selectRecords recordId domainId (db w)))
      by (rewrite Hsel; now left).
    unfold selectRecords in Hin. apply filter_In in Hin as [Hin Hb].
    apply andb_true_iff in Hb as [Hi Hd]. apply String.eqb_eq in Hi, Hd.
    auto. }
  unfold_monad.
  destruct (adapterDeleteRecord prov (d_remoteId dom) (r_remoteId localRecord)
              (remote w)) as [[[]|e1] remote']; [|discriminate].
  intros E; injection E as <-.
  cbn [db calls records providers domains deleteRecordsWhereId].
  split; [exists dom, localRecord; tauto|]. split; [reflexivity|].
  split; [|auto]. intros r Hr. apply filter_In in Hr as [_ Hb].
  apply negb_true_iff, String.eqb_neq in Hb. exact Hb.
Qed.

(** X14.  When [updateRecord] returns a success, the adapter has been asked
    once to update the remote record of a local record that has the
    identifier and belongs to the domain; afterwards the rows with the
    identifier hold the type, name, content, ttl, priority and proxied
    flag of the record the adapter returned, every row keeps its
    identifier, domain, remote identifier, extra data and creation
    date, and the other rows are what they were. *)
Theorem updated_record_mirrors_remote
    (session : option string) (domainId recordId : string)
    (input : UpdateRecordInput) (w w' : World)
    (remoteRecord : RemoteRecord node) :
  updateRecord session domainId recordId input w
  = (Ok (Success remoteRecord), w') ->
  (exists domain localRecord,
     In domain (domains (db w)) /\ d_id domain = domainId /\
     In localRecord (records (db w)) /\ r_id localRecord = recordId /\
     r_domainId localRecord = domainId /\
     calls w' = calls w ++
       [CallUpdateRecord (d_remoteId domain) (r_remoteId localRecord) input
                         (Ok remoteRecord)]) /\
  (exists f,
     records (db w') = map f (records (db w)) /\
     forall r,
       anchor (f r) = anchor r /\
       (r_id r = recordId ->
        (r_type (f r), r_name (f r), r_content (f r), r_ttl (f r),
         r_priority (f r), r_proxied (f r))
        = (rr_type remoteRecord, rr_name remoteRecord,
           rr_content remoteRecord, rr_ttl remoteRecord,
           rr_priority remoteRecord,
           Some (orFalse (rr_proxied remoteRecord)))) /\
       (r_id r <> recordId -> f r = r)) /\
  providers (db w') = providers (db w) /\
  domains (db w') = domains (db w).
Proof.
  unfold updateRecord. unfold bind at 1.
  destruct (requireUser_run session w) as [(userId & -> & Hu & ->)| ->];
    [|discriminate].
  destruct (validateUpdate input); [|discriminate].
  unfold tryCatch. unfold bind at 1.
  pose proof (getProviderForDomain_world domainId userId w) as Hw.
  destruct (getProviderForDomain domainId userId w)
    as [[[dom prov]|e0] w1] eqn:Hget;
    cbn [snd] in Hw; subst w1; [|discriminate].
  assert (Hdom : In dom (domains (db w)) /\ d_id dom = domainId).
  { revert Hget. unfold getProviderForDomain, bind, getDb, liftRes, throw, ret.
    destruct (selectDomainWithProvider domainId userId (db w))
      as [|[dom' p] l] eqn:Hsel; [discriminate|].
    apply selected_domain in Hsel.
    destruct (decryptCredentials node (p_credentials p)); [|discriminate].
    destruct (createProvider (p_name p) a); [|discriminate].
    now intros [= <- _]. }
  unfold bind at 1. unfold getDb at 1.
  destruct (selectRecords recordId domainId (db w)) as [|localRecord others]
    eqn:Hsel; [discriminate|].
  assert (Hloc : In localRecord (records (db w)) /\
                 r_id localRecord = recordId /\
                 r_domainId localRecord = domainId).
  { assert (Hin : In localRecord (selectRecords recordId domainId (db w)))
      by (rewrite Hsel; now left).
    unfold selectRecords in Hin. apply filter_In in Hin as [Hin Hb].
    apply andb_true_iff in Hb as [Hi Hd]. apply String.eqb_eq in Hi, Hd.
    auto. }
  unfold_monad.
  destruct (adapterUpdateRecord prov (d_remoteId dom) (r_remoteId localRecord)
              input (remote w)) as [[updated|e1] remote']; [|discriminate].
  intros E; injection E as <- <-.
  cbn [db calls records providers domains updateRecordsWhereId].
  split; [exists dom, localRecord; tauto|]. split; [|auto].
  eexists. split; [reflexivity|]. intros r. cbv beta.
  destruct (String.eqb_spec (r_id r) recordId) as [E|E].
  - repeat split. intros Hne. contradiction.
  - repeat split. intros Heq. contradiction.
Qed.

End EngineWrites.

Section VaultReadsBack.
Import Crypto.
Local Open Scope list_scope.

Variable api : NodeApi.
Hypothesis laws : NodeLaws api.

Lemma decrypt_of_encrypted (M : Credentials) (g : Rng api) (blob : string) :
  fst (encryptCredentials api M g) = Ok blob ->
  decryptCredentials api blob = Ok (ofRecord api M).
Proof.
  intros Hblob.
  destruct (encryptCredentials_inv api laws _ _ _ Hblob)
    as (k & salt & iv & authTag & encrypted & Hk & (Hs & Hi & Ht & Henc) & ->).
  unfold decryptCredentials, decryptAead, deriveKey.
  rewrite (base64Decode_encode api laws).
  destruct (layout_parts salt iv authTag encrypted Hs Hi Ht)
    as (-> & -> & -> & ->).
  rewrite Hk.
  rewrite (aesGcmDecrypt_encrypt api laws _ _ _ _ _ Henc).
  now rewrite (JSON_utf8_roundtrip api laws).
Qed.

Lemma new_format_of_encrypted (M : Credentials) (g : Rng api) (blob : string) :
  fst (encryptCredentials api M g) = Ok blob ->
  isNewEncryptionFormat api blob = true.
Proof.
  intros Hblob.
  destruct (encryptCredentials_inv api laws M g blob Hblob)
    as (masterKey & salt & iv & authTag & encrypted & _ & Hparts & ->).
  destruct Hparts as (Hs & Hi & Ht & _).
  unfold isNewEncryptionFormat.
  rewrite (base64Decode_encode api laws), !length_app, Hs, Hi, Ht.
  apply Nat.leb_le. unfold SALT_LENGTH, IV_LENGTH, AUTH_TAG_LENGTH. lia.
Qed.

End VaultReadsBack.

Section ProviderLifecycle.
Import Js Validation Crypto Engine Providers.
Local Open Scope list_scope.
Context {sys : System}.

Variable availableProviders : list ProviderMeta.
Variable userIds : list string.

(** X15.  When [deleteProvider] returns a success, the signed-in user owned
    the provider; the store has lost the provider rows with the
    identifier, the domain rows of that provider and the record rows
    of those domains, and nothing else; if every row had its parent
    before, every row has its parent afterwards.  Nothing is asked of
    the remote service: the zones and records at the provider are not
    deleted. *)
Theorem deleteProvider_cascades
    (session : option string) (providerId : string) (w w' : World) :
  deleteProvider session providerId w = (Ok (Success tt), w') ->
  (exists userId,
     session = Some userId /\ ownsProvider userId providerId (db w)) /\
  (forall p, In p (providers (db w')) <->
             In p (providers (db w)) /\ p_id p <> providerId) /\
  (forall r, In r (domains (db w')) <->
             In r (domains (db w)) /\ d_providerId r <> providerId) /\
  (forall r, In r (records (db w')) <->
             In r (records (db w)) /\
             forall g, In g (domains (db w)) -> d_id g = r_domainId r ->
                       d_providerId g <> providerId) /\
  (referencesHold (db w) -> referencesHold (db w')) /\
  remote w' = remote w /\ calls w' = calls w.
Proof.
  unfold deleteProvider.
  destruct (requireUser_run session w) as [(userId & -> & Hu & ->)| ->];
    [|discriminate].
  destruct (selectProviders providerId userId (db w)) as [|provider l] eqn:Hsel;
    [discriminate|].
  assert (Hin : In provider (selectProviders providerId userId (db w)))
    by (rewrite Hsel; now left).
  unfold selectProviders in Hin. apply filter_In in Hin as [Hin Hb].
  apply andb_true_iff in Hb as [Hi Hown]. apply String.eqb_eq in Hi, Hown.
  intros [= <-]. cbn [db remote calls].
  assert (Hex : existsb (fun p => String.eqb (p_id p) providerId)
                        (providers (db w)) = true).
  { apply existsb_exists. exists provider. split; [exact Hin|].
    now apply String.eqb_eq. }
  unfold deleteProvidersWhereId. rewrite Hex. cbn [providers domains records].
  assert (Hp : forall p,
            In p (List.filter (fun p => negb (String.eqb (p_id p) providerId))
                              (providers (db w))) <->
            In p (providers (db w)) /\ p_id p <> providerId).
  { intros p. rewrite filter_In, negb_true_iff, String.eqb_neq. tauto. }
  assert (Hd : forall r,
            In r (List.filter
                    (fun r => negb (String.eqb (d_providerId r) providerId))
                    (domains (db w))) <->
            In r (domains (db w)) /\ d_providerId r <> providerId).
  { intros r. rewrite filter_In, negb_true_iff, String.eqb_neq. tauto. }
  assert (Hr : forall r,
            In r (List.filter
                    (fun r => negb (existsb
                       (fun g => String.eqb (d_id g) (r_domainId r))
                       (List.filter
                          (fun r => String.eqb (d_providerId r) providerId)
                          (domains (db w)))))
                    (records (db w))) <->
            In r (records (db w)) /\
            forall g, In g (domains (db w)) -> d_id g = r_domainId r ->
                      d_providerId g <> providerId).
  { intros r. rewrite filter_In, negb_true_iff.
    split; intros [Hr Hb]; (split; [exact Hr|]).
    - intros g Hg Hid Hprov.
      assert (Ht : existsb (fun g => String.eqb (d_id g) (r_domainId r))
                     (List.filter
                        (fun r => String.eqb (d_providerId r) providerId)
                        (domains (db w))) = true).
      { apply existsb_exists. exists g. split; [|now apply String.eqb_eq].
        apply filter_In. split; [exact Hg|now apply String.eqb_eq]. }
      rewrite Ht in Hb. discriminate.
    - apply not_true_is_false. intros Ht.
      apply existsb_exists in Ht as (g & Hg & Hid).
      apply filter_In in Hg as [Hg Hprov].
      apply String.eqb_eq in Hid, Hprov. exact (Hb g Hg Hid Hprov). }
  split; [exists userId; split; [reflexivity|exists provider; auto]|].
  split; [exact Hp|]. split; [exact Hd|]. split; [exact Hr|].
  split; [|auto].
  intros [Hdoms Hrecs]. split; apply List.Forall_forall.
  - intros r Hrin. apply Hd in Hrin as [Hrin Hne].
    rewrite List.Forall_forall in Hdoms.
    destruct (Hdoms r Hrin) as (p & Hpin & Hpid).
    exists p. split; [|exact Hpid]. apply Hp. split; [exact Hpin|].
    now rewrite Hpid.
  - intros r Hrin. apply Hr in Hrin as [Hrin Hkeep].
    rewrite List.Forall_forall in Hrecs.
    destruct (Hrecs r Hrin) as (g & Hgin & Hgid).
    exists g. split; [|exact Hgid]. apply Hd. split; [exact Hgin|].
    now apply Hkeep.
Qed.

(** The ways [addProvider] can end. *)
Lemma addProvider_cases
    (session : option string) (formData : Auth.FormData) (g g' : Rng node)
    (w w' : World) (out : Res (ActionResult string)) :
  addProvider availableProviders userIds session formData g w = (out, w', g') ->
  (db w' = db w /\ forall id, out <> Ok (Success id)) \/
  (exists id userId providerMeta credentials provider row,
     out = Ok (Success id) /\ session = Some userId /\
     In providerMeta availableProviders /\
     formData "provider" = Some (pm_name providerMeta) /\
     collectCredentials (pm_credentialFields providerMeta) formData ∅
     = inr credentials /\
     createProvider (pm_name providerMeta) (ofRecord node credentials)
     = Ok provider /\
     fst (validateCredentials _ _ provider (remote w)) = Ok true /\
     fst (encryptCredentials node credentials g) = Ok (p_credentials row) /\
     db w' = mkDB (providers (db w) ++ [row]) (domains (db w))
                  (records (db w)) /\
     p_id row = id /\ p_userId row = userId /\
     p_name row = pm_name providerMeta /\ p_status row = "active" /\
     id = nanoidAt (idCount w)).
Proof.
  unfold addProvider.
  destruct (requireUser_run session w) as [(userId & -> & Hu & ->)| ->];
    [|intros [= <- <- <-]; left; split; [reflexivity|discriminate]].
  destruct (formData "provider") as [name|] eqn:Hname;
    [|intros [= <- <- <-]; left; split; [reflexivity|discriminate]].
  destruct (List.find _ availableProviders) as [providerMeta|] eqn:Hfind;
    [|intros [= <- <- <-]; left; split; [reflexivity|discriminate]].
  apply find_some in Hfind as [Hmeta Hb]. apply String.eqb_eq in Hb.
  subst name.
  destruct (collectCredentials _ formData ∅) as [error|credentials] eqn:Hcoll;
    [intros [= <- <- <-]; left; split; [reflexivity|discriminate]|].
  unfold checkCredentials. cbn [orEmpty].
  destruct (createProvider (pm_name providerMeta) (ofRecord node credentials))
    as [provider|e0] eqn:Hprov;
    [|intros [= <- <- <-]; left; split; [reflexivity|discriminate]].
  destruct (validateCredentials _ _ provider (remote w))
    as [[[|]|e1] remote'] eqn:Hvalid;
    [|intros [= <- <- <-]; left; split; [reflexivity|discriminate]..].
  cbn [db remote calls dateCount idCount].
  destruct (encryptCredentials node credentials g) as [[encrypted|e2] g1]
    eqn:Henc;
    [|intros [= <- <- <-]; left; split; [reflexivity|discriminate]].
  unfold insertProvider. cbn [p_id p_userId db providers domains records].
  destruct (existsb _ (providers (db w)));
    [intros [= <- <- <-]; left; split; [reflexivity|discriminate]|].
  destruct (negb (existsb _ userIds));
    [intros [= <- <- <-]; left; split; [reflexivity|discriminate]|].
  intros [= <- <- <-]. right.
  eexists _, userId, providerMeta, credentials, provider, _. cbn [db].
  rewrite Hvalid, Henc. repeat split; auto.
Qed.

(** X16.  [addProvider] persists nothing on failure: unless it returns a
    success the store is what it was; and it returns a success only
    after [validateCredentials] has returned true for the credentials
    collected from the form, in which case exactly one provider row is
    added, owned by the signed-in user, with status ["active"]. *)
Theorem addProvider_persists_only_validated
    (session : option string) (formData : Auth.FormData) (g g' : Rng node)
    (w w' : World) (out : Res (ActionResult string)) :
  addProvider availableProviders userIds session formData g w = (out, w', g') ->
  ((forall id, out <> Ok (Success id)) -> db w' = db w) /\
  (forall id,
     out = Ok (Success id) ->
     exists userId providerMeta credentials provider row,
       session = Some userId /\ In providerMeta availableProviders /\
       collectCredentials (pm_credentialFields providerMeta) formData ∅
       = inr credentials /\
       createProvider (pm_name providerMeta) (ofRecord node credentials)
       = Ok provider /\
       fst (validateCredentials _ _ provider (remote w)) = Ok true /\
       providers (db w') = providers (db w) ++ [row] /\
       domains (db w') = domains (db w) /\
       records (db w') = records (db w) /\
       p_id row = id /\ p_userId row = userId /\ p_status row = "active").
Proof.
  intros E. apply addProvider_cases in E
    as [[Hdb Hno]
       |(id & userId & meta & credentials & provider & row & Hout & Hs & Hin
         & _ & Hcoll & Hprov & Hvalid & _ & Hdb & Hid & Huser & _ & Hst & _)].
  - split; [auto|]. intros id Hout. exfalso. exact (Hno id Hout).
  - split; [intros Hno; exfalso; exact (Hno id Hout)|].
    intros id' Hout'. rewrite Hout in Hout'. injection Hout' as <-.
    exists userId, meta, credentials, provider, row. rewrite Hdb.
    cbn [providers domains records]. repeat split; auto.
Qed.

Lemma collectCredentials_lookup (formData : Auth.FormData)
    (fields : list CredentialField) :
  forall (init credentials : Credentials),
    collectCredentials fields formData init = inr credentials ->
    (forall field, In field fields -> cf_required field = true ->
                   truthy (formData (cf_name field)) = true) /\
    (forall name,
       credentials !! name
       = if existsb (fun field => String.eqb (cf_name field) name
                                  && truthy (formData name)) fields
         then formData name else init !! name).
Proof.
  induction fields as [|field fields IH]; intros init credentials E.
  - injection E as <-. split; [intros ? []|reflexivity].
  - cbn [collectCredentials] in E.
    destruct (cf_required field && negb (truthy (formData (cf_name field))))
      eqn:Hreq; [discriminate|].
    apply IH in E as [Hall Hlook]. split.
    + intros f [<-|Hf] Hr; [|now apply Hall].
      rewrite Hr in Hreq. cbn [andb] in Hreq.
      now apply negb_false_iff in Hreq.
    + intros name. rewrite Hlook. cbn [existsb].
      destruct (existsb _ fields); [now rewrite orb_true_r|].
      rewrite orb_false_r.
      destruct (String.eqb_spec (cf_name field) name) as [->|Hne];
        cbn [andb].
      * destruct (truthy (formData name)) eqn:Ht; [|reflexivity].
        rewrite lookup_insert_eq. unfold truthy in Ht.
        now destruct (formData name).
      * destruct (truthy (formData (cf_name field)));
          [now rewrite lookup_insert_ne|reflexivity].
Qed.

Hypothesis laws : NodeLaws node.

(** X17.  What [addProvider] stores can be read back: after a success, the
    credentials column of the new row is a blob of the new format that
    [decryptCredentials] maps to a record holding, for each credential
    field of the provider type, the value of the form when it is not
    empty, and nothing else; every required field has a value. *)
Theorem added_provider_credentials_read_back
    (session : option string) (formData : Auth.FormData) (g g' : Rng node)
    (w w' : World) (id : string) :
  addProvider availableProviders userIds session formData g w
  = (Ok (Success id), w', g') ->
  exists providerMeta credentials row,
    In providerMeta availableProviders /\
    formData "provider" = Some (pm_name providerMeta) /\
    providers (db w') = providers (db w) ++ [row] /\ p_id row = id /\
    isNewEncryptionFormat node (p_credentials row) = true /\
    decryptCredentials node (p_credentials row)
    = Ok (ofRecord node credentials) /\
    (forall name,
       credentials !! name
       = if existsb (fun field => String.eqb (cf_name field) name
                                  && truthy (formData name))
                    (pm_credentialFields providerMeta)
         then formData name else None) /\
    (forall field, In field (pm_credentialFields providerMeta) ->
                   cf_required field = true ->
                   truthy (formData (cf_name field)) = true).
Proof.
  intros E. apply addProvider_cases in E
    as [[_ Hno]
       |(id' & userId & meta & credentials & provider & row & Hout & Hs & Hin
         & Hname & Hcoll & Hprov & Hvalid & Henc & Hdb & Hid & _)];
    [exfalso; exact (Hno id eq_refl)|].
  injection Hout as ->.
  apply collectCredentials_lookup in Hcoll as [Hreq Hlook].
  exists meta, credentials, row. rewrite Hdb. cbn [providers].
  repeat split; auto.
  - exact (new_format_of_encrypted node laws _ _ _ Henc).
  - exact (decrypt_of_encrypted node laws _ _ _ Henc).
Qed.

End ProviderLifecycle.

Section Patterns.
Import Js Validation Alphabet.

Lemma every_app p (a b : string) :
  every p (a ++ b) = every p a && every p b.
Proof.
  induction a as [|c a IH]; [reflexivity|].
  change (String c a ++ b) with (String c (a ++ b)). cbn [every].
  now rewrite IH, andb_assoc.
Qed.

Lemma every_impl (p q : ascii -> bool) (s : string) :
  (forall c, p c = true -> q c = true) -> every p s = true -> every q s = true.
Proof.
  intros Hpq. induction s as [|c s IH]; [reflexivity|]. cbn [every].
  intros H. apply andb_true_iff in H as [Hc Hs].
  now rewrite (Hpq c Hc), IH.
Qed.

Lemma append_nil_r (s : string) : s ++ EmptyString = s.
Proof.
  induction s as [|c s IH]; [reflexivity|].
  change (String c s ++ EmptyString) with (String c (s ++ EmptyString)).
  now rewrite IH.
Qed.

Lemma append_assoc (a b c : string) : (a ++ b) ++ c = a ++ (b ++ c).
Proof.
  induction a as [|x a IH]; [reflexivity|].
  change (String x (a ++ b) ++ c = String x (a ++ (b ++ c))).
  change (String x ((a ++ b) ++ c) = String x (a ++ (b ++ c))).
  now rewrite IH.
Qed.

Lemma consumes_seq P (k1 k2 : Cont) (s : string) :
  consumes P k1 s ->
  (forall prev s', k1 prev s' = true -> consumes P k2 s') ->
  consumes P k2 s.
Proof.
  intros (s1 & s2 & prev & -> & H1 & Hk) Hnext.
  destruct (Hnext _ _ Hk) as (s3 & s4 & prev' & -> & H3 & Hk').
  exists (s1 ++ s3), s4, prev'. rewrite append_assoc, every_app, H1, H3. auto.
Qed.

Lemma consumes_here P (k : Cont) prev (s : string) :
  k prev s = true -> consumes P k s.
Proof. intros H. exists EmptyString, s, prev. auto. Qed.

Lemma repeatK_consumes P (body : Cont -> Cont) :
  (forall k prev s, body k prev s = true -> consumes P k s) ->
  forall hi lo k prev s,
    repeatK body lo hi k prev s = true -> consumes P k s.
Proof.
  intros Hbody. induction hi as [|hi IH]; intros lo k prev s H.
  - destruct lo; [|discriminate]. now apply consumes_here with prev.
  - cbn [repeatK] in H. destruct lo as [|lo].
    + apply orb_true_iff in H as [H|H];
        [|now apply consumes_here with prev].
      apply Hbody in H. apply (consumes_seq _ _ _ _ H).
      intros prev' s'. apply IH.
    + apply Hbody in H. apply (consumes_seq _ _ _ _ H).
      intros prev' s'. apply IH.
Qed.

Lemma matchK_consumes P (r : regex) :
  classesWithin P r ->
  forall k prev s, matchK r k prev s = true -> consumes P k s.
Proof.
  induction r as [|p|a IHa b IHb|a IHa b IHb|lo hi a IHa|a IHa|p|p];
    cbn [classesWithin matchK]; intros Hr k prev s H.
  - now apply consumes_here with prev.
  - destruct s as [|c rest]; [discriminate|].
    apply andb_true_iff in H as [Hc Hk].
    exists (String c EmptyString), rest, (Some c).
    cbn [every]. rewrite (Hr c Hc). auto.
  - destruct Hr as [Ha Hb]. apply (IHa Ha) in H.
    apply (consumes_seq _ _ _ _ H). intros prev' s'. apply (IHb Hb).
  - destruct Hr as [Ha Hb]. apply orb_true_iff in H as [H|H];
      [now apply (IHa Ha) in H|now apply (IHb Hb) in H].
  - apply (repeatK_consumes P (matchK a) (IHa Hr)) in H. exact H.
  - apply (repeatK_consumes P (matchK a) (IHa Hr)) in H. exact H.
  - destruct s as [|c rest]; [now apply consumes_here with prev|].
    apply andb_true_iff in H as [_ H]. now apply consumes_here with prev.
  - destruct prev as [c|]; [|now apply consumes_here with None].
    apply andb_true_iff in H as [_ H]. now apply consumes_here with (Some c).
Qed.

Lemma test_alphabet P (r : regex) (s : string) :
  classesWithin P r -> test r s = true -> every P s = true.
Proof.
  intros Hr H. unfold test in H. apply (matchK_consumes P r Hr) in H.
  destruct H as (s1 & s2 & prev & -> & H1 & H2).
  destruct s2; [|discriminate]. now rewrite append_nil_r.
Qed.

Lemma matchK_class_cons p (k : Cont) prev c (s : string) :
  matchK (Class p) k prev (String c s) = p c && k (Some c) s.
Proof. reflexivity. Qed.

(** [p*] followed by the end of the input. *)
Lemma star_class_end p (s : string) : forall n prev,
  (String.length s <= n)%nat ->
  repeatK (matchK (Class p)) 0 n (fun _ rest => isEmpty rest) prev s
  = every p s.
Proof.
  induction s as [|c s IH]; intros n prev Hn.
  - destruct n; cbn; reflexivity.
  - destruct n as [|n]; [cbn in Hn; lia|].
    cbn [repeatK]. rewrite matchK_class_cons. cbn [every isEmpty].
    rewrite orb_false_r. rewrite IH; [reflexivity|]. cbn in Hn. lia.
Qed.

(** [/^[class]+$/] *)
Lemma test_plus_class p (s : string) :
  test (Plus (Class p)) s = negb (isEmpty s) && every p s.
Proof.
  unfold test, Plus. destruct s as [|c s]; [reflexivity|].
  change (matchK (Seq (Class p) (Star (Class p))) ?k None (String c s))
    with (p c && repeatK (matchK (Class p)) 0 (String.length s) k (Some c) s).
  cbn [isEmpty negb andb every]. now rewrite star_class_end.
Qed.

End Patterns.

Section ValidatorCoverage.
Import Js Validation Alphabet.

(** *** White space and case *)

Lemma trimStart_head (s : string) :
  match trimStart s with
  | EmptyString => True
  | String c _ => isWhiteSpace c = false
  end.
Proof.
  induction s as [|c s IH]; [exact I|]. cbn [trimStart].
  destruct (isWhiteSpace c) eqn:E; [exact IH|exact E].
Qed.

Lemma trimEnd_idem (s : string) : trimEnd (trimEnd s) = trimEnd s.
Proof.
  induction s as [|c s IH]; [reflexivity|]. cbn [trimEnd].
  destruct (isWhiteSpace c && isEmpty (trimEnd s)) eqn:E; [reflexivity|].
  cbn [trimEnd]. now rewrite IH, E.
Qed.

Lemma trimStart_trimEnd (s : string) :
  match s with
  | EmptyString => True
  | String c _ => isWhiteSpace c = false
  end ->
  trimStart (trimEnd s) = trimEnd s.
Proof.
  destruct s as [|c s]; [reflexivity|]. intros Hc. cbn [trimEnd].
  rewrite Hc. cbn [andb trimStart]. now rewrite Hc.
Qed.

Lemma trim_idem (s : string) : trim (trim s) = trim s.
Proof.
  unfold trim. rewrite (trimStart_trimEnd _ (trimStart_head s)).
  apply trimEnd_idem.
Qed.

Lemma isEmpty_trim (s : string) : isEmpty s = true -> isEmpty (trim s) = true.
Proof. now destruct s. Qed.

Lemma toUpperCase_app (a b : string) :
  toUpperCase (a ++ b) = toUpperCase a ++ toUpperCase b.
Proof.
  induction a as [|c a IH]; [reflexivity|].
  change (String c a ++ b) with (String c (a ++ b)). cbn [toUpperCase].
  now rewrite IH, append_assoc.
Qed.

Lemma upperChar_idem (c : ascii) : toUpperCase (upperChar c) = upperChar c.
Proof. destruct c as [[] [] [] [] [] [] [] []]; vm_compute; reflexivity. Qed.

Lemma toUpperCase_idem (s : string) :
  toUpperCase (toUpperCase s) = toUpperCase s.
Proof.
  induction s as [|c s IH]; [reflexivity|]. cbn [toUpperCase].
  now rewrite toUpperCase_app, upperChar_idem, IH.
Qed.

Lemma validateRecordName_trim (n : string) :
  validateRecordName (trim n) = validateRecordName n.
Proof.
  unfold validateRecordName. rewrite trim_idem.
  destruct (isEmpty n) eqn:E.
  - now rewrite (isEmpty_trim _ E).
  - cbn [orb]. now rewrite orb_diag.
Qed.

Lemma validateRecordContent_trim (t c : string) :
  validateRecordContent t (trim c) = validateRecordContent t c.
Proof.
  unfold validateRecordContent. rewrite trim_idem.
  destruct (isEmpty c) eqn:E.
  - now rewrite (isEmpty_trim _ E).
  - cbn [orb]. now rewrite orb_diag.
Qed.

Lemma validateRecordContent_upper (t c : string) :
  valid (validateRecordContent (toUpperCase t) c)
  = valid (validateRecordContent t c).
Proof.
  unfold validateRecordContent. rewrite toUpperCase_idem.
  repeat match goal with
         | |- context [if ?b then _ else _] => destruct b
         end; reflexivity.
Qed.

(** X18.  The verdict on a record does not depend on the white space around
    its name and content, nor on the case of the letters of its type
    (the message of a refusal can quote the type as it was written). *)
Theorem verdict_ignores_padding_and_case
    (type name content : string) (ttl priority : option number) :
  validateDNSRecord
    (mkDNSRecordInput type (trim name) (trim content) ttl priority)
  = validateDNSRecord (mkDNSRecordInput type name content ttl priority) /\
  valid (validateDNSRecord
           (mkDNSRecordInput (toUpperCase type) name content ttl priority))
  = valid (validateDNSRecord
             (mkDNSRecordInput type name content ttl priority)).
Proof.
  unfold validateDNSRecord.
  cbn [Validation.type Validation.name Validation.content Validation.ttl
       Validation.priority].
  rewrite validateRecordName_trim, validateRecordContent_trim.
  split; [reflexivity|].
  rewrite toUpperCase_idem.
  pose proof (validateRecordContent_upper type content) as Hc.
  destruct (validateRecordName name); [|reflexivity].
  destruct (validateRecordContent (toUpperCase type) content),
           (validateRecordContent type content);
    try discriminate Hc; try reflexivity.
  destruct (match ttl with Some t => validateTTL t | None => Valid end);
    [|reflexivity].
  destruct (_ || _); [|reflexivity].
  destruct priority; reflexivity.
Qed.

(** *** Alphabets *)

Ltac class_within :=
  let c := fresh "c" in
  let H := fresh "H" in
  intros c; destruct c as [[] [] [] [] [] [] [] []];
  vm_compute; intros H; first [reflexivity|discriminate H].

Lemma name_alphabet : classesWithin nameChar DNS_NAME_REGEX.
Proof.
  cbv [classesWithin DNS_NAME_REGEX nameLabel Opt Chr Lit Plus].
  repeat split; class_within.
Qed.

Lemma host_alphabet : classesWithin hostChar HOSTNAME_REGEX.
Proof.
  cbv [classesWithin HOSTNAME_REGEX hostLabel Opt Chr Lit Plus].
  repeat split; class_within.
Qed.

Lemma ipv4_alphabet : classesWithin ipv4Char IPV4_REGEX.
Proof.
  cbv [classesWithin IPV4_REGEX octet digit Opt Chr Lit Plus].
  repeat split; class_within.
Qed.

Lemma ipv6_alphabet : classesWithin ipv6Char IPV6_REGEX.
Proof.
  cbv [classesWithin IPV6_REGEX hextetColon hextet hexDigit Opt Chr Lit Plus].
  repeat split; class_within.
Qed.

Lemma negb_true_test (r : regex) (s : string) :
  negb (test r s) = false -> test r s = true.
Proof. now destruct (test r s). Qed.

(** X19.  What the validator accepts is written in the alphabet of its kind:
    an accepted name is not blank, has at most 253 characters once
    trimmed and holds only letters, digits, hyphens, dots, asterisks and
    at signs (so no underscore); an accepted address of type A holds
    only digits and dots, one of type AAAA only hexadecimal digits and
    colons, and an accepted target of type CNAME, NS or MX only letters,
    digits, hyphens and dots. *)
Theorem accepted_values_use_the_alphabet (type name content : string) :
  (validateRecordName name = Valid ->
   trim name <> EmptyString /\
   (String.length (trim name) <= 253)%nat /\
   every nameChar (trim name) = true) /\
  (validateRecordContent type content = Valid ->
   trim content <> EmptyString /\
   (toUpperCase type = "A" -> every ipv4Char (trim content) = true) /\
   (toUpperCase type = "AAAA" -> every ipv6Char (trim content) = true) /\
   (toUpperCase type = "CNAME" \/ toUpperCase type = "NS" \/
    toUpperCase type = "MX" -> every hostChar (trim content) = true)).
Proof.
  split.
  - unfold validateRecordName.
    destruct (isEmpty name || isEmpty (trim name)) eqn:Hblank; [discriminate|].
    apply orb_false_iff in Hblank as [_ Hblank].
    destruct (253 <? String.length (trim name))%nat eqn:Hlen; [discriminate|].
    apply Nat.ltb_ge in Hlen.
    destruct (negb (test DNS_NAME_REGEX (trim name))
              && negb (String.eqb (trim name) "@")) eqn:Hre; [discriminate|].
    intros _. split; [now destruct (trim name)|]. split; [exact Hlen|].
    apply andb_false_iff in Hre as [Hre|Hre].
    + apply negb_true_test in Hre.
      exact (test_alphabet _ _ _ name_alphabet Hre).
    + apply negb_false_iff, String.eqb_eq in Hre. now rewrite Hre.
  - unfold validateRecordContent.
    destruct (isEmpty content || isEmpty (trim content)) eqn:Hblank;
      [discriminate|].
    apply orb_false_iff in Hblank as [_ Hblank].
    intros Hvalid. split; [now destruct (trim content)|].
    split; [|split].
    + intros Hup. rewrite Hup in Hvalid. cbn [String.eqb Ascii.eqb] in Hvalid.
      revert Hvalid. change (String.eqb "A" "A") with true. cbv iota.
      destruct (negb (test IPV4_REGEX (trim content))) eqn:Hre;
        [discriminate|]. intros _. apply negb_true_test in Hre.
      exact (test_alphabet _ _ _ ipv4_alphabet Hre).
    + intros Hup. rewrite Hup in Hvalid. revert Hvalid.
      change (String.eqb "AAAA" "A") with false.
      change (String.eqb "AAAA" "AAAA") with true. cbv iota.
      destruct (negb (test IPV6_REGEX (trim content))) eqn:Hre;
        [discriminate|]. intros _. apply negb_true_test in Hre.
      exact (test_alphabet _ _ _ ipv6_alphabet Hre).
    + intros Hup. revert Hvalid.
      destruct Hup as [-> | [-> | ->]];
        repeat match goal with
               | |- context [String.eqb ?a ?b] =>
                   let v := eval vm_compute in (String.eqb a b) in
                   change (String.eqb a b) with v
               end; cbv iota; cbn [orb];
        (destruct (negb (test HOSTNAME_REGEX (trim content))) eqn:Hre;
         [discriminate|]); intros _; apply negb_true_test in Hre;
        exact (test_alphabet _ _ _ host_alphabet Hre).
Qed.

End ValidatorCoverage.

Section ValidatorShapes.
Import Js Validation Alphabet.

(** *** TXT content *)

Lemma every_removeAll (p q : ascii -> bool) (s : string) :
  (forall c, q c = true -> p c = true) ->
  every p (removeAll q s) = every p s.
Proof.
  intros Hqp. induction s as [|c s IH]; [reflexivity|].
  cbn [removeAll every]. destruct (q c) eqn:E.
  - now rewrite IH, (Hqp c E).
  - cbn [every]. now rewrite IH.
Qed.

Lemma isEmpty_removeAll (q : ascii -> bool) (s : string) :
  isEmpty (removeAll q s) = negb (some (fun c => negb (q c)) s).
Proof.
  induction s as [|c s IH]; [reflexivity|]. cbn [removeAll some].
  destruct (q c); [exact IH|reflexivity].
Qed.

Lemma quote_is_printable (c : ascii) :
  isQuote c = true -> inRange " " "~" c = true.
Proof.
  destruct c as [[] [] [] [] [] [] [] []]; vm_compute; intros H;
    first [reflexivity|discriminate H].
Qed.

Lemma some_not_empty p (s : string) : some p s = true -> isEmpty s = false.
Proof. now destruct s. Qed.

(** X20.  The content of a TXT record is accepted exactly when, once trimmed,
    it has at most 4096 characters, all of them printable ASCII (codes
    32 to 126), and at least one that is not a double quote: a content
    made of quotes only, or holding a character outside ASCII, is
    refused. *)
Theorem txt_content_accepted_iff (type content : string) :
  toUpperCase type = "TXT" ->
  (validateRecordContent type content = Valid <->
   (String.length (trim content) <= 4096)%nat /\
   every (inRange " " "~") (trim content) = true /\
   some notQuote (trim content) = true).
Proof.
  intros Hup. unfold validateRecordContent. rewrite Hup.
  repeat match goal with
         | |- context [String.eqb ?a ?b] =>
             let v := eval vm_compute in (String.eqb a b) in
             change (String.eqb a b) with v
         end; cbv iota; cbn [orb].
  unfold TXT_CONTENT_REGEX. rewrite test_plus_class, isEmpty_removeAll,
    (every_removeAll _ _ _ quote_is_printable), negb_involutive.
  change (fun c => negb (isQuote c)) with notQuote.
  split.
  - destruct (isEmpty content || isEmpty (trim content)); [discriminate|].
    destruct (4096 <? String.length (trim content))%nat eqn:Hlen;
      [discriminate|]. apply Nat.ltb_ge in Hlen.
    destruct (some notQuote (trim content)
              && every (inRange " " "~") (trim content)) eqn:Hre;
      [|discriminate].
    apply andb_true_iff in Hre as [Hs He]. auto.
  - intros (Hlen & He & Hs).
    assert (Hblank : isEmpty content || isEmpty (trim content) = false).
    { rewrite (some_not_empty _ _ Hs), orb_false_r.
      destruct content; [discriminate Hs|reflexivity]. }
    rewrite Hblank. apply Nat.ltb_ge in Hlen. rewrite Hlen, Hs, He.
    reflexivity.
Qed.

(** *** IPv4 addresses *)

Lemma append_cons c (a b : string) : String c a ++ b = String c (a ++ b).
Proof. reflexivity. Qed.

Lemma append_nil_l (b : string) : EmptyString ++ b = b.
Proof. reflexivity. Qed.

Lemma octetShape_accepts (o : string) (k : Cont) prev (rest : string) :
  octetShape o = true -> (forall p, k p rest = true) ->
  matchK octet k prev (o ++ rest) = true.
Proof.
  intros Hs Hk.
  destruct o as [|d1 [|d2 [|d3 [|d4 o]]]]; cbn [octetShape] in Hs;
    try discriminate Hs;
    rewrite ?append_cons, append_nil_l.
  - unfold octet, Opt, Chr, digit, Lit; cbn [matchK andb orb].
    rewrite Hs, ?Hk. cbn [andb orb]. now rewrite ?orb_true_r.
  - apply andb_true_iff in Hs as [H1 H2].
    unfold octet, Opt, Chr, digit, Lit; cbn [matchK andb orb].
    rewrite H1, H2, ?Hk. cbn [andb orb]. now rewrite ?orb_true_r.
  - apply orb_true_iff in Hs as [Hs|Hs];
      [apply orb_true_iff in Hs as [Hs|Hs]|];
      apply andb_true_iff in Hs as [Hs H3];
      apply andb_true_iff in Hs as [H1 H2].
    + unfold octet, Opt, Chr, digit, Lit; cbn [matchK andb orb].
      rewrite H1, H2, H3, ?Hk. cbn [andb orb]. now rewrite ?orb_true_r.
    + apply Ascii.eqb_eq in H1. subst d1.
      unfold octet, Opt, Chr, digit, Lit; cbn [matchK andb orb].
      rewrite H2, H3, ?Hk. cbn [andb orb Ascii.eqb Bool.eqb].
      now rewrite ?orb_true_r.
    + apply Ascii.eqb_eq in H1, H2. subst d1 d2.
      unfold octet, Opt, Chr, digit, Lit; cbn [matchK andb orb].
      rewrite H3, ?Hk. cbn [andb orb Ascii.eqb Bool.eqb].
      now rewrite ?orb_true_r.
Qed.

Lemma dot_then (k : Cont) prev (rest : string) :
  (forall p, k p rest = true) ->
  matchK (Chr ".") k prev (String "." rest) = true.
Proof. intros Hk. unfold Chr. cbn [matchK]. now rewrite Hk. Qed.

Lemma ipv4_accepts (o1 o2 o3 o4 : string) :
  octetShape o1 = true -> octetShape o2 = true ->
  octetShape o3 = true -> octetShape o4 = true ->
  test IPV4_REGEX (o1 ++ "." ++ o2 ++ "." ++ o3 ++ "." ++ o4) = true.
Proof.
  intros H1 H2 H3 H4. unfold test, IPV4_REGEX.
  cbn [matchK repeatK]. rewrite !append_cons, !append_nil_l.
  apply octetShape_accepts; [exact H1|]. intros p1. apply dot_then.
  intros p2. apply octetShape_accepts; [exact H2|]. intros p3.
  apply dot_then. intros p4. apply octetShape_accepts; [exact H3|].
  intros p5. apply dot_then. intros p6.
  rewrite <- (append_nil_r o4). apply octetShape_accepts; [exact H4|].
  reflexivity.
Qed.

Lemma decimal_octet (z : Z) :
  0 <= z <= 255 ->
  octetShape (Auth.decimal z) = true /\
  every notWhiteSpace (Auth.decimal z) = true.
Proof.
  intros Hz.
  assert (Hall : forallb (fun n => octetShape (Auth.decimal (Z.of_nat n))
                                   && every notWhiteSpace
                                        (Auth.decimal (Z.of_nat n)))
                         (seq 0 256) = true) by (vm_compute; reflexivity).
  rewrite forallb_forall in Hall.
  specialize (Hall (Z.to_nat z)). rewrite Z2Nat.id in Hall by lia.
  apply andb_true_iff. apply Hall. apply in_seq. lia.
Qed.

Lemma trimEnd_fixed (s : string) :
  every notWhiteSpace s = true -> trimEnd s = s.
Proof.
  induction s as [|c s IH]; [reflexivity|]. cbn [every trimEnd].
  intros H. apply andb_true_iff in H as [Hc Hs].
  apply negb_true_iff in Hc. now rewrite Hc, (IH Hs).
Qed.

Lemma trim_fixed (s : string) : every notWhiteSpace s = true -> trim s = s.
Proof.
  intros H. unfold trim.
  replace (trimStart s) with s; [now apply trimEnd_fixed|].
  destruct s as [|c s]; [reflexivity|]. cbn [every] in H.
  apply andb_true_iff in H as [Hc _]. apply negb_true_iff in Hc.
  cbn [trimStart]. now rewrite Hc.
Qed.

(** X21.  Every IPv4 address in dotted decimal notation, each of its four
    numbers between 0 and 255, is accepted as the content of a record
    of type A. *)
Theorem dotted_quads_are_accepted (type : string) (a b c d : Z) :
  toUpperCase type = "A" ->
  0 <= a <= 255 -> 0 <= b <= 255 -> 0 <= c <= 255 -> 0 <= d <= 255 ->
  validateRecordContent type (dotted a b c d) = Valid.
Proof.
  intros Hup Ha Hb Hc Hd.
  destruct (decimal_octet a Ha) as [Sa Wa], (decimal_octet b Hb) as [Sb Wb],
           (decimal_octet c Hc) as [Sc Wc], (decimal_octet d Hd) as [Sd Wd].
  assert (Hws : every notWhiteSpace (dotted a b c d) = true).
  { unfold dotted. rewrite !every_app, Wa, Wb, Wc, Wd. reflexivity. }
  assert (Hne : isEmpty (dotted a b c d) = false).
  { unfold dotted. destruct (Auth.decimal a); [discriminate Sa|reflexivity]. }
  unfold validateRecordContent. rewrite (trim_fixed _ Hws), Hne, Hup.
  cbn [orb]. change (String.eqb "A" "A") with true. cbv iota.
  unfold dotted. now rewrite (ipv4_accepts _ _ _ _ Sa Sb Sc Sd).
Qed.

(** *** The whole record *)

Lemma validateTTL_valid (t : number) :
  validateTTL t = Valid <-> within 60 604800 t.
Proof.
  unfold validateTTL, within, gt. destruct t as [|[]|q]; cbn [isNaN lt ofZ].
  - split; [discriminate|]. now intros (q & [=] & _).
  - split; [discriminate|]. now intros (q & [=] & _).
  - split; [discriminate|]. now intros (q & [=] & _).
  - change (86400 * 7) with 604800.
    destruct (QArith_base.Qle_bool (QArith_base.inject_Z 60) q) eqn:Hlo;
      cbn [negb].
    + destruct (QArith_base.Qle_bool q (QArith_base.inject_Z 604800)) eqn:Hhi;
        cbn [negb].
      * split; [|reflexivity]. intros _. exists q.
        apply QArith_base.Qle_bool_iff in Hlo, Hhi. auto.
      * split; [discriminate|]. intros (q' & [= <-] & _ & H).
        apply QArith_base.Qle_bool_iff in H. rewrite H in Hhi. discriminate.
    + split; [discriminate|]. intros (q' & [= <-] & H & _).
      apply QArith_base.Qle_bool_iff in H. rewrite H in Hlo. discriminate.
Qed.

Lemma validatePriority_valid (p : number) :
  validatePriority p = Valid <-> within 0 65535 p.
Proof.
  unfold validatePriority, within, gt. destruct p as [|[]|q];
    cbn [isNaN lt ofZ orb].
  - split; [discriminate|]. now intros (q & [=] & _).
  - split; [discriminate|]. now intros (q & [=] & _).
  - split; [discriminate|]. now intros (q & [=] & _).
  - destruct (QArith_base.Qle_bool (QArith_base.inject_Z 0) q) eqn:Hlo;
      cbn [negb orb].
    + destruct (QArith_base.Qle_bool q (QArith_base.inject_Z 65535)) eqn:Hhi;
        cbn [negb].
      * split; [|reflexivity]. intros _. exists q.
        apply QArith_base.Qle_bool_iff in Hlo, Hhi. auto.
      * split; [discriminate|]. intros (q' & [= <-] & _ & H).
        apply QArith_base.Qle_bool_iff in H. rewrite H in Hhi. discriminate.
    + split; [discriminate|]. intros (q' & [= <-] & H & _).
      apply QArith_base.Qle_bool_iff in H. rewrite H in Hlo. discriminate.
Qed.

(** X22.  A record is accepted exactly when its name is accepted, its content
    is accepted for its type, its ttl, if given, is a number from 60 to
    604800 (not necessarily an integer), and, for the types MX and SRV,
    a priority is given and is a number from 0 to 65535. *)
Theorem record_accepted_iff (input : DNSRecordInput) :
  validateDNSRecord input = Valid <->
  validateRecordName (name input) = Valid /\
  validateRecordContent (type input) (content input) = Valid /\
  (forall t, ttl input = Some t -> within 60 604800 t) /\
  (toUpperCase (type input) = "MX" \/ toUpperCase (type input) = "SRV" ->
   exists p, priority input = Some p /\ within 0 65535 p).
Proof.
  unfold validateDNSRecord.
  destruct (validateRecordName (name input));
    [|split; [discriminate|now intros [[=] _]]].
  destruct (validateRecordContent (type input) (content input));
    [|split; [discriminate|now intros (_ & [=] & _)]].
  assert (Httl : match ttl input with
                 | Some t => validateTTL t
                 | None => Valid
                 end = Valid <->
                 forall t, ttl input = Some t -> within 60 604800 t).
  { destruct (ttl input) as [t|].
    - rewrite validateTTL_valid. split; [now intros H t' [= <-]|auto].
    - split; [now intros _ t [=]|reflexivity]. }
  destruct (match ttl input with
            | Some t => validateTTL t
            | None => Valid
            end) eqn:Et.
  2:{ split; [discriminate|]. intros (_ & _ & H & _).
      apply Httl in H. discriminate. }
  assert (Hany : forall t, ttl input = Some t -> within 60 604800 t)
    by now apply Httl.
  destruct (String.eqb_spec (toUpperCase (type input)) "MX") as [Emx|Emx];
    [|destruct (String.eqb_spec (toUpperCase (type input)) "SRV")
        as [Esrv|Esrv]]; cbn [orb].
  - destruct (priority input) as [p|].
    + rewrite validatePriority_valid. split.
      * intros H. repeat split; auto. intros _. eauto.
      * intros (_ & _ & _ & H). destruct (H (or_introl Emx)) as (p' & [= <-] & Hp).
        exact Hp.
    + split; [discriminate|]. intros (_ & _ & _ & H).
      now destruct (H (or_introl Emx)) as (p' & [=] & _).
  - destruct (priority input) as [p|].
    + rewrite validatePriority_valid. split.
      * intros H. repeat split; auto. intros _. eauto.
      * intros (_ & _ & _ & H).
        destruct (H (or_intror Esrv)) as (p' & [= <-] & Hp). exact Hp.
    + split; [discriminate|]. intros (_ & _ & _ & H).
      now destruct (H (or_intror Esrv)) as (p' & [=] & _).
  - split; [|reflexivity]. intros _. repeat split; auto.
    intros [H|H]; contradiction.
Qed.

End ValidatorShapes.

Section RegistrationPatterns.
Import Js Validation Alphabet Auth.

Lemma matchK_class_nil p (k : Cont) prev :
  matchK (Class p) k prev EmptyString = false.
Proof. reflexivity. Qed.

Lemma matchK_star a (k : Cont) prev (s : string) :
  matchK (Star a) k prev s = repeatK (matchK a) 0 (String.length s) k prev s.
Proof. reflexivity. Qed.

Lemma matchK_seq a b (k : Cont) :
  matchK (Seq a b) k = matchK a (matchK b k).
Proof. reflexivity. Qed.

(** [.*] followed by a character of a class, anywhere in the input. *)
Lemma star_then_class (q p : ascii -> bool) (s : string) : forall n prev,
  (String.length s <= n)%nat -> every q s = true ->
  repeatK (matchK (Class q)) 0 n (matchK (Class p) (fun _ _ => true)) prev s
  = some p s.
Proof.
  induction s as [|c s IH]; intros n prev Hn Hq.
  - destruct n; reflexivity.
  - destruct n as [|n]; [cbn in Hn; lia|].
    cbn [every] in Hq. apply andb_true_iff in Hq as [Hc Hs].
    cbn [repeatK]. rewrite !matchK_class_cons, Hc, IH;
      [|cbn in Hn; lia|exact Hs].
    cbn [andb some]. rewrite andb_true_r. apply orb_comm.
Qed.

Lemma lookahead_some (p : ascii -> bool) (s : string) :
  every passwordChar s = true ->
  lookahead (Seq (Star anyChar) (Class p)) s = some p s.
Proof.
  intros Hs. unfold lookahead, anyChar. rewrite matchK_seq, matchK_star.
  apply star_then_class; [lia|].
  apply (every_impl passwordChar); [|exact Hs].
  intros c; destruct c as [[] [] [] [] [] [] [] []]; vm_compute; intros H;
    first [reflexivity|discriminate H].
Qed.

Lemma password_body (p : ascii -> bool) (s : string) :
  test (Seq (Rep 8 8 (Class p)) (Star (Class p))) s
  = (8 <=? String.length s)%nat && every p s.
Proof.
  unfold test. rewrite matchK_seq.
  change (matchK (Rep 8 8 (Class p)) ?k) with (repeatK (matchK (Class p)) 8 8 k).
  cbn [repeatK].
  destruct s as [|c1 [|c2 [|c3 [|c4 [|c5 [|c6 [|c7 [|c8 s]]]]]]]];
    rewrite ?matchK_class_cons, ?matchK_class_nil;
    cbn [String.length Nat.leb andb every]; rewrite ?andb_false_r;
    try reflexivity.
  now rewrite matchK_star, star_class_end.
Qed.

(** What [handleRegister] learns from the pattern, for the properties
    of the handler below. *)
Lemma passwordRegexTest_strong (password : string) :
  passwordRegexTest password = true -> strongPassword password = true.
Proof.
  unfold passwordRegexTest, strongPassword. rewrite password_body.
  intros H. apply andb_true_iff in H as [H Hbody].
  apply andb_true_iff in Hbody as [Hlen Hall].
  rewrite !(lookahead_some _ _ Hall) in H. now rewrite Hlen, Hall.
Qed.

(** X23.  The password pattern of [handleRegister] accepts exactly the
    passwords of at least eight characters, all of them letters, digits
    or one of [@$!%*?&_-#^()], that hold a lower-case letter, an
    upper-case letter and a digit. *)
Theorem password_pattern_meaning (password : string) :
  passwordRegexTest password = strongPassword password.
Proof.
  unfold passwordRegexTest, strongPassword. rewrite password_body.
  destruct (every passwordChar password) eqn:Hall.
  - rewrite !(lookahead_some _ _ Hall).
    destruct (8 <=? String.length password)%nat, (some isLower password),
             (some isUpper password), (some isDigit password); reflexivity.
  - rewrite !andb_false_r. reflexivity.
Qed.

Lemma plus_class_consumes p (k : Cont) prev (s : string) :
  matchK (Plus (Class p)) k prev s = true ->
  exists s1 s2 prev',
    s = s1 ++ s2 /\ s1 <> EmptyString /\ every p s1 = true /\
    k prev' s2 = true.
Proof.
  unfold Plus. rewrite matchK_seq. destruct s as [|c s]; [discriminate|].
  rewrite matchK_class_cons. intros H.
  apply andb_true_iff in H as [Hc H].
  apply (matchK_consumes p (Star (Class p))) in H; [|now intros c' Hc'].
  destruct H as (s1 & s2 & prev' & -> & H1 & H2).
  exists (String c s1), s2, prev'. cbn [every]. rewrite Hc, H1. auto.
Qed.

Lemma chr_consumes c (k : Cont) prev (s : string) :
  matchK (Chr c) k prev s = true ->
  exists rest, s = String c rest /\ k (Some c) rest = true.
Proof.
  unfold Chr. destruct s as [|d s]; [discriminate|].
  rewrite matchK_class_cons. intros H. apply andb_true_iff in H as [Hc H].
  apply Ascii.eqb_eq in Hc. subst d. eauto.
Qed.

Lemma email_shape_of_test (email : string) :
  test emailRegex email = true -> emailShape email.
Proof.
  unfold test, emailRegex. rewrite !matchK_seq. intros H.
  apply plus_class_consumes in H as (a & s2 & p1 & -> & Ha & Ea & H).
  apply chr_consumes in H as (s3 & -> & H).
  apply plus_class_consumes in H as (b & s4 & p2 & -> & Hb & Eb & H).
  apply chr_consumes in H as (s5 & -> & H).
  apply plus_class_consumes in H as (c & s6 & p3 & -> & Hc & Ec & H).
  destruct s6; [|discriminate]. rewrite append_nil_r.
  exists a, b, c. repeat split; auto.
Qed.

End RegistrationPatterns.

Section SignIn.
Import Js RateLimit Alphabet Auth.
Local Open Scope list_scope.

Variable services : Services.
Variable formData : FormData.
Variable headers : Headers.

(** The key of the counter of a sign-in attempt. *)
Local Abbreviation key :=
  (storeKey "login"
     (getClientIdentifier headers ++ ":"
      ++ Engine.orEmpty (formData "identifier"))%string).

Lemma world_eta (w : AuthWorld) :
  mkAuthWorld (rateLimitStore w) (signInCalls w) (users w) (ticks w) = w.
Proof. now destruct w. Qed.

Lemma refusal_keeps_store action identifier config now (store : Store) :
  success (fst (checkRateLimit action identifier config now store)) = false ->
  snd (checkRateLimit action identifier config now store) = store.
Proof.
  unfold checkRateLimit.
  destruct (store !! storeKey action identifier) as [e|]; [|discriminate].
  destruct (now >? resetTime e); [discriminate|].
  destruct (count e >=? maxRequests config); [reflexivity|discriminate].
Qed.

(** X24.  When the counter of the client and identifier is full and its
    window is open, [handleCredentialsSignIn] returns a failure without
    calling [signIn] and without writing anything, whatever password
    the form holds. *)
Theorem refused_login_never_reaches_signIn (now : Z) (w : AuthWorld)
    (e : RateLimitEntry) :
  rateLimitStore w !! key = Some e -> now <= resetTime e -> 5 <= count e ->
  exists message,
    handleCredentialsSignIn services formData headers now w
    = (Ok (Engine.Failure message), w).
Proof.
  intros He Hnow Hfull. unfold handleCredentialsSignIn.
  destruct (negb (Engine.truthy (formData "identifier"))
            || negb (Engine.truthy (formData "password"))); [eauto|].
  fold key.
  rewrite (checkRateLimit_live_full _ _ RATE_LIMIT_CONFIGS_login _ _ _
             He Hnow Hfull).
  cbn [success negb]. unfold setStore. rewrite world_eta. eauto.
Qed.



End SignIn.

Section SignInAttempts.
Import Js RateLimit Alphabet Auth.
Local Open Scope list_scope.

Variable services : Services.
Variable formData : FormData.
Variable headers : Headers.

Local Abbreviation key :=
  (storeKey "login"
     (getClientIdentifier headers ++ ":"
      ++ Engine.orEmpty (formData "identifier"))%string).

Hypothesis Hidentifier : Engine.truthy (formData "identifier") = true.
Hypothesis Hpassword : Engine.truthy (formData "password") = true.
Hypothesis Hwrong : forall n identifier password,
  exists error, signIn services n identifier password = Err error /\
                isRedirect error = false.

Lemma login_step_admitted (now : Z) (w : AuthWorld) r store :
  checkRateLimit "login"
    (getClientIdentifier headers ++ ":" ++ Engine.orEmpty (formData "identifier"))
    RATE_LIMIT_CONFIGS_login now (rateLimitStore w) = (r, store) ->
  success r = true ->
  handleCredentialsSignIn services formData headers now w
  = (Ok (Engine.Failure "Invalid credentials"),
     mkAuthWorld store
       (signInCalls w ++ [(Engine.orEmpty (formData "identifier"),
                           Engine.orEmpty (formData "password"))])
       (users w) (S (ticks w))).
Proof.
  intros Hcheck Hok. unfold handleCredentialsSignIn.
  rewrite Hidentifier, Hpassword. cbn [negb orb]. rewrite Hcheck, Hok.
  cbn [negb].
  destruct (Hwrong (ticks w) (Engine.orEmpty (formData "identifier"))
                   (Engine.orEmpty (formData "password")))
    as (error & -> & ->).
  reflexivity.
Qed.

Lemma login_step_refused (now : Z) (w : AuthWorld) e :
  rateLimitStore w !! key = Some e -> now <= resetTime e -> 5 <= count e ->
  exists message,
    handleCredentialsSignIn services formData headers now w
    = (Ok (Engine.Failure message), w).
Proof.
  intros He Hnow Hfull. unfold handleCredentialsSignIn.
  rewrite Hidentifier, Hpassword. cbn [negb orb]. fold key.
  rewrite (checkRateLimit_live_full _ _ RATE_LIMIT_CONFIGS_login _ _ _
             He Hnow Hfull).
  cbn [success negb]. unfold setStore. rewrite world_eta. eauto.
Qed.

Lemma attempts_live (R : Z) (ts : list Z) :
  forall (c : Z) (w : AuthWorld),
    rateLimitStore w !! key = Some (mkEntry c R) ->
    Forall (fun t => t <= R) ts ->
    length (signInCalls (snd (attempts services formData headers ts w)))
    = (length (signInCalls w) + Nat.min (length ts) (Z.to_nat (5 - c)))%nat /\
    Forall (fun out => exists message, out = Ok (Engine.Failure message))
           (fst (attempts services formData headers ts w)).
Proof.
  induction ts as [|t ts IH]; intros c w Hentry Hts.
  - cbn. split; [lia|constructor].
  - apply Forall_cons_1 in Hts as [Ht Hts]. cbn [attempts].
    destruct (Z_lt_le_dec c 5) as [Hlt|Hge].
    + rewrite (login_step_admitted t w _ _
                 (checkRateLimit_live_below _ _ RATE_LIMIT_CONFIGS_login _ _ _
                    Hentry Ht Hlt) eq_refl).
      cbn [count resetTime].
      match goal with
      | |- context [attempts _ _ _ ts ?w1] =>
          specialize (IH (c + 1) w1 (lookup_insert_eq _ _ _) Hts);
          destruct (attempts services formData headers ts w1) as [outs w2]
      end.
      cbn [fst snd signInCalls] in *. destruct IH as [IHn IHo].
      rewrite IHn, length_app. cbn [length].
      split; [|constructor; eauto].
      replace (Z.to_nat (5 - c)) with (S (Z.to_nat (5 - (c + 1)))) by lia.
      cbn [Nat.min]. lia.
    + destruct (login_step_refused t w _ Hentry Ht Hge) as [message ->].
      specialize (IH c w Hentry Hts).
      destruct (attempts services formData headers ts w) as [outs w2].
      cbn [fst snd] in *. destruct IH as [IHn IHo].
      split; [|constructor; eauto].
      rewrite IHn. replace (Z.to_nat (5 - c)) with 0%nat by lia.
      rewrite !Nat.min_0_r. reflexivity.
Qed.

(** X26.  However many times a form with a wrong password is sent for one
    client and identifier from the opening of a window until its reset
    time, [signIn] is called for the first five attempts only: at most
    five guesses per quarter of an hour reach the check of the password,
    and every attempt is answered by a failure. *)
Theorem login_attempts_are_bounded (w : AuthWorld) (t1 : Z) (ts : list Z) :
  rateLimitStore w !! key = None ->
  Forall (fun t => t <= t1 + 900000) ts ->
  length (signInCalls
            (snd (attempts services formData headers (t1 :: ts) w)))
  = (length (signInCalls w) + Nat.min (S (length ts)) 5)%nat /\
  Forall (fun out => exists message, out = Ok (Engine.Failure message))
         (fst (attempts services formData headers (t1 :: ts) w)).
Proof.
  intros Hfresh Hts. cbn [attempts].
  rewrite (login_step_admitted t1 w _ _
             (checkRateLimit_absent _ _ RATE_LIMIT_CONFIGS_login _ _ Hfresh)
             eq_refl).
  match goal with
  | |- context [attempts _ _ _ ts ?w1] =>
      destruct (attempts_live (t1 + 900000) ts 1 w1
                  (lookup_insert_eq _ _ _) Hts) as [Hn Ho];
      destruct (attempts services formData headers ts w1) as [outs w2]
  end.
  cbn [fst snd signInCalls] in *. rewrite Hn, length_app. cbn [length].
  split; [|constructor; eauto].
  change (Z.to_nat (5 - 1)) with 4%nat. cbn [Nat.min]. lia.
Qed.

End SignInAttempts.

Section Registration.
Import Js RateLimit Alphabet Auth.
Local Open Scope list_scope.

Variable services : Services.
Variable headers : Headers.

Local Abbreviation key := (storeKey "register" (getClientIdentifier headers)).

Lemma insertUser_store email username password name (w : AuthWorld) :
  rateLimitStore (snd (insertUser services email username password name w))
  = rateLimitStore w.
Proof.
  unfold insertUser.
  repeat match goal with
         | |- context [if ?b then _ else _] => destruct b
         end; reflexivity.
Qed.

Lemma register_store email username password (w : AuthWorld) :
  rateLimitStore (snd (register services email username password w))
  = rateLimitStore w.
Proof.
  unfold register.
  destruct (findFirst u_email email w); [reflexivity|].
  destruct (if Engine.truthy username then _ else _); [reflexivity|].
  destruct (bcryptHash services (ticks w) password 12); [|reflexivity].
  match goal with
  | |- context [insertUser services ?e ?u ?p ?n ?w0] =>
      pose proof (insertUser_store e u p n w0) as H;
      destruct (insertUser services e u p n w0) as [[[]|err] w2]
  end; exact H.
Qed.

(** The rate limiter is consulted before the form is read: whatever the
    form holds, the map of the limiter after [handleRegister] is the
    one [checkRateLimit] leaves. *)
Lemma handleRegister_store formData (now : Z) (w : AuthWorld) :
  rateLimitStore (snd (handleRegister services formData headers now w))
  = snd (checkRateLimit "register" (getClientIdentifier headers)
           RATE_LIMIT_CONFIGS_register now (rateLimitStore w)).
Proof.
  unfold handleRegister.
  destruct (checkRateLimit "register" _ RATE_LIMIT_CONFIGS_register now
              (rateLimitStore w)) as [rateLimit store].
  cbn [snd].
  repeat match goal with
         | |- context [if ?b then _ else _] => destruct b
         end; try reflexivity.
  match goal with
  | |- context [register services ?e ?u ?p ?w0] =>
      pose proof (register_store e u p w0) as H;
      destruct (register services e u p w0) as [[result|err] w2]
  end; exact H.
Qed.

Lemma register_step_refused formData (now : Z) (w : AuthWorld) e :
  rateLimitStore w !! key = Some e -> now <= resetTime e -> 3 <= count e ->
  exists message,
    handleRegister services formData headers now w
    = (Engine.Failure message, w).
Proof.
  intros He Hnow Hfull. unfold handleRegister. fold key.
  rewrite (checkRateLimit_live_full _ _ RATE_LIMIT_CONFIGS_register _ _ _
             He Hnow Hfull).
  cbn [success negb]. unfold setStore. rewrite world_eta. eauto.
Qed.

(** X27.  Every call of [handleRegister] counts against the limit of the
    client, whatever the form holds: of any four calls made for one
    client within an hour, the fourth is refused and writes nothing,
    even when the first three were refused by the validation of the
    form. *)
Theorem fourth_registration_is_refused
    (f1 f2 f3 f4 : FormData) (t1 t2 t3 t4 : Z) (w0 : AuthWorld) :
  rateLimitStore w0 !! key = None ->
  t2 <= t1 + 3600000 -> t3 <= t1 + 3600000 -> t4 <= t1 + 3600000 ->
  let w1 := snd (handleRegister services f1 headers t1 w0) in
  let w2 := snd (handleRegister services f2 headers t2 w1) in
  let w3 := snd (handleRegister services f3 headers t3 w2) in
  exists message,
    handleRegister services f4 headers t4 w3 = (Engine.Failure message, w3).
Proof.
  intros Hfresh H2 H3 H4 w1 w2 w3.
  assert (E1 : rateLimitStore w1 !! key = Some (mkEntry 1 (t1 + 3600000))).
  { subst w1. rewrite handleRegister_store.
    rewrite (checkRateLimit_absent _ _ RATE_LIMIT_CONFIGS_register _ _ Hfresh).
    apply lookup_insert_eq. }
  assert (E2 : rateLimitStore w2 !! key = Some (mkEntry 2 (t1 + 3600000))).
  { subst w2. rewrite handleRegister_store.
    rewrite (checkRateLimit_live_below _ _ RATE_LIMIT_CONFIGS_register _ _ _ E1);
      [apply lookup_insert_eq|exact H2|cbn; lia]. }
  assert (E3 : rateLimitStore w3 !! key = Some (mkEntry 3 (t1 + 3600000))).
  { subst w3. rewrite handleRegister_store.
    rewrite (checkRateLimit_live_below _ _ RATE_LIMIT_CONFIGS_register _ _ _ E2);
      [apply lookup_insert_eq|exact H3|cbn; lia]. }
  apply (register_step_refused f4 t4 w3 _ E3); [exact H4|cbn; lia].
Qed.

Lemma find_none_email email (l : list UserRow) :
  List.find (columnIs u_email email) l = None ->
  forall u, In u l -> u_email u <> Some email.
Proof.
  intros Hnone u Hin Heq.
  pose proof (List.find_none _ _ Hnone u Hin) as H.
  unfold columnIs in H. rewrite Heq, String.eqb_refl in H. discriminate.
Qed.

Lemma find_none_username username (l : list UserRow) :
  List.find (columnIs u_username username) l = None ->
  forall u, In u l -> u_username u <> Some username.
Proof.
  intros Hnone u Hin Heq.
  pose proof (List.find_none _ _ Hnone u Hin) as H.
  unfold columnIs in H. rewrite Heq, String.eqb_refl in H. discriminate.
Qed.

Lemma uniqueEmails_snoc (l : list UserRow) (row : UserRow) email :
  uniqueEmails l -> u_email row = Some email ->
  (forall u, In u l -> u_email u <> Some email) ->
  uniqueEmails (l ++ [row]).
Proof.
  intros Hl Hrow Hnew i j u v e Hi Hj Hu Hv.
  apply lookup_app_Some in Hi as [Hi|[Hi Hi']], Hj as [Hj|[Hj Hj']].
  - exact (Hl i j u v e Hi Hj Hu Hv).
  - apply list_lookup_singleton_Some in Hj' as [_ <-].
    rewrite Hrow in Hv. injection Hv as <-.
    exfalso. apply (Hnew u); [|exact Hu].
    apply list_elem_of_In. now apply list_elem_of_lookup_2 in Hi.
  - apply list_lookup_singleton_Some in Hi' as [_ <-].
    rewrite Hrow in Hu. injection Hu as <-.
    exfalso. apply (Hnew v); [|exact Hv].
    apply list_elem_of_In. now apply list_elem_of_lookup_2 in Hj.
  - apply list_lookup_singleton_Some in Hi' as [Hi' _], Hj' as [Hj' _]. lia.
Qed.

(** X28.  When [handleRegister] returns a success, the form held an email of
    the shape [a@b.c], a password that meets the policy and its
    repetition, and, if a user name was given, one of at least three
    letters, digits, underscores or hyphens that no user had; no user
    had the email; and exactly one row has been added to the table of
    users, with the email and, as its password, what [bcrypt.hash]
    returned for the password with cost 12.  Emails that were unique
    stay unique. *)
Theorem registration_success_means (formData : FormData) (now : Z)
    (w w' : AuthWorld) :
  handleRegister services formData headers now w = (Engine.Success tt, w') ->
  exists email password hashed row,
    formData "email" = Some email /\
    formData "password" = Some password /\
    formData "confirmPassword" = Some password /\
    emailShape email /\ strongPassword password = true /\
    (forall username,
       formData "username" = Some username -> username <> EmptyString ->
       (3 <= String.length username)%nat /\
       every usernameChar username = true /\
       (forall u, In u (users w) -> u_username u <> Some username) /\
       u_username row = Some username) /\
    (forall u, In u (users w) -> u_email u <> Some email) /\
    (exists n, bcryptHash services n password 12 = Ok hashed) /\
    users w' = users w ++ [row] /\
    u_email row = Some email /\ u_password row = Some hashed /\
    (uniqueEmails (users w) -> uniqueEmails (users w')).
Proof.
  unfold handleRegister.
  destruct (checkRateLimit "register" _ RATE_LIMIT_CONFIGS_register now
              (rateLimitStore w)) as [rateLimit store].
  destruct (negb (success rateLimit)); [discriminate|].
  destruct (formData "email") as [[|c email]|] eqn:Hemail; try discriminate.
  destruct (formData "password") as [[|d password]|] eqn:Hpw;
    try discriminate.
  cbn [Engine.truthy Engine.orEmpty isEmpty negb orb].
  destruct (test emailRegex (String c email)) eqn:Hre; [|discriminate].
  cbn [negb].
  destruct (passwordRegexTest (String d password)) eqn:Hstrong;
    [|discriminate].
  apply passwordRegexTest_strong in Hstrong.
  cbn [negb].
  destruct (bool_decide (Some (String d password) = formData "confirmPassword"))
    eqn:Hconfirm; [|discriminate].
  apply bool_decide_eq_true in Hconfirm. cbn [negb].
  destruct (Engine.truthy (formData "username")
            && (String.length (Engine.orEmpty (formData "username")) <? 3)%nat)
    eqn:Hshort; [discriminate|].
  destruct (Engine.truthy (formData "username")
            && negb (test usernameRegex (Engine.orEmpty (formData "username"))))
    eqn:Hchars; [discriminate|].
  unfold register, setStore.
  destruct (findFirst u_email (String c email) _) eqn:Hfree; [discriminate|].
  unfold findFirst in Hfree. cbn [users] in Hfree.
  pose proof (find_none_email _ _ Hfree) as Hnew.
  destruct (if Engine.truthy (formData "username") then _ else _)
    eqn:Htaken; [discriminate|].
  cbn [ticks].
  destruct (bcryptHash services (ticks w) (String d password) 12)
    as [hashed|err] eqn:Hhash; [|discriminate].
  unfold insertUser. cbn [users ticks tick rateLimitStore signInCalls].
  destruct (existsb _ (users w)); [discriminate|].
  destruct (existsb _ (users w)); [discriminate|].
  intros [= <-]. cbn [users].
  match goal with
  | |- context [users w ++ [?r]] =>
      exists (String c email), (String d password), hashed, r
  end.
  split; [reflexivity|]. split; [reflexivity|]. split; [now symmetry|].
  split; [now apply email_shape_of_test|]. split; [exact Hstrong|].
  split.
  { intros username Huser Hne. rewrite Huser in *.
    assert (Ht : Engine.truthy (Some username) = true)
      by (destruct username; [contradiction|reflexivity]).
    rewrite Ht in *. cbn [andb Engine.orEmpty] in *.
    apply Nat.ltb_ge in Hshort. apply negb_false_iff in Hchars.
    unfold usernameRegex in Hchars. rewrite test_plus_class in Hchars.
    apply andb_true_iff in Hchars as [_ Hchars].
    unfold findFirst in Htaken. cbn [users] in Htaken.
    split; [exact Hshort|]. split; [exact Hchars|].
    split; [now apply find_none_username|reflexivity]. }
  split; [exact Hnew|]. split; [eauto|]. split; [reflexivity|].
  split; [reflexivity|]. split; [reflexivity|].
  intros Hunique. now apply uniqueEmails_snoc with (String c email).
Qed.

Lemma register_users email username password (w : AuthWorld) :
  signInCalls (snd (register services email username password w))
  = signInCalls w /\
  ((users (snd (register services email username password w)) = users w /\
    fst (register services email username password w)
    <> Ok (Engine.Success tt)) \/
   (fst (register services email username password w) = Ok (Engine.Success tt) /\
    exists row,
      users (snd (register services email username password w))
      = users w ++ [row])).
Proof.
  unfold register.
  destruct (findFirst u_email email w);
    [split; [reflexivity|left; split; [reflexivity|discriminate]]|].
  destruct (if Engine.truthy username then _ else _);
    [split; [reflexivity|left; split; [reflexivity|discriminate]]|].
  destruct (bcryptHash services (ticks w) password 12);
    [|split; [reflexivity|left; split; [reflexivity|discriminate]]].
  unfold insertUser. cbn [users ticks tick rateLimitStore signInCalls].
  destruct (existsb _ (users w));
    [split; [reflexivity|left; split; [reflexivity|discriminate]]|].
  destruct (existsb _ (users w));
    [split; [reflexivity|left; split; [reflexivity|discriminate]]|].
  split; [reflexivity|]. right. split; [reflexivity|]. eexists. reflexivity.
Qed.

(** X29.  [handleRegister] writes to the table of users only when it returns
    a success, and then adds one row: a refusal by the rate limiter, by
    the validation of the form or by the checks of the email and the
    user name, and an error of [bcrypt.hash] or of the insertion, leave
    the table as it was.  It never calls [signIn]. *)
Theorem registration_writes_only_on_success (formData : FormData) (now : Z)
    (w w' : AuthWorld) (out : Engine.ActionResult unit) :
  handleRegister services formData headers now w = (out, w') ->
  signInCalls w' = signInCalls w /\
  ((exists message, out = Engine.Failure message /\ users w' = users w) \/
   (out = Engine.Success tt /\ exists row, users w' = users w ++ [row])).
Proof.
  unfold handleRegister.
  destruct (checkRateLimit "register" _ RATE_LIMIT_CONFIGS_register now
              (rateLimitStore w)) as [rateLimit store].
  repeat match goal with
         | |- context [if ?b then _ else _] => destruct b
         end;
    try (intros [= <- <-]; split; [reflexivity|left; eauto]).
  match goal with
  | |- context [register services ?e ?u ?p ?w0] =>
      destruct (register_users e u p w0) as [Hcalls Husers];
      destruct (register services e u p w0) as [[[[]|message]|err] w2]
  end; cbn [fst snd setStore users signInCalls] in *;
    intros [= <- <-]; cbn [users signInCalls tick];
    (split; [exact Hcalls|]).
  - destruct Husers as [[Hu Hne]|[Hs Hrow]]; [now exfalso|]. right. auto.
  - destruct Husers as [[Hu Hne]|[Hs Hrow]]; [|discriminate Hs].
    left. eauto.
  - destruct Husers as [[Hu Hne]|[Hs Hrow]]; [|discriminate Hs].
    left. eauto.
Qed.

End Registration.

Section MoreSampleRuns.
Import Js Validation Crypto Engine Providers RateLimit Alphabet Sample
       SampleForms.
Local Open Scope list_scope.

Lemma window_admits_first_calls_only_witness :
  map success
    (fst (checkMany "login" "10.0.0.1" RATE_LIMIT_CONFIGS_login
            [0; 1; 2; 3; 4; 5; 6] ∅))
  = [true; true; true; true; true; false; false].
Proof.
  destruct (window_admits_first_calls_only "login" "10.0.0.1"
              RATE_LIMIT_CONFIGS_login ∅ 0 [1; 2; 3; 4; 5; 6]) as [H _].
  - reflexivity.
  - repeat constructor; cbn; lia.
  - exact H.
Defined.

Lemma sweep_keeps_answers_witness :
  fst (checkRateLimit "api" "10.0.0.1" RATE_LIMIT_CONFIGS_api 70000
         (cleanup 60000 {[ "api:10.0.0.1" := mkEntry 100 50000 ]}))
  = fst (checkRateLimit "api" "10.0.0.1" RATE_LIMIT_CONFIGS_api 70000
           {[ "api:10.0.0.1" := mkEntry 100 50000 ]}).
Proof.
  apply (sweep_keeps_answers "api" "10.0.0.1" RATE_LIMIT_CONFIGS_api
           {[ "api:10.0.0.1" := mkEntry 100 50000 ]} 60000 70000).
  lia.
Defined.

Lemma other_keys_untouched_witness :
  snd (checkRateLimit "login" "10.0.0.1:bob" RATE_LIMIT_CONFIGS_login 0
         {[ "register:10.0.0.1" := mkEntry 3 1000 ]})
    !! storeKey "register" "10.0.0.1"
  = ({[ "register:10.0.0.1" := mkEntry 3 1000 ]} : Store)
      !! storeKey "register" "10.0.0.1" /\
  resetRateLimit "login" "10.0.0.1:bob"
    {[ "register:10.0.0.1" := mkEntry 3 1000 ]}
    !! storeKey "register" "10.0.0.1"
  = ({[ "register:10.0.0.1" := mkEntry 3 1000 ]} : Store)
      !! storeKey "register" "10.0.0.1".
Proof.
  apply (other_keys_untouched "login" "10.0.0.1:bob" "register" "10.0.0.1").
  - reflexivity.
  - reflexivity.
  - discriminate.
Defined.

Lemma encrypted_blob_is_new_format_witness :
  isNewEncryptionFormat sampleApi blob = true.
Proof.
  apply (encrypted_blob_is_new_format sampleApi (model_laws _)
           credentials tape blob).
  vm_compute. reflexivity.
Defined.

Lemma missing_key_blocks_encryption_only_witness :
  decryptCredentials (ModelNode.api None)
    (base64Encode (ModelNode.api None)
       (utf8Encode (ModelNode.api None)
          (JSON_stringify (ModelNode.api None)
             (ofRecord (ModelNode.api None) credentials))))
  = Ok (ofRecord (ModelNode.api None) credentials).
Proof.
  destruct (missing_key_blocks_encryption_only (ModelNode.api None)
              (model_laws _) credentials tape) as (_ & _ & H).
  - left. reflexivity.
  - exact H.
Defined.

Lemma no_session_no_action_witness :
  syncProvider None "p1" worldUp = (Err (JsError "Unauthorized"), worldUp).
Proof.
  destruct (no_session_no_action None worldUp (or_introl eq_refl)) as [H _].
  apply H.
Defined.

Lemma rows_of_other_users_are_not_found_witness :
  syncProvider (Some "u2") "p1" worldUp
  = (Ok (Failure "Provider not found"), worldUp) /\
  deleteProvider (Some "u2") "p1" worldUp
  = (Ok (Failure "Provider not found"), worldUp).
Proof.
  destruct (rows_of_other_users_are_not_found "u2" worldUp) as [H _].
  - discriminate.
  - apply H. intros (p & [<-|[]] & _ & Hu). discriminate Hu.
Defined.


Lemma failed_listRecords_keeps_store_witness :
  db (snd (syncDomainRecords session "d1" worldDown)) = db worldDown /\
  fst (syncDomainRecords session "d1" worldDown)
  = Ok (Failure "Provider API error").
Proof.
  destruct (failed_listRecords_keeps_store session "d1" worldDown _ _
              (surjective_pairing _)) as [H _].
  destruct (H "zone1" (JsError "Provider API error")) as [Hdb Hout];
    [reflexivity|].
  split; [exact Hdb|exact Hout].
Defined.


Lemma syncProvider_never_deletes_witness :
  records (db (snd (syncProvider session "p1" worldUp)))
  = records (db worldUp).
Proof.
  destruct (syncProvider_never_deletes session "p1" worldUp _ _
              (surjective_pairing _)) as [H _].
  exact H.
Defined.

Lemma created_record_mirrors_remote_witness :
  exists row,
    records (db (snd (createRecord session "d1" validCreate worldUp)))
    = records (db worldUp) ++ [row] /\
    r_id row = nanoidAt (idCount worldUp) /\ r_domainId row = "d1" /\
    mirrored row = mirrorOf (recordOfInput "rec-new" validCreate).
Proof.
  destruct (created_record_mirrors_remote session "d1" validCreate worldUp
              (snd (createRecord session "d1" validCreate worldUp))
              (recordOfInput "rec-new" validCreate))
    as (_ & _ & H & _).
  - apply (pair_with_fst (createRecord session "d1" validCreate worldUp)).
    reflexivity.
  - exact H.
Defined.

Lemma deleted_record_is_removed_witness :
  records (db (snd (deleteRecord session "d1" "r1" worldUp)))
  = List.filter (fun r => negb (String.eqb (r_id r) "r1"))
                (records (db worldUp)).
Proof.
  destruct (deleted_record_is_removed session "d1" "r1" worldUp
              (snd (deleteRecord session "d1" "r1" worldUp)))
    as (_ & H & _).
  - apply (pair_with_fst (deleteRecord session "d1" "r1" worldUp)).
    reflexivity.
  - exact H.
Defined.

Lemma updated_record_mirrors_remote_witness :
  providers (db (snd (updateRecord session "d1" "r1" validUpdate worldUp)))
  = providers (db worldUp) /\
  domains (db (snd (updateRecord session "d1" "r1" validUpdate worldUp)))
  = domains (db worldUp).
Proof.
  destruct (updated_record_mirrors_remote session "d1" "r1" validUpdate worldUp
              (snd (updateRecord session "d1" "r1" validUpdate worldUp))
              (recordOfUpdate "rec1" validUpdate))
    as (_ & _ & H).
  - apply (pair_with_fst (updateRecord session "d1" "r1" validUpdate worldUp)).
    reflexivity.
  - exact H.
Defined.

Lemma deleteProvider_cascades_witness :
  (forall r, In r (domains (db (snd (deleteProvider session "p1" worldUp)))) <->
             In r (domains (db worldUp)) /\ d_providerId r <> "p1") /\
  calls (snd (deleteProvider session "p1" worldUp)) = calls worldUp.
Proof.
  destruct (deleteProvider_cascades session "p1" worldUp
              (snd (deleteProvider session "p1" worldUp)))
    as (_ & _ & Hd & _ & _ & _ & Hc).
  - apply (pair_with_fst (deleteProvider session "p1" worldUp)).
    reflexivity.
  - split; [exact Hd|exact Hc].
Defined.

Lemma addProvider_persists_only_validated_witness :
  db (snd (fst (addProvider (sys := sampleSystem) [cloudflareMeta] ["u1"] session providerForm
                  tape worldDown)))
  = db worldDown.
Proof.
  destruct (addProvider_persists_only_validated (sys := sampleSystem) [cloudflareMeta] ["u1"]
              session providerForm tape
              (snd (addProvider (sys := sampleSystem) [cloudflareMeta] ["u1"] session providerForm
                      tape worldDown))
              worldDown
              (snd (fst (addProvider (sys := sampleSystem) [cloudflareMeta] ["u1"] session
                           providerForm tape worldDown)))
              (fst (fst (addProvider (sys := sampleSystem) [cloudflareMeta] ["u1"] session
                           providerForm tape worldDown))))
    as [H _].
  - now destruct (addProvider (sys := sampleSystem) [cloudflareMeta] ["u1"] session providerForm
                    tape worldDown) as [[out w'] g'].
  - apply H. intros id. discriminate.
Defined.

Lemma added_provider_credentials_read_back_witness :
  exists providerMeta stored row,
    In providerMeta [cloudflareMeta] /\
    providerForm "provider" = Some (Providers.pm_name providerMeta) /\
    providers (db (snd (fst (addProvider (sys := sampleSystem) [cloudflareMeta] ["u1"] session
                               providerForm tape worldUp))))
    = providers (db worldUp) ++ [row] /\
    p_id row = "id-" /\
    isNewEncryptionFormat sampleApi (p_credentials row) = true /\
    decryptCredentials sampleApi (p_credentials row)
    = Ok (ofRecord sampleApi stored) /\
    (forall name,
       stored !! name
       = if existsb (fun field => String.eqb (Providers.cf_name field) name
                                  && truthy (providerForm name))
                    (Providers.pm_credentialFields providerMeta)
         then providerForm name else None) /\
    (forall field, In field (Providers.pm_credentialFields providerMeta) ->
                   Providers.cf_required field = true ->
                   truthy (providerForm (Providers.cf_name field)) = true).
Proof.
  apply (added_provider_credentials_read_back (sys := sampleSystem) [cloudflareMeta] ["u1"]
           (model_laws _) session providerForm tape
           (snd (addProvider (sys := sampleSystem) [cloudflareMeta] ["u1"] session providerForm
                   tape worldUp))
           worldUp).
  apply (pair_with_fst
           (addProvider (sys := sampleSystem) [cloudflareMeta] ["u1"] session providerForm
              tape worldUp)).
  apply (pair_with_fst
           (fst (addProvider (sys := sampleSystem) [cloudflareMeta] ["u1"] session providerForm
                   tape worldUp))).
  reflexivity.
Defined.

Lemma txt_content_accepted_iff_witness :
  validateRecordContent "txt" "v=spf1 -all" = Valid.
Proof.
  apply (txt_content_accepted_iff "txt" "v=spf1 -all"); [reflexivity|].
  split; [apply Nat.leb_le; reflexivity|]. split; reflexivity.
Defined.

Lemma dotted_quads_are_accepted_witness :
  validateRecordContent "a" (dotted 192 168 0 1) = Valid.
Proof.
  apply (dotted_quads_are_accepted "a" 192 168 0 1);
    [reflexivity|lia..].
Defined.

Lemma refused_login_never_reaches_signIn_witness :
  exists message,
    Auth.handleCredentialsSignIn strictServices loginForm noHeaders 500
                                 lockedWorld
    = (Ok (Failure message), lockedWorld).
Proof.
  apply (refused_login_never_reaches_signIn strictServices loginForm
           noHeaders 500 lockedWorld (mkEntry 5 1000)).
  - reflexivity.
  - cbn. lia.
  - cbn. lia.
Defined.


Lemma login_attempts_are_bounded_witness :
  length (Auth.signInCalls
            (snd (Auth.attempts strictServices loginForm noHeaders
                    [0; 1; 2; 3; 4; 5; 6; 7] freshWorld)))
  = 5%nat.
Proof.
  destruct (login_attempts_are_bounded strictServices loginForm noHeaders)
    with (w := freshWorld) (t1 := 0) (ts := [1; 2; 3; 4; 5; 6; 7])
    as [H _].
  - reflexivity.
  - reflexivity.
  - intros n identifier password. eexists. split; reflexivity.
  - reflexivity.
  - repeat constructor; cbn; lia.
  - exact H.
Defined.

Lemma fourth_registration_is_refused_witness :
  exists message,
    Auth.handleRegister strictServices registerForm noHeaders 4000
      (snd (Auth.handleRegister strictServices blankForm noHeaders 3000
         (snd (Auth.handleRegister strictServices blankForm noHeaders 2000
            (snd (Auth.handleRegister strictServices blankForm noHeaders 1000
                    freshWorld))))))
    = (Failure message,
       snd (Auth.handleRegister strictServices blankForm noHeaders 3000
         (snd (Auth.handleRegister strictServices blankForm noHeaders 2000
            (snd (Auth.handleRegister strictServices blankForm noHeaders 1000
                    freshWorld)))))).
Proof.
  apply (fourth_registration_is_refused strictServices noHeaders
           blankForm blankForm blankForm registerForm 1000 2000 3000 4000
           freshWorld).
  - reflexivity.
  - lia.
  - lia.
  - lia.
Defined.

Lemma registration_success_means_witness :
  exists email password hashed row,
    registerForm "email" = Some email /\
    registerForm "password" = Some password /\
    registerForm "confirmPassword" = Some password /\
    emailShape email /\ strongPassword password = true /\
    (forall username,
       registerForm "username" = Some username -> username <> EmptyString ->
       (3 <= String.length username)%nat /\
       every Auth.usernameChar username = true /\
       (forall u, In u (Auth.users freshWorld) ->
                  Auth.u_username u <> Some username) /\
       Auth.u_username row = Some username) /\
    (forall u, In u (Auth.users freshWorld) -> Auth.u_email u <> Some email) /\
    (exists n, Auth.bcryptHash strictServices n password 12 = Ok hashed) /\
    Auth.users
      (snd (Auth.handleRegister strictServices registerForm noHeaders 1000
              freshWorld))
    = Auth.users freshWorld ++ [row] /\
    Auth.u_email row = Some email /\ Auth.u_password row = Some hashed /\
    (uniqueEmails (Auth.users freshWorld) ->
     uniqueEmails
       (Auth.users
          (snd (Auth.handleRegister strictServices registerForm noHeaders
                  1000 freshWorld)))).
Proof.
  apply (registration_success_means strictServices noHeaders registerForm
           1000 freshWorld).
  apply (pair_with_fst
           (Auth.handleRegister strictServices registerForm noHeaders 1000
              freshWorld)).
  vm_compute. reflexivity.
Defined.

Lemma registration_writes_only_on_success_witness :
  Auth.signInCalls
    (snd (Auth.handleRegister strictServices blankForm noHeaders 1000
            freshWorld))
  = Auth.signInCalls freshWorld.
Proof.
  destruct (registration_writes_only_on_success strictServices noHeaders
              blankForm 1000 freshWorld _ _ (surjective_pairing _)) as [H _].
  exact H.
Defined.

End MoreSampleRuns.
